(** * Eventix seat reservation and booking engine

    A shallow embedding of [event-booking/backend/database.js] (the tables,
    the purge of expired locks, the seeding of seats) and of the seat,
    booking and payment routes of [event-booking/backend/server.js].

    The SQLite database is a record of tables, every table a list of rows in
    insertion order.  Each route handler is a function from the request and
    the database to a response and the next database.  What the handlers
    read from outside the database (the clock, [uuidv4()], [Math.random()],
    the QR encoder) is passed in explicitly as an environment. *)

From Stdlib Require Import ZArith List String Ascii Bool Lia PrimFloat.
From Stdlib Require Import Sorted Permutation FinFun.
Import ListNotations.

Open Scope string_scope.
Open Scope Z_scope.

(** ** Timestamps as text

    [server.js] writes [expires_at] with [new Date(ms).toISOString()] and
    the SQL statements compare that column with [datetime('now')].  The
    column is declared [DATETIME]; both operands are stored as TEXT, so
    SQLite compares them byte by byte.  Both formats are modelled for
    instants from 1970 to the end of year 9999, as millisecond counts. *)
Module Clock.

Definition ms_per_second : Z := 1000.
Definition ms_per_minute : Z := 60 * 1000.
Definition ms_per_hour : Z := 60 * 60 * 1000.
Definition ms_per_day : Z := 24 * 60 * 60 * 1000.

(** First instant of year 10000: the four-digit formats end here. *)
Definition max_time : Z := 253402300800000.

(** Days since 1970-01-01 to the proleptic Gregorian (year, month, day). *)
Definition civil_from_days (days : Z) : Z * Z * Z :=
  let z := days + 719468 in
  let era := z / 146097 in
  let doe := z - era * 146097 in
  let yoe := (doe - doe / 1460 + doe / 36524 - doe / 146096) / 365 in
  let doy := doe - (365 * yoe + yoe / 4 - yoe / 100) in
  let mp := (5 * doy + 2) / 153 in
  let d := doy - (153 * mp + 2) / 5 + 1 in
  let m := if mp <? 10 then mp + 3 else mp - 9 in
  let y := yoe + era * 400 in
  ((if m <=? 2 then y + 1 else y), m, d).

Definition digit (n : Z) : ascii := ascii_of_N (Z.to_N (48 + n)).

Definition pad2 (n : Z) : string :=
  String (digit (n / 10 mod 10)) (String (digit (n mod 10)) EmptyString).

Definition pad3 (n : Z) : string :=
  String (digit (n / 100 mod 10)) (pad2 n).

Definition pad4 (n : Z) : string :=
  String (digit (n / 1000 mod 10)) (pad3 n).

(** [YYYY-MM-DD], the prefix the two formats share. *)
Definition date_text (t : Z) : string :=
  let '(y, m, d) := civil_from_days (t / ms_per_day) in
  (pad4 y ++ "-" ++ pad2 m ++ "-" ++ pad2 d)%string.

Definition hours (t : Z) : Z := t mod ms_per_day / ms_per_hour.
Definition minutes (t : Z) : Z := t mod ms_per_hour / ms_per_minute.
Definition seconds (t : Z) : Z := t mod ms_per_minute / ms_per_second.
Definition millis (t : Z) : Z := t mod ms_per_second.

(** [Date.prototype.toISOString]: [YYYY-MM-DDTHH:mm:ss.sssZ]. *)
Definition toISOString (t : Z) : string :=
  (date_text t ++ "T" ++ pad2 (hours t) ++ ":" ++ pad2 (minutes t) ++ ":"
    ++ pad2 (seconds t) ++ "." ++ pad3 (millis t) ++ "Z")%string.

(** SQLite's [datetime('now')] when the clock reads [t]:
    [YYYY-MM-DD HH:MM:SS]. *)
Definition datetime (t : Z) : string :=
  (date_text t ++ " " ++ pad2 (hours t) ++ ":" ++ pad2 (minutes t) ++ ":"
    ++ pad2 (seconds t))%string.

(** [Number.prototype.toString(36)] followed by [toUpperCase()], for a
    non-negative integer. *)
Definition digit36 (n : Z) : ascii :=
  if n <? 10 then digit n else ascii_of_N (Z.to_N (55 + n)).

Fixpoint base36_aux (fuel : nat) (n : Z) (acc : string) : string :=
  match fuel with
  | O => acc
  | S fuel' =>
      let acc' := String (digit36 (n mod 36)) acc in
      if n <? 36 then acc' else base36_aux fuel' (n / 36) acc'
  end.

Definition toString36Upper (n : Z) : string := base36_aux 64 n EmptyString.

(** The UTC calendar day an instant falls on, counted from 1970-01-01. *)
Definition utc_day (t : Z) : Z := t / ms_per_day.

(** A calendar date read as the number YYYYMMDD. *)
Definition date_key (c : Z * Z * Z) : Z :=
  let '(y, m, d) := c in y * 10000 + m * 100 + d.

(** The calendar of the 400-year era that starts on 0000-03-01, by day
    of era. *)
Definition era_civil (doe : Z) : Z * Z * Z := civil_from_days (doe - 719468).

Definition civil_ok (c : Z * Z * Z) : bool :=
  let '(y, m, d) := c in
  (0 <=? y) && (y <=? 400) && (1 <=? m) && (m <=? 12)
  && (1 <=? d) && (d <=? 31).

(** The pieces of [civil_from_days], for a day of era [doe] and a day
    of year [doy] counted from March 1. *)
Definition era_numerator (doe : Z) : Z :=
  doe - doe / 1460 + doe / 36524 - doe / 146096.

Definition year_of_era (doe : Z) : Z := era_numerator doe / 365.

Definition days_before_year (yoe : Z) : Z := 365 * yoe + yoe / 4 - yoe / 100.

Definition month_index (doy : Z) : Z := (5 * doy + 2) / 153.

Definition day_of_month (doy : Z) : Z :=
  doy - (153 * month_index doy + 2) / 5 + 1.

Definition civil_month (doy : Z) : Z :=
  if month_index doy <? 10 then month_index doy + 3 else month_index doy - 9.

(** The first day of era of year [yoe]; the era ends after year 399. *)
Definition year_start (yoe : Z) : Z :=
  if yoe =? 400 then 146097 else days_before_year yoe.

(** [year_of_era] is [yoe] on the first and on the last day of the year. *)
Definition year_check (yoe : Z) : bool :=
  (365 * yoe <=? era_numerator (year_start yoe))
  && (era_numerator (year_start (yoe + 1) - 1) <? 365 * (yoe + 1))
  && (year_start (yoe + 1) - year_start yoe <=? 366).

(** Month and day of a day of year as the number MMDD, January and
    February counted after December. *)
Definition month_day_key (doy : Z) : Z :=
  (if civil_month doy <=? 2 then 10000 else 0)
  + civil_month doy * 100 + day_of_month doy.

Definition month_day_ok (doy : Z) : bool :=
  (1 <=? civil_month doy) && (civil_month doy <=? 12)
  && (1 <=? day_of_month doy) && (day_of_month doy <=? 31).

(** Day [doy] of the year and the next one are well formed and in order. *)
Definition doy_check (doy : Z) : bool :=
  month_day_ok doy && month_day_ok (doy + 1)
  && (month_day_key doy <? month_day_key (doy + 1)).

Fixpoint all_from (P : Z -> bool) (n : nat) (i : Z) : bool :=
  match n with
  | O => true
  | S n' => P i && all_from P n' (i + 1)
  end.

(** Lexicographic combination of two comparisons. *)
Definition lex (c : comparison) (rest : comparison) : comparison :=
  match c with Eq => rest | _ => c end.

End Clock.

(** ** Tables ([initDatabase], database.js)

    One record per table, the fields named after the SQL alias and column
    the statements of [server.js] use ([s.id], [sl.expires_at], [b.status],
    [bs.price], ...).  A nullable column is an [option]; [REAL] columns are
    binary64 floats, what sql.js hands to JavaScript. *)

Record seat := mk_seat {
  s_id : string;
  s_venue_id : string;
  s_row_label : string;
  s_seat_number : Z;
  s_tier : string
}.

Record event := mk_event {
  e_id : string;
  e_venue_id : string;
  e_name : string;
  e_base_price : float;
  e_vip_price : option float;
  e_premium_price : option float;
  e_status : string
}.

Record seat_lock := mk_seat_lock {
  sl_id : string;
  sl_event_id : string;
  sl_seat_id : string;
  sl_session_id : string;
  sl_locked_at : string;
  sl_expires_at : string
}.

Record booking := mk_booking {
  b_id : string;
  b_event_id : string;
  b_user_email : string;
  b_user_name : string;
  b_user_phone : option string;
  b_total_amount : float;
  b_status : string;
  b_qr_code : option string
}.

Record booking_seat := mk_booking_seat {
  bs_id : string;
  bs_booking_id : string;
  bs_seat_id : string;
  bs_price : float
}.

Record payment := mk_payment {
  p_id : string;
  p_booking_id : string;
  p_amount : float;
  p_method : string;
  p_status : string;
  p_transaction_id : string;
  p_completed_at : string
}.

Record database := mk_database {
  seats : list seat;
  events : list event;
  seat_locks : list seat_lock;
  bookings : list booking;
  booking_seats : list booking_seat;
  payments : list payment
}.

Definition set_seat_locks (db : database) (ls : list seat_lock) : database :=
  mk_database (seats db) (events db) ls (bookings db) (booking_seats db)
    (payments db).

Definition set_bookings (db : database) (bs : list booking) : database :=
  mk_database (seats db) (events db) (seat_locks db) bs (booking_seats db)
    (payments db).

Definition set_booking_seats (db : database) (bs : list booking_seat)
  : database :=
  mk_database (seats db) (events db) (seat_locks db) (bookings db) bs
    (payments db).

Definition set_payments (db : database) (ps : list payment) : database :=
  mk_database (seats db) (events db) (seat_locks db) (bookings db)
    (booking_seats db) ps.

(** ** What a handler reads from outside the database *)

Record env := mk_env {
  (** [Date.now()], which is also the instant of SQLite's ['now']. *)
  now : Z;
  (** The successive results of [uuidv4()] during one handler run. *)
  uuidv4 : nat -> string;
  (** [Math.random()]. *)
  random : float;
  (** [QRCode.toDataURL(JSON.stringify({bookingId, transactionId,
      timestamp}), ...)]. *)
  qr_data_url : string -> string -> Z -> string
}.

(** ** SQL and JavaScript primitives *)

(** TEXT comparison under the BINARY collation. *)
Definition text_lt (a b : string) : bool := String.ltb a b.

(** [x IN (?, ?, ...)]. *)
Definition sql_in (x : string) (xs : list string) : bool :=
  existsb (String.eqb x) xs.

(** The rows a [LEFT JOIN] pairs with one left row: the matches, or a
    single all-NULL row when there is none. *)
Definition left_join {A : Type} (matches : list A) : list (option A) :=
  match matches with
  | [] => [None]
  | _ => map Some matches
  end.

(** [x IS NOT NULL] on the key column of a joined row. *)
Definition is_not_null {A : Type} (r : option A) : bool :=
  match r with Some _ => true | None => false end.

(** JavaScript truthiness of a string-valued request field that may be
    absent: [undefined] and the empty string are falsy. *)
Definition truthy_string (x : option string) : bool :=
  match x with
  | Some s => negb (String.eqb s "")
  | None => false
  end.

(** A binary64 that is NaN; sql.js binds it as NULL. *)
Definition is_nan (x : float) : bool := negb (PrimFloat.eqb x x).

(** JavaScript truthiness of a nullable [REAL] column: [null], [0], [-0]
    and [NaN] are falsy. *)
Definition truthy_number (x : option float) : bool :=
  match x with
  | Some v => negb (PrimFloat.eqb v 0%float) && negb (is_nan v)
  | None => false
  end.

(** [a || b] on a nullable number and a number. *)
Definition js_or (a : option float) (b : float) : float :=
  match a with
  | Some v => if truthy_number a then v else b
  | None => b
  end.

(** ** database.js *)

(** [expires_at < datetime('now')], the test of the purge. *)
Definition lock_expired (t : Z) (sl : seat_lock) : bool :=
  text_lt (sl_expires_at sl) (Clock.datetime t).

(** [expires_at > datetime('now')], the test of the lock and booking
    routes. *)
Definition lock_live (t : Z) (sl : seat_lock) : bool :=
  text_lt (Clock.datetime t) (sl_expires_at sl).

(** [cleanExpiredLocks]:
    [DELETE FROM seat_locks WHERE expires_at < datetime('now')]. *)
Definition cleanExpiredLocks (t : Z) (db : database) : database :=
  set_seat_locks db
    (filter (fun sl => negb (lock_expired t sl)) (seat_locks db)).

(** [DELETE FROM seat_locks WHERE event_id = ? AND session_id = ?]
    through [runQuery]; with the session id absent the statement fails to
    bind, [runQuery] swallows the error and no row is deleted. *)
Definition delete_session_locks (eventId : string) (sessionId : option string)
    (db : database) : database :=
  match sessionId with
  | None => db
  | Some sid =>
      set_seat_locks db
        (filter (fun sl => negb (String.eqb (sl_event_id sl) eventId
                                 && String.eqb (sl_session_id sl) sid))
           (seat_locks db))
  end.

(** [INSERT OR REPLACE INTO seat_locks]: rows that clash with the new one
    on the primary key [id] or on [UNIQUE(event_id, seat_id)] are deleted,
    then the new row is appended. *)
Definition lock_clashes (new old : seat_lock) : bool :=
  String.eqb (sl_id old) (sl_id new)
  || (String.eqb (sl_event_id old) (sl_event_id new)
      && String.eqb (sl_seat_id old) (sl_seat_id new)).

Definition insert_or_replace_lock (new : seat_lock) (db : database)
  : database :=
  set_seat_locks db
    (filter (fun old => negb (lock_clashes new old)) (seat_locks db)
     ++ [new])%list.

(** [INSERT INTO bookings] through [runQuery]: a primary-key clash or a
    NULL in the [NOT NULL] column [total_amount] makes the statement fail,
    [runQuery] swallows the error and the table is left as it was. *)
Definition insert_booking (new : booking) (db : database) : database :=
  if existsb (fun b => String.eqb (b_id b) (b_id new)) (bookings db)
     || is_nan (b_total_amount new)
  then db
  else set_bookings db (bookings db ++ [new])%list.

(** [INSERT INTO booking_seats] through [runQuery]. *)
Definition insert_booking_seat (new : booking_seat) (db : database)
  : database :=
  if existsb (fun bs => String.eqb (bs_id bs) (bs_id new)) (booking_seats db)
     || is_nan (bs_price new)
  then db
  else set_booking_seats db (booking_seats db ++ [new])%list.

(** [INSERT INTO payments] through [runQuery]. *)
Definition insert_payment (new : payment) (db : database) : database :=
  if existsb (fun p => String.eqb (p_id p) (p_id new)) (payments db)
     || is_nan (p_amount new)
  then db
  else set_payments db (payments db ++ [new])%list.

(** [selectOne("SELECT ... FROM events WHERE id = ?")]. *)
Definition select_event (eventId : string) (db : database) : option event :=
  find (fun e => String.eqb (e_id e) eventId) (events db).

(** [selectOne("SELECT * FROM bookings WHERE id = ?")]. *)
Definition select_booking (bookingId : string) (db : database)
  : option booking :=
  find (fun b => String.eqb (b_id b) bookingId) (bookings db).

(** The subquery
    [SELECT id FROM bookings WHERE event_id = ? AND status = 'confirmed']. *)
Definition confirmed_booking_ids (eventId : string) (db : database)
  : list string :=
  map b_id
    (filter (fun b => String.eqb (b_event_id b) eventId
                      && String.eqb (b_status b) "confirmed")
       (bookings db)).

(** [LEFT JOIN booking_seats bs ON s.id = bs.seat_id AND bs.booking_id IN
    (confirmed bookings of the event)], for one seat row. *)
Definition join_confirmed (eventId : string) (db : database) (s : seat)
  : list (option booking_seat) :=
  left_join
    (filter (fun bs => String.eqb (s_id s) (bs_seat_id bs)
                       && sql_in (bs_booking_id bs)
                            (confirmed_booking_ids eventId db))
       (booking_seats db)).

(** ** server.js: responses *)

Record unavailable_seat := mk_unavailable {
  u_id : string;
  u_row_label : string;
  u_seat_number : Z;
  u_reason : option string
}.

Record seat_view := mk_seat_view {
  v_seat : seat;
  v_status : string;
  v_locked_by : option string;
  v_lock_expires : option string
}.

Inductive body :=
| Error (error : string)
| Unavailable (error : string) (unavailable : list unavailable_seat)
| Locked (expiresAt : string) (lockedSeats : nat)
| Released
| SeatMap (seats : list seat_view)
          (seatsByRow : list (string * list seat_view))
| BookingCreated (bookingId : string) (totalAmount : float) (seats : nat)
| PaymentDone (paymentId transactionId qrCode : string).

Record response := mk_response { status : Z; json : body }.

Definition LOCK_DURATION_MINUTES : Z := 10.

(** The error text of the lock route's 409. *)
Definition conflict_message : string := "Some seats are no longer available".

(** The error text of the booking route's 409. *)
Definition lock_expired_message : string :=
  "Lock expired or invalid. Please select seats again.".

(** ** GET /api/events/:eventId/seats *)

(** [LEFT JOIN seat_locks sl ON s.id = sl.seat_id AND sl.event_id = ?]. *)
Definition join_locks (eventId : string) (db : database) (s : seat)
  : list (option seat_lock) :=
  left_join
    (filter (fun sl => String.eqb (s_id s) (sl_seat_id sl)
                       && String.eqb (sl_event_id sl) eventId)
       (seat_locks db)).

Definition seat_status (bs : option booking_seat) (sl : option seat_lock)
  : string :=
  if is_not_null bs then "booked"
  else if is_not_null sl then "locked"
  else "available".

Definition seat_rows (eventId venueId : string) (db : database)
  : list seat_view :=
  flat_map (fun s =>
    if String.eqb (s_venue_id s) venueId then
      flat_map (fun bs =>
        map (fun sl =>
               mk_seat_view s (seat_status bs sl)
                 (option_map sl_session_id sl) (option_map sl_expires_at sl))
          (join_locks eventId db s))
        (join_confirmed eventId db s)
    else []) (seats db).

(** [ORDER BY s.row_label, s.seat_number]. *)
Definition view_le (a b : seat_view) : bool :=
  text_lt (s_row_label (v_seat a)) (s_row_label (v_seat b))
  || (String.eqb (s_row_label (v_seat a)) (s_row_label (v_seat b))
      && (s_seat_number (v_seat a) <=? s_seat_number (v_seat b))).

Fixpoint insert_sorted (x : seat_view) (l : list seat_view)
  : list seat_view :=
  match l with
  | [] => [x]
  | y :: l' => if view_le x y then x :: l else y :: insert_sorted x l'
  end.

Definition order_by_row_seat (l : list seat_view) : list seat_view :=
  fold_right insert_sorted [] l.

(** [seatsByRow[seat.row_label].push(seat)], keys in first-use order. *)
Fixpoint push_row (key : string) (v : seat_view)
    (groups : list (string * list seat_view))
  : list (string * list seat_view) :=
  match groups with
  | [] => [(key, [v])]
  | (k, vs) :: rest =>
      if String.eqb k key then (k, vs ++ [v])%list :: rest
      else (k, vs) :: push_row key v rest
  end.

Definition group_by_row (l : list seat_view)
  : list (string * list seat_view) :=
  fold_left (fun acc v => push_row (s_row_label (v_seat v)) v acc) l [].

Definition get_seats (en : env) (eventId : string) (db : database)
  : response * database :=
  match select_event eventId db with
  | None => (mk_response 404 (Error "Event not found"), db)
  | Some ev =>
      let db1 := cleanExpiredLocks (now en) db in
      let rows := order_by_row_seat (seat_rows eventId (e_venue_id ev) db1) in
      (mk_response 200 (SeatMap rows (group_by_row rows)), db1)
  end.

(** ** POST /api/events/:eventId/seats/lock *)

Record lock_request := mk_lock_request {
  lr_seatIds : option (list string);
  lr_sessionId : option string
}.

(** [LEFT JOIN seat_locks sl ON s.id = sl.seat_id AND sl.event_id = ?
    AND sl.expires_at > datetime('now')]. *)
Definition join_live_locks (t : Z) (eventId : string) (db : database)
    (s : seat) : list (option seat_lock) :=
  left_join
    (filter (fun sl => String.eqb (s_id s) (sl_seat_id sl)
                       && String.eqb (sl_event_id sl) eventId
                       && lock_live t sl)
       (seat_locks db)).

(** [sl.id IS NOT NULL AND sl.session_id != ?]. *)
Definition locked_by_other (sessionId : string) (sl : option seat_lock)
  : bool :=
  match sl with
  | Some l => negb (String.eqb (sl_session_id l) sessionId)
  | None => false
  end.

Definition unavailable_reason (sessionId : string)
    (bs : option booking_seat) (sl : option seat_lock) : option string :=
  if is_not_null bs then Some "booked"
  else if locked_by_other sessionId sl then Some "locked"
  else None.

(** The [unavailable] query of the lock route. *)
Definition select_unavailable (t : Z) (eventId sessionId : string)
    (seatIds : list string) (db : database) : list unavailable_seat :=
  flat_map (fun s =>
    if sql_in (s_id s) seatIds then
      flat_map (fun bs =>
        flat_map (fun sl =>
          if is_not_null bs || locked_by_other sessionId sl then
            [mk_unavailable (s_id s) (s_row_label s) (s_seat_number s)
               (unavailable_reason sessionId bs sl)]
          else [])
          (join_live_locks t eventId db s))
        (join_confirmed eventId db s)
    else []) (seats db).

(** The [for (const seatId of seatIds)] loop; [i] counts the calls of
    [uuidv4()] made so far. *)
Fixpoint insert_locks (en : env) (eventId sessionId expiresAt : string)
    (i : nat) (seatIds : list string) (db : database) : database :=
  match seatIds with
  | [] => db
  | seatId :: rest =>
      insert_locks en eventId sessionId expiresAt (S i) rest
        (insert_or_replace_lock
           (mk_seat_lock (uuidv4 en i) eventId seatId sessionId
              (Clock.datetime (now en)) expiresAt) db)
  end.

Definition lock_expiry (en : env) : Z :=
  now en + LOCK_DURATION_MINUTES * 60 * 1000.

Definition post_seats_lock (en : env) (eventId : string) (req : lock_request)
    (db : database) : response * database :=
  match lr_seatIds req with
  | None | Some [] => (mk_response 400 (Error "No seats specified"), db)
  | Some seatIds =>
      match lr_sessionId req with
      | None => (mk_response 400 (Error "Session ID required"), db)
      | Some sessionId =>
          if String.eqb sessionId "" then
            (mk_response 400 (Error "Session ID required"), db)
          else
            let db1 := cleanExpiredLocks (now en) db in
            match select_unavailable (now en) eventId sessionId seatIds db1
            with
            | (_ :: _) as unavailable =>
                (mk_response 409 (Unavailable conflict_message unavailable),
                 db1)
            | [] =>
                let db2 := delete_session_locks eventId (Some sessionId) db1 in
                let expiresAt := Clock.toISOString (lock_expiry en) in
                let db3 :=
                  insert_locks en eventId sessionId expiresAt 0 seatIds db2 in
                (mk_response 200 (Locked expiresAt (List.length seatIds)), db3)
            end
      end
  end.

(** ** POST /api/events/:eventId/seats/release *)

Definition post_seats_release (eventId : string) (sessionId : option string)
    (db : database) : response * database :=
  (mk_response 200 Released, delete_session_locks eventId sessionId db).

(** ** POST /api/bookings *)

(** The [seatIds] field of a booking request, by what the route does with
    it: a value that is absent or falsy ([null], [false], [0], the empty
    string), a truthy value that is not an array (a string, a number, an
    object) and so has no [map], or an array, here of strings. *)
Inductive seat_ids :=
| NoSeatIds
| NotAnArray
| SeatIds (ids : list string).

(** The body of a booking request; the other fields are strings when
    present. *)
Record booking_request := mk_booking_request {
  br_eventId : option string;
  br_seatIds : seat_ids;
  br_sessionId : option string;
  br_userEmail : option string;
  br_userName : option string;
  br_userPhone : option string
}.

(** [WHERE event_id = ? AND session_id = ? AND seat_id IN (...)
    AND expires_at > datetime('now')], the test of the booking route. *)
Definition session_lock_test (t : Z) (eventId sessionId : string)
    (seatIds : list string) (sl : seat_lock) : bool :=
  String.eqb (sl_event_id sl) eventId
  && String.eqb (sl_session_id sl) sessionId
  && sql_in (sl_seat_id sl) seatIds
  && lock_live t sl.

(** [SELECT seat_id FROM seat_locks WHERE ...]. *)
Definition select_session_locks (t : Z) (eventId sessionId : string)
    (seatIds : list string) (db : database) : list string :=
  map sl_seat_id
    (filter (session_lock_test t eventId sessionId seatIds) (seat_locks db)).

(** The rows of a query answered through the index of [seats.id], the
    [TEXT PRIMARY KEY]: ascending in [id] under the BINARY collation. *)
Fixpoint insert_by_id (x : seat) (l : list seat) : list seat :=
  match l with
  | [] => [x]
  | y :: rest =>
      if text_lt (s_id y) (s_id x) then y :: insert_by_id x rest
      else x :: l
  end.

Definition order_by_id (l : list seat) : list seat :=
  fold_right insert_by_id [] l.

(** [SELECT * FROM seats WHERE id IN (...)].  SQLite answers the [IN] test
    on the primary key by probing the key's index with the listed values
    in ascending order, so the rows come out ordered by [id], whatever the
    order of the list and the order in which the seats were inserted. *)
Definition select_seats (seatIds : list string) (db : database) : list seat :=
  order_by_id (filter (fun s => sql_in (s_id s) seatIds) (seats db)).

(** The body of [seats.map(seat => ...)]: the price charged for one seat. *)
Definition seat_price (ev : event) (s : seat) : float :=
  let price := e_base_price ev in
  let price :=
    if String.eqb (s_tier s) "vip"
    then js_or (e_vip_price ev) (e_base_price ev * 2)%float
    else price in
  let price :=
    if String.eqb (s_tier s) "premium"
    then js_or (e_premium_price ev) (e_base_price ev * 1.5)%float
    else price in
  price.

(** [totalAmount] after the [map]: [let totalAmount = 0] and one
    [totalAmount += price] per seat row, in the order of the rows. *)
Definition total_amount (ev : event) (rows : list seat) : float :=
  fold_left (fun total s => (total + seat_price ev s)%float) rows 0%float.

(** The [for (const sp of seatPrices)] loop; the booking id took the first
    [uuidv4()], the rows take the following ones. *)
Fixpoint insert_booking_seats (en : env) (bookingId : string) (ev : event)
    (i : nat) (rows : list seat) (db : database) : database :=
  match rows with
  | [] => db
  | s :: rest =>
      insert_booking_seats en bookingId ev (S i) rest
        (insert_booking_seat
           (mk_booking_seat (uuidv4 en i) bookingId (s_id s)
              (seat_price ev s)) db)
  end.

(** [userPhone || null]. *)
Definition phone_or_null (p : option string) : option string :=
  if truthy_string p then p else None.

(** The error text of the booking route's [catch]. *)
Definition booking_failed_message : string := "Failed to create booking".

(** The route has no [Array.isArray] guard: with every required field
    truthy and [seatIds] not an array, [seatIds.map] throws inside the
    [try] before any query, and the [catch] answers 500. *)
Definition post_bookings (en : env) (req : booking_request) (db : database)
  : response * database :=
  match br_eventId req, br_seatIds req, br_sessionId req,
        br_userEmail req, br_userName req with
  | Some eventId, NotAnArray, Some sessionId, Some userEmail, Some userName
    =>
      if negb (truthy_string (br_eventId req))
         || negb (truthy_string (br_sessionId req))
         || negb (truthy_string (br_userEmail req))
         || negb (truthy_string (br_userName req))
      then (mk_response 400 (Error "Missing required fields"), db)
      else (mk_response 500 (Error booking_failed_message), db)
  | Some eventId, SeatIds seatIds, Some sessionId, Some userEmail,
    Some userName
    =>
      if negb (truthy_string (br_eventId req))
         || negb (truthy_string (br_sessionId req))
         || negb (truthy_string (br_userEmail req))
         || negb (truthy_string (br_userName req))
      then (mk_response 400 (Error "Missing required fields"), db)
      else
        let locks :=
          select_session_locks (now en) eventId sessionId seatIds db in
        if negb (Nat.eqb (List.length locks) (List.length seatIds)) then
          (mk_response 409 (Error lock_expired_message), db)
        else
          match select_event eventId db with
          | None => (mk_response 404 (Error "Event not found"), db)
          | Some ev =>
              let rows := select_seats seatIds db in
              let totalAmount := total_amount ev rows in
              let bookingId := uuidv4 en 0 in
              let db1 :=
                insert_booking
                  (mk_booking bookingId eventId userEmail userName
                     (phone_or_null (br_userPhone req)) totalAmount
                     "pending" None) db in
              let db2 := insert_booking_seats en bookingId ev 1 rows db1 in
              let db3 := delete_session_locks eventId (Some sessionId) db2 in
              (mk_response 200
                 (BookingCreated bookingId totalAmount (List.length rows)),
               db3)
          end
  | _, _, _, _, _ => (mk_response 400 (Error "Missing required fields"), db)
  end.

(** ** POST /api/payments *)

Record payment_request := mk_payment_request {
  pr_bookingId : option string;
  pr_method : option string
}.

(** The threshold of the simulated decline: [Math.random() < 0.1]. *)
Definition declined (en : env) : bool :=
  (random en <? 0x1.999999999999ap-4)%float.

(** The transaction reference of a payment made at the instant of [en]. *)
Definition transaction_id (en : env) : string :=
  String.append "TXN" (Clock.toString36Upper (now en)).

(** The [payments] row of an accepted payment. *)
Definition payment_row (en : env) (bookingId method : string) (b : booking)
  : payment :=
  mk_payment (uuidv4 en 0) bookingId (b_total_amount b) method "completed"
    (transaction_id en) (Clock.datetime (now en)).

(** The booking row after [UPDATE bookings SET status = 'confirmed',
    qr_code = ?]. *)
Definition confirmed (b : booking) (qrCode : string) : booking :=
  mk_booking (b_id b) (b_event_id b) (b_user_email b) (b_user_name b)
    (b_user_phone b) (b_total_amount b) "confirmed" (Some qrCode).

(** The error texts of the payment route. *)
Definition already_paid_message : string := "Booking already paid".
Definition declined_message : string :=
  "Payment declined. Please try again or use a different payment method.".

(** [UPDATE bookings SET status = 'confirmed', qr_code = ? WHERE id = ?]. *)
Definition confirm_booking (bookingId qrCode : string) (db : database)
  : database :=
  set_bookings db
    (map (fun b =>
            if String.eqb (b_id b) bookingId then confirmed b qrCode else b)
       (bookings db)).

(** The handler up to its first [await]: validation, the booking lookup
    and the already-paid guard.  [inr] carries what the rest of the run
    keeps in local variables. *)
Definition pay_begin (req : payment_request) (db : database)
  : response + (string * string * booking) :=
  match pr_bookingId req, pr_method req with
  | Some bookingId, Some method =>
      if negb (truthy_string (pr_bookingId req))
         || negb (truthy_string (pr_method req))
      then inl (mk_response 400 (Error "Missing required fields"))
      else
        match select_booking bookingId db with
        | None => inl (mk_response 404 (Error "Booking not found"))
        | Some b =>
            if String.eqb (b_status b) "confirmed"
            then inl (mk_response 400 (Error already_paid_message))
            else inr (bookingId, method, b)
        end
  | _, _ => inl (mk_response 400 (Error "Missing required fields"))
  end.

(** The handler after the simulated processing delay. *)
Definition pay_finish (en : env) (bookingId method : string) (b : booking)
    (db : database) : response * database :=
  if declined en then (mk_response 402 (Error declined_message), db)
  else
    let paymentId := uuidv4 en 0 in
    let transactionId := transaction_id en in
    let db1 := insert_payment (payment_row en bookingId method b) db in
    let qrCode := qr_data_url en bookingId transactionId (now en) in
    let db2 := confirm_booking bookingId qrCode db1 in
    (mk_response 200 (PaymentDone paymentId transactionId qrCode), db2).

(** A run of the handler with no other handler interleaved at its
    [await]s. *)
Definition post_payments (en : env) (req : payment_request) (db : database)
  : response * database :=
  match pay_begin req db with
  | inl r => (r, db)
  | inr (bookingId, method, b) => pay_finish en bookingId method b db
  end.

(** ** Requests and runs *)

Inductive request :=
| GetSeats (eventId : string)
| LockSeats (eventId : string) (req : lock_request)
| ReleaseSeats (eventId : string) (sessionId : option string)
| CreateBooking (req : booking_request)
| Pay (req : payment_request)
| PayResume (bookingId method : string) (b : booking)
| ReaperTick.

(** One handler run, or one tick of [setInterval(cleanExpiredLocks, 30000)].
    [Pay] is a payment run that nothing interleaves; [PayResume] is the part
    of a payment run after its delay, resumed with the booking row it read
    before other handlers ran. *)
Definition handle (en : env) (rq : request) (db : database)
  : option response * database :=
  match rq with
  | GetSeats eventId =>
      let '(r, db') := get_seats en eventId db in (Some r, db')
  | LockSeats eventId req =>
      let '(r, db') := post_seats_lock en eventId req db in (Some r, db')
  | ReleaseSeats eventId sessionId =>
      let '(r, db') := post_seats_release eventId sessionId db in (Some r, db')
  | CreateBooking req =>
      let '(r, db') := post_bookings en req db in (Some r, db')
  | Pay req =>
      let '(r, db') := post_payments en req db in (Some r, db')
  | PayResume bookingId method b =>
      let '(r, db') := pay_finish en bookingId method b db in (Some r, db')
  | ReaperTick => (None, cleanExpiredLocks (now en) db)
  end.

(** The database after a sequence of requests, each with its environment. *)
Fixpoint run (steps : list (env * request)) (db : database) : database :=
  match steps with
  | [] => db
  | (en, rq) :: rest => run rest (snd (handle en rq db))
  end.

(** The responses of a sequence of requests. *)
Fixpoint responses (steps : list (env * request)) (db : database)
  : list (option response) :=
  match steps with
  | [] => []
  | (en, rq) :: rest =>
      fst (handle en rq db) :: responses rest (snd (handle en rq db))
  end.

(** ** [seedDatabase] (database.js): the seats of a venue *)

Record venue := mk_venue {
  v_id : string;
  v_name : string;
  v_address : string;
  v_city : string;
  v_capacity : Z;
  v_rows : Z;
  v_seats_per_row : Z
}.

(** ['ABCDEFGHIJKLMNOPQRST'.split('')]. *)
Definition rowLabels : list string :=
  ["A"; "B"; "C"; "D"; "E"; "F"; "G"; "H"; "I"; "J";
   "K"; "L"; "M"; "N"; "O"; "P"; "Q"; "R"; "S"; "T"].

(** [let tier = 'standard'; if (r < 2) tier = 'vip';
    else if (r < 5) tier = 'premium']. *)
Definition seed_tier (r : nat) : string :=
  if (r <? 2)%nat then "vip"
  else if (r <? 5)%nat then "premium"
  else "standard".

(** The inner loop [for (let s = 1; s <= venue.seats_per_row; s++)], from
    seat number [s] with [n] seats to go; [k] counts the calls of
    [uuidv4()] made so far.  The rows are those handed to [INSERT INTO
    seats]; [None] when [rowLabels[r]] is undefined, which sql.js refuses
    to bind: the exception ends the seeding. *)
Fixpoint seed_row (uuid : nat -> string) (venueId : string) (r k : nat)
    (s : Z) (n : nat) : option (list seat) :=
  match n with
  | O => Some []
  | S n' =>
      match nth_error rowLabels r with
      | None => None
      | Some label =>
          option_map
            (cons (mk_seat (uuid k) venueId label s (seed_tier r)))
            (seed_row uuid venueId r (S k) (s + 1) n')
      end
  end.

(** The outer loop [for (let r = 0; r < venue.rows; r++)], from row [r]
    with [n] rows to go. *)
Fixpoint seed_rows (uuid : nat -> string) (venueId : string)
    (seats_per_row r k n : nat) : option (list seat) :=
  match n with
  | O => Some []
  | S n' =>
      match seed_row uuid venueId r k 1 seats_per_row with
      | None => None
      | Some row =>
          option_map (app row)
            (seed_rows uuid venueId seats_per_row (S r) (k + seats_per_row)
               n')
      end
  end.

(** The seats [seedDatabase] inserts for one venue, [k] ids having been
    drawn before. *)
Definition seed_venue_seats (uuid : nat -> string) (k : nat) (v : venue)
  : option (list seat) :=
  seed_rows uuid (v_id v) (Z.to_nat (v_seats_per_row v)) 0 k
    (Z.to_nat (v_rows v)).

(** The three venues of [seedDatabase]; their ids are the first three
    results of [uuidv4()]. *)
Definition seed_venues (uuid : nat -> string) : list venue :=
  [ mk_venue (uuid 0%nat) "Grand Concert Hall" "123 Music Avenue" "New York"
      300 15 20;
    mk_venue (uuid 1%nat) "Downtown Theater" "456 Broadway St" "Los Angeles"
      200 10 20;
    mk_venue (uuid 2%nat) "Metro Arena" "789 Sports Way" "Chicago"
      500 20 25 ].

(** [db.run("INSERT INTO venues ...")].  [seedDatabase] calls [db.run]
    itself, not [runQuery]: a clash on the PRIMARY KEY [id] throws and the
    seeding ends there, [None]. *)
Definition insert_venue (new : venue) (table : list venue)
  : option (list venue) :=
  if existsb (fun v => String.eqb (v_id v) (v_id new)) table then None
  else Some (table ++ [new])%list.

(** The columns of [UNIQUE(venue_id, row_label, seat_number)]. *)
Definition seat_key (x : seat) : string * string * Z :=
  (s_venue_id x, s_row_label x, s_seat_number x).

(** The constraints of [seats]: PRIMARY KEY [id] and
    [UNIQUE(venue_id, row_label, seat_number)]. *)
Definition seat_clashes (new old : seat) : bool :=
  String.eqb (s_id old) (s_id new)
  || (String.eqb (s_venue_id old) (s_venue_id new)
      && String.eqb (s_row_label old) (s_row_label new)
      && (s_seat_number old =? s_seat_number new)).

(** [db.run("INSERT INTO seats ...")]: a clash throws. *)
Definition insert_seat (new : seat) (table : list seat)
  : option (list seat) :=
  if existsb (seat_clashes new) table then None
  else Some (table ++ [new])%list.

(** The inserts of the rows of one venue, in order, up to the first that
    throws. *)
Fixpoint insert_seats (rows : list seat) (table : list seat)
  : option (list seat) :=
  match rows with
  | [] => Some table
  | x :: rest =>
      match insert_seat x table with
      | None => None
      | Some table' => insert_seats rest table'
      end
  end.

(** The loop [for (const venue of venues)] on the tables [venues] and
    [seats], [k] ids having been drawn: the venue is inserted, then its
    seats, each with the next id. *)
Fixpoint seed_venue_loop (uuid : nat -> string) (k : nat) (vs : list venue)
    (tables : list venue * list seat) : option (list venue * list seat) :=
  match vs with
  | [] => Some tables
  | v :: rest =>
      match insert_venue v (fst tables) with
      | None => None
      | Some venues' =>
          match seed_venue_seats uuid k v with
          | None => None
          | Some rows =>
              match insert_seats rows (snd tables) with
              | None => None
              | Some seats' =>
                  seed_venue_loop uuid (k + List.length rows) rest
                    (venues', seats')
              end
          end
      end
  end.

(** The tables [venues] and [seats] after the venue loop of
    [seedDatabase].  The seeding runs when [venues] is empty; [seats],
    which nothing else inserts into, is empty then too.  The venue ids
    took the calls 0 to 2 of [uuidv4()], the seat ids take the calls from
    3 on. *)
Definition seed_tables (uuid : nat -> string)
  : option (list venue * list seat) :=
  seed_venue_loop uuid 3 (seed_venues uuid) ([], []).

(** The seats of a venue in a seats table. *)
Definition seats_of_venue (venueId : string) (table : list seat)
  : list seat :=
  filter (fun x => String.eqb (s_venue_id x) venueId) table.

(** ** Vocabulary of the statements *)

(** The row is a lock on the pair (event, seat). *)
Definition lock_on (eventId seatId : string) (sl : seat_lock) : bool :=
  String.eqb (sl_event_id sl) eventId && String.eqb (sl_seat_id sl) seatId.

(** The row is a lock on (event, seat) held by the session. *)
Definition lock_of (eventId seatId sessionId : string) (sl : seat_lock)
  : bool :=
  lock_on eventId seatId sl && String.eqb (sl_session_id sl) sessionId.

(** [UNIQUE(event_id, seat_id)] of [seat_locks]. *)
Definition locks_unique (db : database) : Prop :=
  NoDup (map (fun sl => (sl_event_id sl, sl_seat_id sl)) (seat_locks db)).

(** The id names a row of [seats]. *)
Definition is_seat (seatId : string) (db : database) : bool :=
  existsb (fun s => String.eqb (s_id s) seatId) (seats db).

(** A [booking_seats] row attaches the seat to a booking of the event
    whose status is in [statuses]. *)
Definition seat_in_booking (statuses : list string) (eventId seatId : string)
    (db : database) : bool :=
  existsb (fun bs =>
             String.eqb (bs_seat_id bs) seatId
             && existsb (fun b => String.eqb (b_id b) (bs_booking_id bs)
                                  && String.eqb (b_event_id b) eventId
                                  && sql_in (b_status b) statuses)
                  (bookings db))
    (booking_seats db).

(** The first [n] results of [uuidv4()] in a handler run are pairwise
    different. *)
Definition fresh_ids (en : env) (n : nat) : Prop :=
  NoDup (map (uuidv4 en) (seq 0 n)).

(** The row the lock loop writes with its [k]-th id for one seat. *)
Definition lock_row (en : env) (eventId sessionId expiresAt : string)
    (k : nat) (seatId : string) : seat_lock :=
  mk_seat_lock (uuidv4 en k) eventId seatId sessionId
    (Clock.datetime (now en)) expiresAt.

(** The lock row was written for the expiry instant [x]. *)
Definition expires_at_instant (sl : seat_lock) (x : Z) : Prop :=
  sl_expires_at sl = Clock.toISOString x.

(** A live lock as the specification words it: the expiry timestamp of
    the row has not passed at the instant [t].  The timestamp is read as
    the instant [toISOString] wrote it for, within the four-digit years. *)
Definition live_lock (t : Z) (sl : seat_lock) : Prop :=
  exists x, expires_at_instant sl x /\ t < x < Clock.max_time.

(** [isHeld] as the specification words it: every requested seat has a
    live lock owned by the session for the event. *)
Definition isHeld (t : Z) (eventId : string) (seatIds : list string)
    (sessionId : string) (db : database) : Prop :=
  forall seatId, In seatId seatIds ->
    exists sl, In sl (seat_locks db)
               /\ lock_of eventId seatId sessionId sl = true
               /\ live_lock t sl.

(** Price resolution as the specification words it, with [??]: the tier
    price when the event has one, whatever its value. *)
Definition spec_seat_price (ev : event) (s : seat) : float :=
  if String.eqb (s_tier s) "vip" then
    match e_vip_price ev with
    | Some v => v
    | None => (e_base_price ev * 2)%float
    end
  else if String.eqb (s_tier s) "premium" then
    match e_premium_price ev with
    | Some v => v
    | None => (e_base_price ev * 1.5)%float
    end
  else e_base_price ev.

(** The [booking_seats] row the booking loop writes with its [k]-th id. *)
Definition booking_seat_row (en : env) (bookingId : string) (ev : event)
    (k : nat) (s : seat) : booking_seat :=
  mk_booking_seat (uuidv4 en k) bookingId (s_id s) (seat_price ev s).

(** The rows the loop writes for [rows] when its first id is the [i]-th. *)
Definition booking_seat_rows (en : env) (bookingId : string) (ev : event)
    (i : nat) (rows : list seat) : list booking_seat :=
  map (fun ks => booking_seat_row en bookingId ev (fst ks) (snd ks))
    (combine (seq i (List.length rows)) rows).

(** What a booking row records about the purchase: every column but the
    status and the QR code. *)
Definition booking_core (b : booking)
  : string * string * string * string * option string * float :=
  (b_id b, b_event_id b, b_user_email b, b_user_name b, b_user_phone b,
   b_total_amount b).

(** The later database keeps what the earlier one recorded: [seats] and
    [events] are the same, [booking_seats] and [payments] have only grown
    at the end, [bookings] has only grown at the end and kept every
    recorded purchase, and a booking that was confirmed is still
    confirmed. *)
Definition extends (db db' : database) : Prop :=
  seats db' = seats db /\ events db' = events db
  /\ (exists new, booking_seats db' = (booking_seats db ++ new)%list)
  /\ (exists new, payments db' = (payments db ++ new)%list)
  /\ (exists new,
        map booking_core (bookings db')
        = (map booking_core (bookings db) ++ new)%list)
  /\ (forall bookingId b,
        select_booking bookingId db = Some b -> b_status b = "confirmed" ->
        exists b', select_booking bookingId db' = Some b'
                   /\ b_status b' = "confirmed").

(** The seat rows of a seat map response. *)
Definition seat_map_rows (r : response) : list seat_view :=
  match json r with
  | SeatMap rows _ => rows
  | _ => []
  end.

(** ** A small database for the examples *)

Definition demo_db : database :=
  mk_database
    [ mk_seat "A1" "V1" "A" 1 "vip";
      mk_seat "A2" "V1" "A" 2 "vip";
      mk_seat "B1" "V1" "B" 1 "premium";
      mk_seat "C1" "V1" "C" 1 "standard" ]
    [ mk_event "E1" "V1" "Rock Symphony Night" 75 None None "active";
      mk_event "E2" "V1" "Open Rehearsal" 75 (Some 0%float)
        (Some 125%float) "active" ]
    [] [] [] [].

(** Three seats inserted in descending order of id, for an event whose
    prices are the doubles nearest to 0.1 (base), 0.2 (premium) and 0.3
    (VIP). *)
Definition demo_db_cents : database :=
  mk_database
    [ mk_seat "c" "V2" "A" 1 "standard";
      mk_seat "b" "V2" "A" 2 "premium";
      mk_seat "a" "V2" "A" 3 "vip" ]
    [ mk_event "E3" "V2" "Matinee" 0x1.999999999999ap-4
        (Some 0x1.3333333333333p-2%float) (Some 0x1.999999999999ap-3%float)
        "active" ]
    [] [] [] [].

Definition demo_uuid (prefix : string) (i : nat) : string :=
  String.append prefix (Clock.pad2 (Z.of_nat i)).

(** Ids for a seeding: the call number in four digits. *)
Definition demo_seed_uuid (i : nat) : string :=
  (Clock.pad4 (Z.of_nat i) ++ "-seed")%string.

(** 2026-11-02T05:00:00.000Z *)
Definition demo_t0 : Z := 1793595600000.

(** The environment of a request [ms] milliseconds after [demo_t0] whose
    ids start with [prefix]; the payment of such a request is accepted. *)
Definition demo_env (ms : Z) (prefix : string) : env :=
  mk_env (demo_t0 + ms) (demo_uuid prefix) 0.5%float
    (fun bookingId transactionId _ =>
       String.append "qr:" (String.append bookingId transactionId)).

(** The same, with a payment that is declined. *)
Definition demo_env_declined (ms : Z) (prefix : string) : env :=
  mk_env (demo_t0 + ms) (demo_uuid prefix) 0.0625%float
    (fun bookingId transactionId _ =>
       String.append "qr:" (String.append bookingId transactionId)).

Definition demo_lock (eventId : string) (seatIds : list string)
    (sessionId : string) : request :=
  LockSeats eventId (mk_lock_request (Some seatIds) (Some sessionId)).

Definition demo_booking (eventId : string) (seatIds : list string)
    (sessionId : string) : booking_request :=
  mk_booking_request (Some eventId) (SeatIds seatIds) (Some sessionId)
    (Some "ada@example.org") (Some "Ada") None.

Definition demo_payment (bookingId : string) : payment_request :=
  mk_payment_request (Some bookingId) (Some "card").

(** The row X's lock on A1 of event E1, taken at [demo_t0], is stored as. *)
Definition demo_lock_row : seat_lock :=
  mk_seat_lock "x00" "E1" "A1" "X" "2026-11-02 05:00:00"
    "2026-11-02T05:10:00.000Z".

(** X holds A1. *)
Definition demo_db_locked : database :=
  run [(demo_env 0 "x", demo_lock "E1" ["A1"] "X")] demo_db.

(** X holds A1 and Y holds A2. *)
Definition demo_db_two_locks : database :=
  run [ (demo_env 0 "x", demo_lock "E1" ["A1"] "X");
        (demo_env 1000 "y", demo_lock "E1" ["A2"] "Y") ] demo_db.

(** X has locked, booked and paid for A1. *)
Definition demo_db_paid : database :=
  run [ (demo_env 0 "x", demo_lock "E1" ["A1"] "X");
        (demo_env 1000 "b", CreateBooking (demo_booking "E1" ["A1"] "X"));
        (demo_env 2000 "p", Pay (demo_payment "b00")) ] demo_db.

(** X has locked and booked A1 and has not paid. *)
Definition demo_db_pending : database :=
  run [ (demo_env 0 "x", demo_lock "E1" ["A1"] "X");
        (demo_env 1000 "b", CreateBooking (demo_booking "E1" ["A1"] "X")) ]
    demo_db.

(** * Proofs *)

Module ClockFacts.
Import Clock.

Lemma append_assoc (a b c : string) : ((a ++ b) ++ c = a ++ (b ++ c))%string.
Proof. induction a as [|x a IH]; simpl; [reflexivity | now rewrite IH]. Qed.

Lemma digit_compare (x y : Z) :
  0 <= x < 10 -> 0 <= y < 10 -> Ascii.compare (digit x) (digit y) = (x ?= y).
Proof.
  intros Hx Hy. unfold Ascii.compare, digit.
  rewrite !N_ascii_embedding by lia.
  rewrite Z2N.inj_compare by lia.
  apply Z.add_compare_mono_l.
Qed.

Ltac divmod := Z.to_euclidean_division_equations; lia.

Lemma lex_digit (x y a b k : Z) (rest : comparison) :
  0 < k -> 0 <= x < 10 -> 0 <= y < 10 -> 0 <= a < k -> 0 <= b < k ->
  lex (x ?= y) (lex (a ?= b) rest) = lex (x * k + a ?= y * k + b) rest.
Proof.
  intros Hk Hx Hy Ha Hb.
  destruct (Z.compare_spec x y); destruct (Z.compare_spec a b);
    destruct (Z.compare_spec (x * k + a) (y * k + b)); simpl;
    try reflexivity; nia.
Qed.

Lemma compare_cons (c1 c2 : ascii) (s1 s2 : string) :
  String.compare (String c1 s1) (String c2 s2)
  = lex (Ascii.compare c1 c2) (String.compare s1 s2).
Proof. simpl. now destruct (Ascii.compare c1 c2). Qed.

Lemma pad2_compare (a b : Z) (r1 r2 : string) :
  0 <= a < 100 -> 0 <= b < 100 ->
  String.compare (pad2 a ++ r1) (pad2 b ++ r2)
  = lex (a ?= b) (String.compare r1 r2).
Proof.
  intros Ha Hb. unfold pad2. cbn [append].
  rewrite !compare_cons.
  rewrite !digit_compare by (apply Z.mod_pos_bound; lia).
  rewrite (lex_digit _ _ _ _ 10) by (try apply Z.mod_pos_bound; lia).
  f_equal. f_equal; divmod.
Qed.

Lemma pad4_compare (a b : Z) (r1 r2 : string) :
  0 <= a < 10000 -> 0 <= b < 10000 ->
  String.compare (pad4 a ++ r1) (pad4 b ++ r2)
  = lex (a ?= b) (String.compare r1 r2).
Proof.
  intros Ha Hb. unfold pad4, pad3, pad2. cbn [append].
  rewrite !compare_cons.
  rewrite !digit_compare by (apply Z.mod_pos_bound; lia).
  rewrite (lex_digit (a / 10 mod 10) (b / 10 mod 10) _ _ 10)
    by (try apply Z.mod_pos_bound; lia).
  rewrite (lex_digit (a / 100 mod 10) (b / 100 mod 10) _ _ 100)
    by (try apply Z.mod_pos_bound; try lia; divmod).
  rewrite (lex_digit (a / 1000 mod 10) (b / 1000 mod 10) _ _ 1000)
    by (try apply Z.mod_pos_bound; try lia; divmod).
  f_equal. f_equal; divmod.
Qed.

Lemma all_from_spec (P : Z -> bool) (n : nat) :
  forall i, all_from P n i = true ->
  forall k, i <= k < i + Z.of_nat n -> P k = true.
Proof.
  induction n as [|n IH]; intros i H k Hk; [lia|].
  simpl in H. apply andb_prop in H. destruct H as [H0 H1].
  destruct (Z.eq_dec k i) as [->|Hne]; [exact H0|].
  apply (IH (i + 1) H1). lia.
Qed.

Lemma year_check_all : all_from year_check 400 0 = true.
Proof. vm_cast_no_check (eq_refl true). Qed.

Lemma doy_check_all : all_from doy_check 365 0 = true.
Proof. vm_cast_no_check (eq_refl true). Qed.

Lemma year_check_at (y : Z) : 0 <= y < 400 -> year_check y = true.
Proof.
  intros H. apply (all_from_spec year_check 400 0 year_check_all y).
  simpl. lia.
Qed.

Lemma doy_check_at (j : Z) : 0 <= j < 365 -> doy_check j = true.
Proof.
  intros H. apply (all_from_spec doy_check 365 0 doy_check_all j).
  simpl. lia.
Qed.

Lemma era_numerator_mono (a b : Z) :
  0 <= a <= b -> b <= 146096 -> era_numerator a <= era_numerator b.
Proof. unfold era_numerator. intros H1 H2. divmod. Qed.

Lemma year_start_small (y : Z) :
  y <> 400 -> year_start y = days_before_year y.
Proof. unfold year_start. intros H. apply Z.eqb_neq in H. now rewrite H. Qed.

Lemma year_start_step (y : Z) :
  0 <= y < 400 -> 365 <= year_start (y + 1) - year_start y <= 366.
Proof.
  intros H. pose proof (year_check_at y H) as C. unfold year_check in C.
  apply andb_prop in C. destruct C as [_ C]. apply Z.leb_le in C.
  split; [|exact C].
  rewrite (year_start_small y) by lia.
  destruct (Z.eq_dec (y + 1) 400) as [E|E].
  - rewrite E. assert (y = 399) by lia. subst y. vm_compute. discriminate.
  - rewrite year_start_small by exact E. unfold days_before_year. divmod.
Qed.

(** On the days of year [y] of the era, [year_of_era] is [y]. *)
Lemma year_unique (y doe : Z) :
  0 <= y < 400 -> year_start y <= doe < year_start (y + 1) ->
  year_of_era doe = y.
Proof.
  intros Hy Hd. pose proof (year_check_at y Hy) as C. unfold year_check in C.
  apply andb_prop in C. destruct C as [C _].
  apply andb_prop in C. destruct C as [A B].
  apply Z.leb_le in A. apply Z.ltb_lt in B.
  assert (H0 : 0 <= year_start y).
  { rewrite year_start_small by lia. unfold days_before_year. divmod. }
  assert (H1 : year_start (y + 1) <= 146097).
  { destruct (Z.eq_dec (y + 1) 400) as [E|E]; [rewrite E; vm_compute; discriminate|].
    rewrite year_start_small by exact E. unfold days_before_year. divmod. }
  pose proof (era_numerator_mono (year_start y) doe ltac:(lia) ltac:(lia)).
  pose proof (era_numerator_mono doe (year_start (y + 1) - 1)
                ltac:(lia) ltac:(lia)).
  unfold year_of_era.
  symmetry. apply Z.div_unique with (r := era_numerator doe - 365 * y); lia.
Qed.

Lemma year_exists (doe : Z) (n : nat) :
  Z.of_nat n <= 400 -> 0 <= doe < year_start (Z.of_nat n) ->
  exists y, 0 <= y < Z.of_nat n /\ year_start y <= doe < year_start (y + 1).
Proof.
  induction n as [|n IH]; intros Hn Hd.
  - simpl in Hd. rewrite year_start_small in Hd by lia.
    unfold days_before_year in Hd. simpl in Hd. lia.
  - destruct (Z_lt_dec doe (year_start (Z.of_nat n))) as [L|G].
    + destruct IH as [y [Hy Hi]]; [lia | lia |]. exists y. split; [lia|exact Hi].
    + exists (Z.of_nat n). split; [lia|].
      replace (Z.of_nat n + 1) with (Z.of_nat (S n)) by lia. lia.
Qed.

(** Year, and day of year, of a day of era. *)
Lemma year_interval (doe : Z) :
  0 <= doe < 146097 ->
  0 <= year_of_era doe < 400
  /\ year_start (year_of_era doe) <= doe < year_start (year_of_era doe + 1)
  /\ 0 <= doe - days_before_year (year_of_era doe) <= 365.
Proof.
  intros H.
  destruct (year_exists doe 400) as [y [Hy Hi]]; [simpl; lia | simpl; exact H|].
  simpl in Hy.
  rewrite (year_unique y doe Hy Hi).
  split; [exact Hy|]. split; [exact Hi|].
  pose proof (year_start_step y Hy).
  rewrite (year_start_small y) in * by lia. lia.
Qed.

Lemma era_civil_pieces (doe : Z) :
  0 <= doe < 146097 ->
  let y := year_of_era doe in
  let j := doe - days_before_year y in
  era_civil doe
  = ((if civil_month j <=? 2 then y + 1 else y), civil_month j,
     day_of_month j).
Proof.
  intros H. unfold era_civil, civil_from_days.
  replace (doe - 719468 + 719468) with doe by lia.
  rewrite (Z.div_small doe 146097) by lia.
  replace (doe - 0 * 146097) with doe by lia.
  cbv zeta. unfold year_of_era, era_numerator, days_before_year,
    civil_month, day_of_month, month_index.
  rewrite Z.add_0_r. reflexivity.
Qed.

Lemma era_key_pieces (doe : Z) :
  0 <= doe < 146097 ->
  date_key (era_civil doe)
  = year_of_era doe * 10000
    + month_day_key (doe - days_before_year (year_of_era doe)).
Proof.
  intros H. rewrite era_civil_pieces by exact H. cbv zeta.
  unfold date_key, month_day_key.
  destruct (civil_month _ <=? 2); lia.
Qed.

Lemma month_day_ok_at (j : Z) : 0 <= j <= 365 -> month_day_ok j = true.
Proof.
  intros H. destruct (Z.eq_dec j 365) as [->|Hne].
  - reflexivity.
  - pose proof (doy_check_at j ltac:(lia)) as C. unfold doy_check in C.
    apply andb_prop in C. destruct C as [C _].
    apply andb_prop in C. apply C.
Qed.

Lemma month_day_key_step (j : Z) :
  0 <= j < 365 -> month_day_key j < month_day_key (j + 1).
Proof.
  intros H. pose proof (doy_check_at j H) as C. unfold doy_check in C.
  apply andb_prop in C. destruct C as [_ C]. now apply Z.ltb_lt.
Qed.

Lemma month_day_key_mono (i j : Z) :
  0 <= i <= j -> j <= 365 -> month_day_key i <= month_day_key j.
Proof.
  intros [Hi Hij] Hj. revert Hj.
  pattern j. apply (Zlt_lower_bound_ind _ i); [| exact Hij].
  intros x IH Hx Hlt.
  destruct (Z.eq_dec x i) as [->|Hne]; [lia|].
  specialize (IH (x - 1) ltac:(lia) ltac:(lia)).
  pose proof (month_day_key_step (x - 1) ltac:(lia)) as S.
  replace (x - 1 + 1) with x in S by lia. lia.
Qed.

Lemma era_civil_ok (doe : Z) :
  0 <= doe < 146097 -> civil_ok (era_civil doe) = true.
Proof.
  intros H. rewrite era_civil_pieces by exact H. cbv zeta.
  destruct (year_interval doe H) as [Hy [_ Hj]].
  pose proof (month_day_ok_at _ Hj) as C. unfold month_day_ok in C.
  repeat (apply andb_prop in C; destruct C as [C ?]).
  unfold civil_ok.
  repeat (apply andb_true_intro; split); try assumption;
    destruct (civil_month _ <=? 2); apply Z.leb_le; lia.
Qed.

Lemma era_key_step (doe : Z) :
  0 <= doe < 146096 ->
  date_key (era_civil doe) < date_key (era_civil (doe + 1)).
Proof.
  intros H. rewrite !era_key_pieces by lia.
  destruct (year_interval doe ltac:(lia)) as [Hy [Hi Hj]].
  set (y := year_of_era doe) in *.
  destruct (Z_lt_dec (doe + 1) (year_start (y + 1))) as [L|G].
  - rewrite (year_unique y (doe + 1) Hy ltac:(lia)).
    replace (doe + 1 - days_before_year y)
      with (doe - days_before_year y + 1) by lia.
    pose proof (year_start_step y Hy).
    rewrite (year_start_small y) in * by lia.
    pose proof (month_day_key_step (doe - days_before_year y) ltac:(lia)).
    lia.
  - assert (E : doe + 1 = year_start (y + 1)) by lia.
    assert (Hy1 : y + 1 < 400).
    { destruct (Z.eq_dec (y + 1) 400) as [E4|]; [|lia].
      rewrite E4 in E. unfold year_start in E. simpl in E. lia. }
    pose proof (year_start_step (y + 1) ltac:(lia)).
    rewrite (year_unique (y + 1) (doe + 1) ltac:(lia) ltac:(lia)).
    rewrite E. rewrite (year_start_small (y + 1)) by lia.
    replace (days_before_year (y + 1) - days_before_year (y + 1)) with 0
      by lia.
    pose proof (month_day_key_mono (doe - days_before_year y) 365
                  ltac:(lia) ltac:(lia)) as M.
    change (month_day_key 365) with 10229 in M.
    change (month_day_key 0) with 301. lia.
Qed.

Lemma era_key_mono (i j : Z) :
  0 <= i <= j -> j < 146097 ->
  date_key (era_civil i) <= date_key (era_civil j).
Proof.
  intros [Hi Hij] Hj. revert Hj.
  pattern j. apply (Zlt_lower_bound_ind _ i); [| exact Hij].
  intros x IH Hx Hlt.
  destruct (Z.eq_dec x i) as [->|Hne]; [lia|].
  specialize (IH (x - 1) ltac:(lia) ltac:(lia)).
  pose proof (era_key_step (x - 1) ltac:(lia)) as S.
  replace (x - 1 + 1) with x in S by lia. lia.
Qed.

Lemma civil_era (days : Z) :
  civil_from_days days
  = let '(y, m, d) := era_civil ((days + 719468) mod 146097) in
    (y + 400 * ((days + 719468) / 146097), m, d).
Proof.
  unfold era_civil, civil_from_days.
  set (z := days + 719468).
  replace (z mod 146097 - 719468 + 719468) with (z mod 146097) by lia.
  rewrite (Z.div_small (z mod 146097) 146097) by (apply Z.mod_pos_bound; lia).
  replace (z mod 146097 - 0 * 146097) with (z mod 146097) by lia.
  replace (z - z / 146097 * 146097) with (z mod 146097)
    by (rewrite Z.mod_eq by lia; lia).
  set (doe := z mod 146097).
  cbv zeta.
  destruct (_ <=? 2); f_equal; f_equal; lia.
Qed.

Lemma era_key_first : date_key (era_civil 0) = 301.
Proof. reflexivity. Qed.

Lemma era_key_last : date_key (era_civil 146096) = 4000229.
Proof. reflexivity. Qed.

Lemma date_key_era (days : Z) :
  date_key (civil_from_days days)
  = date_key (era_civil ((days + 719468) mod 146097))
    + 4000000 * ((days + 719468) / 146097).
Proof.
  rewrite civil_era.
  destruct (era_civil _) as [[y m] d]. unfold date_key. lia.
Qed.

(** The calendar date, read as the number YYYYMMDD, grows with the day. *)
Lemma date_key_mono (n1 n2 : Z) :
  n1 <= n2 ->
  date_key (civil_from_days n1) <= date_key (civil_from_days n2).
Proof.
  intros H. rewrite !date_key_era.
  set (z1 := n1 + 719468). set (z2 := n2 + 719468).
  assert (Hz : z1 <= z2) by (unfold z1, z2; lia).
  pose proof (Z.mod_pos_bound z1 146097 ltac:(lia)) as B1.
  pose proof (Z.mod_pos_bound z2 146097 ltac:(lia)) as B2.
  pose proof (Z.div_le_mono z1 z2 146097 ltac:(lia) Hz) as He.
  destruct (Z.eq_dec (z1 / 146097) (z2 / 146097)) as [E|NE].
  - rewrite E.
    assert (z1 mod 146097 <= z2 mod 146097).
    { rewrite !Z.mod_eq by lia. rewrite E. lia. }
    pose proof (era_key_mono (z1 mod 146097) (z2 mod 146097)
                  ltac:(lia) ltac:(lia)). lia.
  - pose proof (era_key_mono (z1 mod 146097) 146096 ltac:(lia) ltac:(lia)).
    pose proof (era_key_mono 0 (z2 mod 146097) ltac:(lia) ltac:(lia)).
    rewrite era_key_first in *. rewrite era_key_last in *. lia.
Qed.

Lemma date_key_step (n : Z) :
  date_key (civil_from_days n) < date_key (civil_from_days (n + 1)).
Proof.
  rewrite !date_key_era.
  replace (n + 1 + 719468) with (n + 719468 + 1) by lia.
  set (z := n + 719468).
  pose proof (Z.mod_pos_bound z 146097 ltac:(lia)) as B.
  destruct (Z.eq_dec (z mod 146097) 146096) as [E|NE].
  - assert ((z + 1) mod 146097 = 0 /\ (z + 1) / 146097 = z / 146097 + 1)
      as [-> ->] by divmod.
    rewrite E, era_key_first, era_key_last. lia.
  - assert ((z + 1) mod 146097 = z mod 146097 + 1
            /\ (z + 1) / 146097 = z / 146097) as [-> ->] by divmod.
    pose proof (era_key_step (z mod 146097) ltac:(lia)). lia.
Qed.

Lemma date_key_strict (n1 n2 : Z) :
  n1 < n2 ->
  date_key (civil_from_days n1) < date_key (civil_from_days n2).
Proof.
  intros H. pose proof (date_key_step n1).
  pose proof (date_key_mono (n1 + 1) n2 ltac:(lia)). lia.
Qed.

(** Year, month and day of a day between 1970-01-01 and 9999-12-31. *)
Lemma civil_range (n : Z) :
  0 <= n < 2932897 ->
  let '(y, m, d) := civil_from_days n in
  1970 <= y <= 9999 /\ 1 <= m <= 12 /\ 1 <= d <= 31.
Proof.
  intros H.
  pose proof (date_key_mono 0 n ltac:(lia)) as L.
  pose proof (date_key_mono n 2932896 ltac:(lia)) as U.
  change (date_key (civil_from_days 0)) with 19700101 in L.
  change (date_key (civil_from_days 2932896)) with 99991231 in U.
  revert L U. rewrite civil_era.
  pose proof (era_civil_ok ((n + 719468) mod 146097)
                ltac:(apply Z.mod_pos_bound; lia)) as OK.
  destruct (era_civil _) as [[y m] d]. unfold civil_ok in OK.
  unfold date_key. intros L U.
  repeat (apply andb_prop in OK; destruct OK as [OK ?]).
  lia.
Qed.

Lemma utc_day_range (t : Z) :
  0 <= t < max_time -> 0 <= utc_day t < 2932897.
Proof. unfold utc_day, max_time, ms_per_day. intros H. divmod. Qed.

Lemma lex_date (y1 m1 d1 y2 m2 d2 : Z) (rest : comparison) :
  1 <= m1 <= 12 -> 1 <= d1 <= 31 -> 1 <= m2 <= 12 -> 1 <= d2 <= 31 ->
  lex (y1 ?= y2) (lex (m1 ?= m2) (lex (d1 ?= d2) rest))
  = lex (date_key (y1, m1, d1) ?= date_key (y2, m2, d2)) rest.
Proof.
  intros. unfold date_key.
  destruct (Z.compare_spec y1 y2); destruct (Z.compare_spec m1 m2);
    destruct (Z.compare_spec d1 d2);
    destruct (Z.compare_spec (y1 * 10000 + m1 * 100 + d1)
                (y2 * 10000 + m2 * 100 + d2)); simpl; try reflexivity; lia.
Qed.

Lemma date_text_compare (a b : Z) (r1 r2 : string) :
  0 <= a < max_time -> 0 <= b < max_time ->
  String.compare (date_text a ++ r1) (date_text b ++ r2)
  = lex (utc_day a ?= utc_day b) (String.compare r1 r2).
Proof.
  intros Ha Hb.
  pose proof (civil_range _ (utc_day_range a Ha)) as Ra.
  pose proof (civil_range _ (utc_day_range b Hb)) as Rb.
  assert (K : (date_key (civil_from_days (utc_day a))
               ?= date_key (civil_from_days (utc_day b)))
              = (utc_day a ?= utc_day b)).
  { destruct (Z.compare_spec (utc_day a) (utc_day b)) as [E|L|G].
    - rewrite E. apply Z.compare_refl.
    - apply Z.compare_lt_iff. now apply date_key_strict.
    - apply Z.compare_gt_iff. now apply date_key_strict. }
  rewrite <- K. unfold date_text. fold (utc_day a) (utc_day b).
  destruct (civil_from_days (utc_day a)) as [[y1 m1] d1].
  destruct (civil_from_days (utc_day b)) as [[y2 m2] d2].
  rewrite !append_assoc.
  rewrite pad4_compare by lia.
  cbn [append]. rewrite !compare_cons.
  rewrite pad2_compare by lia.
  cbn [append]. rewrite !compare_cons.
  rewrite pad2_compare by lia.
  change (Ascii.compare "-" "-") with Eq. cbn [lex].
  apply lex_date; lia.
Qed.

(** How SQLite orders [datetime('now')] at instant [t] against an
    [expires_at] written by [toISOString] for instant [x]: by calendar day
    alone, the ISO text being the greater one within a day. *)
Lemma datetime_vs_iso (t x : Z) :
  0 <= t < max_time -> 0 <= x < max_time ->
  String.compare (datetime t) (toISOString x)
  = lex (utc_day t ?= utc_day x) Lt.
Proof.
  intros Ht Hx. unfold datetime, toISOString.
  rewrite date_text_compare by assumption.
  f_equal.
Qed.
End ClockFacts.

(** ** Expiry as the SQL statements decide it *)

Section Expiry.
Variables (t x : Z) (sl : seat_lock).
Hypothesis Ht : 0 <= t < Clock.max_time.
Hypothesis Hx : 0 <= x < Clock.max_time.
Hypothesis Hsl : expires_at_instant sl x.

(** The routes take a lock for live until the UTC day of its expiry
    instant is over. *)
Lemma lock_live_by_day :
  lock_live t sl = (Clock.utc_day t <=? Clock.utc_day x).
Proof.
  unfold lock_live, text_lt, String.ltb. rewrite Hsl.
  rewrite ClockFacts.datetime_vs_iso by assumption.
  destruct (Z.compare_spec (Clock.utc_day t) (Clock.utc_day x));
    simpl; symmetry; [apply Z.leb_le | apply Z.leb_le | apply Z.leb_gt];
    lia.
Qed.

(** The purge deletes a lock only from the UTC day after its expiry
    instant on. *)
Lemma lock_expired_by_day :
  lock_expired t sl = (Clock.utc_day x <? Clock.utc_day t).
Proof.
  unfold lock_expired, text_lt, String.ltb. rewrite Hsl.
  rewrite String.compare_antisym.
  rewrite ClockFacts.datetime_vs_iso by assumption.
  destruct (Z.compare_spec (Clock.utc_day t) (Clock.utc_day x));
    simpl; symmetry; [apply Z.ltb_ge | apply Z.ltb_ge | apply Z.ltb_lt];
    lia.
Qed.

(** A lock whose expiry instant lies ahead passes both tests. *)
Lemma unexpired_lock_is_live :
  t < x -> lock_live t sl = true /\ lock_expired t sl = false.
Proof.
  intros Hlt. rewrite lock_live_by_day, lock_expired_by_day.
  assert (Clock.utc_day t <= Clock.utc_day x).
  { unfold Clock.utc_day. apply Z.div_le_mono; [reflexivity | lia]. }
  split; [apply Z.leb_le | apply Z.ltb_ge]; lia.
Qed.
End Expiry.

(** ** The lock table *)

Lemma lock_on_key (eventId seatId : string) (sl : seat_lock) :
  lock_on eventId seatId sl = true <-> (sl_event_id sl, sl_seat_id sl) = (eventId, seatId).
Proof.
  unfold lock_on. rewrite andb_true_iff, !String.eqb_eq.
  split; [intros [-> ->]; reflexivity | intros H; inversion H; auto].
Qed.

Lemma lock_of_true (eventId seatId sessionId : string) (sl : seat_lock) :
  lock_of eventId seatId sessionId sl = true <->
  sl_event_id sl = eventId /\ sl_seat_id sl = seatId
  /\ sl_session_id sl = sessionId.
Proof.
  unfold lock_of, lock_on. rewrite !andb_true_iff, !String.eqb_eq. tauto.
Qed.

(** Deleting rows keeps a key column unique. *)
Lemma unique_keys_filter {K R : Type} (key : R -> K) (keep : R -> bool)
    (rows : list R) :
  NoDup (map key rows) -> NoDup (map key (filter keep rows)).
Proof.
  intros Hnd. induction rows as [|r rows IH]; simpl; [constructor|].
  apply NoDup_cons_iff in Hnd. destruct Hnd as [Hr Hrows].
  destruct (keep r); simpl; [|now apply IH].
  apply NoDup_cons_iff. split; [|now apply IH].
  rewrite in_map_iff. intros [r' [E Hin]]. apply filter_In in Hin.
  apply Hr. rewrite <- E. apply in_map. tauto.
Qed.

(** With unique keys, the rows of one key that pass a test are at most one. *)
Lemma unique_key_filter {A B : Type} (f : A -> B) (p : A -> bool)
    (l : list A) (k : B) :
  NoDup (map f l) ->
  (forall a, p a = true -> f a = k) ->
  (List.length (filter p l) <= 1)%nat.
Proof.
  intros Hnd Hp. induction l as [|a l IH]; simpl; [lia|].
  inversion Hnd as [|? ? Hn Hd]; subst.
  destruct (p a) eqn:Ea; [|auto].
  assert (E : filter p l = []).
  { destruct (filter p l) as [|b r] eqn:Ef; [reflexivity|exfalso].
    assert (Hb : In b (filter p l)) by (rewrite Ef; left; reflexivity).
    apply filter_In in Hb. destruct Hb as [Hb Pb].
    apply Hn. rewrite (Hp a Ea), <- (Hp b Pb). now apply in_map. }
  rewrite E. simpl. lia.
Qed.

(** With unique keys, two rows of one key are the same row. *)
Lemma unique_key_same {A B : Type} (f : A -> B) (l : list A) (a b : A) :
  NoDup (map f l) -> In a l -> In b l -> f a = f b -> a = b.
Proof.
  induction l as [|c l IH]; simpl; intros Hnd Ha Hb E; [tauto|].
  inversion Hnd as [|? ? Hn Hd]; subst.
  destruct Ha as [->|Ha], Hb as [->|Hb]; auto.
  - exfalso. apply Hn. rewrite E. now apply in_map.
  - exfalso. apply Hn. rewrite <- E. now apply in_map.
Qed.

Lemma seat_locks_clean (t : Z) (db : database) :
  seat_locks (cleanExpiredLocks t db)
  = filter (fun sl => negb (lock_expired t sl)) (seat_locks db).
Proof. reflexivity. Qed.

Lemma seat_locks_delete (eventId sessionId : string) (db : database) :
  seat_locks (delete_session_locks eventId (Some sessionId) db)
  = filter (fun sl => negb (String.eqb (sl_event_id sl) eventId
                            && String.eqb (sl_session_id sl) sessionId))
      (seat_locks db).
Proof. reflexivity. Qed.

Lemma seat_locks_insert (new : seat_lock) (db : database) :
  seat_locks (insert_or_replace_lock new db)
  = (filter (fun old => negb (lock_clashes new old)) (seat_locks db)
     ++ [new])%list.
Proof. reflexivity. Qed.

Lemma clean_unique (t : Z) (db : database) :
  locks_unique db -> locks_unique (cleanExpiredLocks t db).
Proof. unfold locks_unique. rewrite seat_locks_clean. apply unique_keys_filter. Qed.

Lemma delete_unique (eventId : string) (sessionId : option string)
    (db : database) :
  locks_unique db -> locks_unique (delete_session_locks eventId sessionId db).
Proof.
  destruct sessionId as [sid|]; [|auto].
  unfold locks_unique. rewrite seat_locks_delete. apply unique_keys_filter.
Qed.

Lemma insert_unique (new : seat_lock) (db : database) :
  locks_unique db -> locks_unique (insert_or_replace_lock new db).
Proof.
  unfold locks_unique. rewrite seat_locks_insert, map_app. intros H.
  apply NoDup_app.
  - now apply unique_keys_filter.
  - simpl. constructor; [tauto | constructor].
  - intros k Hk [<-|[]]. apply in_map_iff in Hk.
    destruct Hk as [old [E Hin]]. apply filter_In in Hin.
    destruct Hin as [_ Hc]. unfold lock_clashes in Hc.
    inversion E as [[E1 E2]]. rewrite E1, E2, !String.eqb_refl in Hc.
    rewrite orb_true_r in Hc. discriminate.
Qed.

Lemma insert_locks_unique (en : env) (eventId sessionId expiresAt : string)
    (seatIds : list string) :
  forall (i : nat) (db : database),
  locks_unique db ->
  locks_unique (insert_locks en eventId sessionId expiresAt i seatIds db).
Proof.
  induction seatIds as [|s rest IH]; simpl; intros i db H; [exact H|].
  apply IH. now apply insert_unique.
Qed.

(** The tables other than [seat_locks] that the lock route leaves alone. *)
Lemma insert_locks_frame (en : env) (eventId sessionId expiresAt : string)
    (seatIds : list string) :
  forall (i : nat) (db : database),
  let db' := insert_locks en eventId sessionId expiresAt i seatIds db in
  seats db' = seats db /\ events db' = events db
  /\ bookings db' = bookings db /\ booking_seats db' = booking_seats db
  /\ payments db' = payments db.
Proof.
  induction seatIds as [|s rest IH]; simpl; intros i db; [tauto|].
  specialize (IH (S i)
    (insert_or_replace_lock
       (mk_seat_lock (uuidv4 en i) eventId s sessionId
          (Clock.datetime (now en)) expiresAt) db)).
  simpl in IH. exact IH.
Qed.

Lemma insert_booking_locks (new : booking) (db : database) :
  seat_locks (insert_booking new db) = seat_locks db.
Proof. unfold insert_booking. now destruct (_ || _). Qed.

Lemma insert_booking_seat_locks (new : booking_seat) (db : database) :
  seat_locks (insert_booking_seat new db) = seat_locks db.
Proof. unfold insert_booking_seat. now destruct (_ || _). Qed.

Lemma insert_booking_seats_locks (en : env) (bookingId : string) (ev : event)
    (rows : list seat) :
  forall (i : nat) (db : database),
  seat_locks (insert_booking_seats en bookingId ev i rows db) = seat_locks db.
Proof.
  induction rows as [|s rest IH]; simpl; intros i db; [reflexivity|].
  rewrite IH. apply insert_booking_seat_locks.
Qed.

Lemma insert_payment_locks (new : payment) (db : database) :
  seat_locks (insert_payment new db) = seat_locks db.
Proof. unfold insert_payment. now destruct (_ || _). Qed.

Lemma pay_finish_locks (en : env) (bookingId method : string) (b : booking)
    (db : database) :
  seat_locks (snd (pay_finish en bookingId method b db)) = seat_locks db.
Proof.
  unfold pay_finish. destruct (declined en); simpl; [reflexivity|].
  apply insert_payment_locks.
Qed.

Lemma post_payments_locks (en : env) (req : payment_request) (db : database) :
  seat_locks (snd (post_payments en req db)) = seat_locks db.
Proof.
  unfold post_payments. destruct (pay_begin req db) as [r|[[bid m] b]];
    [reflexivity | apply pay_finish_locks].
Qed.

Lemma post_seats_lock_unique (en : env) (eventId : string) (req : lock_request)
    (db : database) :
  locks_unique db -> locks_unique (snd (post_seats_lock en eventId req db)).
Proof.
  intros H. unfold post_seats_lock.
  destruct (lr_seatIds req) as [[|s ids]|]; cbn [snd]; auto.
  destruct (lr_sessionId req) as [sid|]; cbn [snd]; auto.
  destruct (String.eqb sid ""); cbn [snd]; auto.
  destruct (select_unavailable _ _ _ _ _); cbn [snd].
  - apply (insert_locks_unique en eventId sid _ (s :: ids)).
    apply delete_unique. now apply clean_unique.
  - now apply clean_unique.
Qed.

Lemma post_bookings_unique (en : env) (req : booking_request) (db : database) :
  locks_unique db -> locks_unique (snd (post_bookings en req db)).
Proof.
  intros H. unfold post_bookings.
  destruct (br_eventId req) as [e|]; cbn [snd]; auto.
  destruct (br_seatIds req) as [| |ids]; cbn [snd]; auto;
    destruct (br_sessionId req) as [sid|]; cbn [snd]; auto;
    destruct (br_userEmail req) as [em|]; cbn [snd]; auto;
    destruct (br_userName req) as [nm|]; cbn [snd]; auto;
    destruct (_ || _); cbn [snd]; auto.
  destruct (negb _); cbn [snd]; auto.
  destruct (select_event e db) as [ev|]; cbn [snd]; auto.
  apply delete_unique. unfold locks_unique.
  rewrite insert_booking_seats_locks, insert_booking_locks. exact H.
Qed.

(** Every handler and the reaper keep [UNIQUE(event_id, seat_id)]. *)
Lemma handle_unique (en : env) (rq : request) (db : database) :
  locks_unique db -> locks_unique (snd (handle en rq db)).
Proof.
  intros H. destruct rq as [e|e req|e sid|req|req|bid m b|]; simpl.
  - unfold get_seats. destruct (select_event e db); cbn [snd]; auto.
    now apply clean_unique.
  - pose proof (post_seats_lock_unique en e req db H).
    now destruct (post_seats_lock en e req db).
  - now apply delete_unique.
  - pose proof (post_bookings_unique en req db H).
    now destruct (post_bookings en req db).
  - unfold locks_unique. pose proof (post_payments_locks en req db) as E.
    destruct (post_payments en req db). simpl in *. now rewrite E.
  - unfold locks_unique. pose proof (pay_finish_locks en bid m b db) as E.
    destruct (pay_finish en bid m b db). simpl in *. now rewrite E.
  - now apply clean_unique.
Qed.

Lemma run_unique (steps : list (env * request)) :
  forall db, locks_unique db -> locks_unique (run steps db).
Proof.
  induction steps as [|[en rq] rest IH]; simpl; intros db H; [exact H|].
  apply IH. now apply handle_unique.
Qed.

(** ** The joins of the lock route *)

Lemma left_join_some {A : Type} (l : list A) (x : A) :
  In (Some x) (left_join l) <-> In x l.
Proof.
  destruct l as [|a l]; simpl.
  - split; [intros [H|[]]; discriminate | tauto].
  - rewrite in_map_iff. split.
    + intros [H|[y [E H]]]; [inversion H; auto | inversion E; subst; auto].
    + intros [->|H]; [auto | right; exists x; auto].
Qed.

Lemma left_join_inhabited {A : Type} (l : list A) :
  exists r, In r (left_join l).
Proof. destruct l as [|a l]; simpl; eauto. Qed.

Lemma sql_in_In (x : string) (xs : list string) :
  sql_in x xs = true <-> In x xs.
Proof.
  unfold sql_in. rewrite existsb_exists. split.
  - intros [y [Hy E]]. apply String.eqb_eq in E. now subst.
  - intros H. exists x. split; [exact H | apply String.eqb_refl].
Qed.

Lemma is_seat_In (seatId : string) (db : database) :
  is_seat seatId db = true <-> exists s, In s (seats db) /\ s_id s = seatId.
Proof.
  unfold is_seat. rewrite existsb_exists.
  split; intros [s [H E]]; exists s; split; auto;
    [now apply String.eqb_eq | now apply String.eqb_eq].
Qed.

(** The subquery on confirmed bookings, row by row. *)
Lemma confirmed_ids_In (eventId bookingId : string) (db : database) :
  sql_in bookingId (confirmed_booking_ids eventId db) = true <->
  exists b, In b (bookings db) /\ b_id b = bookingId
            /\ b_event_id b = eventId /\ b_status b = "confirmed".
Proof.
  rewrite sql_in_In. unfold confirmed_booking_ids. rewrite in_map_iff.
  split.
  - intros [b [E H]]. apply filter_In in H. destruct H as [H C].
    apply andb_true_iff in C. rewrite !String.eqb_eq in C.
    exists b. tauto.
  - intros [b [H [E [Ev St]]]]. exists b. split; [exact E|].
    apply filter_In. split; [exact H|].
    apply andb_true_iff. now rewrite !String.eqb_eq.
Qed.

Lemma join_confirmed_some (eventId : string) (db : database) (s : seat)
    (bs : booking_seat) :
  In (Some bs) (join_confirmed eventId db s) <->
  In bs (booking_seats db) /\ bs_seat_id bs = s_id s
  /\ sql_in (bs_booking_id bs) (confirmed_booking_ids eventId db) = true.
Proof.
  unfold join_confirmed. rewrite left_join_some, filter_In, andb_true_iff.
  rewrite String.eqb_eq. intuition congruence.
Qed.

Lemma seat_in_confirmed (eventId seatId : string) (db : database) :
  seat_in_booking ["confirmed"] eventId seatId db = true <->
  exists bs, In bs (booking_seats db) /\ bs_seat_id bs = seatId
             /\ sql_in (bs_booking_id bs) (confirmed_booking_ids eventId db)
                = true.
Proof.
  unfold seat_in_booking. rewrite existsb_exists. split.
  - intros [bs [H C]]. apply andb_true_iff in C. destruct C as [E C].
    apply String.eqb_eq in E. apply existsb_exists in C.
    destruct C as [b [Hb Cb]]. rewrite !andb_true_iff in Cb.
    destruct Cb as [[Ei Ee] Es]. apply String.eqb_eq in Ei, Ee.
    simpl in Es. rewrite orb_false_r in Es. apply String.eqb_eq in Es.
    exists bs. repeat split; auto. apply confirmed_ids_In. exists b. auto.
  - intros [bs [H [E C]]]. exists bs. split; [exact H|].
    apply andb_true_iff. split; [now apply String.eqb_eq|].
    apply confirmed_ids_In in C. destruct C as [b [Hb [Ei [Ee Es]]]].
    apply existsb_exists. exists b. split; [exact Hb|].
    rewrite !andb_true_iff, !String.eqb_eq. repeat split; auto.
    simpl. rewrite Es. reflexivity.
Qed.

Lemma join_live_locks_some (t : Z) (eventId : string) (db : database)
    (s : seat) (sl : seat_lock) :
  In (Some sl) (join_live_locks t eventId db s) <->
  In sl (seat_locks db) /\ lock_on eventId (s_id s) sl = true
  /\ lock_live t sl = true.
Proof.
  unfold join_live_locks, lock_on.
  rewrite left_join_some, filter_In, !andb_true_iff, !String.eqb_eq.
  intuition congruence.
Qed.

(** What it takes for a row to be in the [unavailable] result. *)
Lemma select_unavailable_In (t : Z) (eventId sessionId : string)
    (seatIds : list string) (db : database) (u : unavailable_seat) :
  In u (select_unavailable t eventId sessionId seatIds db) <->
  exists s bs sl,
    In s (seats db) /\ In (s_id s) seatIds
    /\ In bs (join_confirmed eventId db s)
    /\ In sl (join_live_locks t eventId db s)
    /\ is_not_null bs || locked_by_other sessionId sl = true
    /\ u = mk_unavailable (s_id s) (s_row_label s) (s_seat_number s)
             (unavailable_reason sessionId bs sl).
Proof.
  unfold select_unavailable. rewrite in_flat_map. split.
  - intros [s [Hs Hu]]. destruct (sql_in (s_id s) seatIds) eqn:Ein;
      [|destruct Hu].
    apply in_flat_map in Hu. destruct Hu as [bs [Hbs Hu]].
    apply in_flat_map in Hu. destruct Hu as [sl [Hsl Hu]].
    destruct (is_not_null bs || locked_by_other sessionId sl) eqn:C;
      [|destruct Hu].
    destruct Hu as [<-|[]]. exists s, bs, sl.
    apply sql_in_In in Ein. repeat split; auto.
  - intros [s [bs [sl [Hs [Hin [Hbs [Hsl [C ->]]]]]]]].
    exists s. split; [exact Hs|]. apply sql_in_In in Hin. rewrite Hin.
    apply in_flat_map. exists bs. split; [exact Hbs|].
    apply in_flat_map. exists sl. split; [exact Hsl|].
    rewrite C. left. reflexivity.
Qed.

(** Every reported row carries a reason. *)
Lemma unavailable_reason_some (sessionId : string) (bs : option booking_seat)
    (sl : option seat_lock) :
  is_not_null bs || locked_by_other sessionId sl = true ->
  unavailable_reason sessionId bs sl = Some "booked"
  \/ unavailable_reason sessionId bs sl = Some "locked".
Proof.
  unfold unavailable_reason. intros H.
  destruct (is_not_null bs); [now left|].
  simpl in H. rewrite H. now right.
Qed.

(** ** The lock route, case by case *)

Lemma post_seats_lock_cases (en : env) (eventId : string)
    (seatIds : list string) (sessionId : string) (db : database) :
  seatIds <> [] -> sessionId <> "" ->
  let db1 := cleanExpiredLocks (now en) db in
  let U := select_unavailable (now en) eventId sessionId seatIds db1 in
  post_seats_lock en eventId
    (mk_lock_request (Some seatIds) (Some sessionId)) db
  = match U with
    | [] =>
        (mk_response 200
           (Locked (Clock.toISOString (lock_expiry en))
              (List.length seatIds)),
         insert_locks en eventId sessionId
           (Clock.toISOString (lock_expiry en)) 0 seatIds
           (delete_session_locks eventId (Some sessionId) db1))
    | _ :: _ => (mk_response 409 (Unavailable conflict_message U), db1)
    end.
Proof.
  intros Hids Hsid. unfold post_seats_lock. cbn [lr_seatIds lr_sessionId].
  destruct seatIds as [|s ids]; [congruence|].
  apply String.eqb_neq in Hsid. rewrite Hsid.
  now destruct (select_unavailable _ _ _ _ _).
Qed.

(** A 409 of the lock route leaves the database as the purge left it. *)
Lemma post_seats_lock_409 (en : env) (eventId : string) (req : lock_request)
    (db : database) (r : response) (db' : database) :
  post_seats_lock en eventId req db = (r, db') -> status r = 409 ->
  db' = cleanExpiredLocks (now en) db.
Proof.
  unfold post_seats_lock.
  destruct (lr_seatIds req) as [[|s ids]|];
    try (intros E; inversion E; subst; simpl; discriminate).
  destruct (lr_sessionId req) as [sid|];
    try (intros E; inversion E; subst; simpl; discriminate).
  destruct (String.eqb sid "");
    try (intros E; inversion E; subst; simpl; discriminate).
  destruct (select_unavailable _ _ _ _ _);
    intros E; inversion E; subst; simpl; [discriminate | reflexivity].
Qed.

Lemma clean_keeps (t : Z) (db : database) (l : seat_lock) :
  In l (seat_locks db) -> lock_expired t l = false ->
  In l (seat_locks (cleanExpiredLocks t db)).
Proof.
  intros H E. rewrite seat_locks_clean. apply filter_In.
  split; [exact H | now rewrite E].
Qed.

Lemma clean_subset (t : Z) (db : database) (l : seat_lock) :
  In l (seat_locks (cleanExpiredLocks t db)) -> In l (seat_locks db).
Proof. rewrite seat_locks_clean. intros H. now apply filter_In in H. Qed.

(** ** Locks written by the lock route *)

Lemma fresh_ids_inj (en : env) (n j k : nat) :
  fresh_ids en n -> (j < n)%nat -> (k < n)%nat ->
  uuidv4 en j = uuidv4 en k -> j = k.
Proof.
  intros H Hj Hk E.
  apply (unique_key_same (uuidv4 en) (seq 0 n) j k H);
    try (apply in_seq; lia). exact E.
Qed.

Section InsertLocks.
Variables (en : env) (eventId sessionId expiresAt : string) (n : nat).
Hypothesis Hfresh : fresh_ids en n.


(** A row written earlier in the loop for seat [g] is still there, or a
    later row for [g] took its place. *)
Lemma insert_locks_keeps (g : string) (seatIds : list string) :
  forall (i : nat) (db : database),
  (i + List.length seatIds <= n)%nat ->
  (exists k, (k < i)%nat /\ In (lock_row en eventId sessionId expiresAt k g) (seat_locks db)) ->
  exists k, (k < i + List.length seatIds)%nat
            /\ In (lock_row en eventId sessionId expiresAt k g)
                 (seat_locks
                    (insert_locks en eventId sessionId expiresAt i
                       seatIds db)).
Proof.
  induction seatIds as [|s rest IH]; intros i db Hn [k [Hk Hin]].
  - exists k. simpl. split; [lia | exact Hin].
  - cbn [insert_locks List.length] in *.
    replace (i + S (List.length rest))%nat
      with (S i + List.length rest)%nat by lia.
    apply IH; [lia|].
    destruct (String.eqb s g) eqn:Esg.
    + apply String.eqb_eq in Esg. subst s. exists i. split; [lia|].
      rewrite seat_locks_insert. apply in_or_app. right. now left.
    + exists k. split; [lia|].
      rewrite seat_locks_insert. apply in_or_app. left.
      apply filter_In. split; [exact Hin|].
      unfold lock_clashes, lock_row. cbn.
      rewrite String.eqb_refl, (String.eqb_sym g s), Esg.
      rewrite andb_false_r, orb_false_r.
      apply negb_true_iff. apply String.eqb_neq. intros E.
      apply (fresh_ids_inj en n k i Hfresh) in E; lia.
Qed.

(** After the loop every requested id has a row of the session. *)
Lemma insert_locks_all (g : string) (seatIds : list string) :
  forall (i : nat) (db : database),
  (i + List.length seatIds <= n)%nat ->
  In g seatIds ->
  exists k, (k < i + List.length seatIds)%nat
            /\ In (lock_row en eventId sessionId expiresAt k g)
                 (seat_locks
                    (insert_locks en eventId sessionId expiresAt i
                       seatIds db)).
Proof.
  induction seatIds as [|s rest IH]; intros i db Hn Hg; [destruct Hg|].
  cbn [insert_locks List.length] in *.
  replace (i + S (List.length rest))%nat
    with (S i + List.length rest)%nat by lia.
  destruct (String.eqb s g) eqn:Esg.
  - apply String.eqb_eq in Esg. subst s.
    apply insert_locks_keeps; [lia|].
    exists i. split; [lia|].
    rewrite seat_locks_insert. apply in_or_app. right. now left.
  - apply IH; [lia|]. destruct Hg as [->|Hg]; [|exact Hg].
    rewrite String.eqb_refl in Esg. discriminate.
Qed.
End InsertLocks.

Lemma filter_filter_nil {A : Type} (p q : A -> bool) (l : list A) :
  (forall a, p a = true -> q a = false) -> filter p (filter q l) = [].
Proof.
  intros H. induction l as [|a l IH]; simpl; [reflexivity|].
  destruct (q a) eqn:Eq; [|exact IH]. simpl.
  destruct (p a) eqn:Ep; [|exact IH].
  rewrite (H a Ep) in Eq. discriminate.
Qed.

(** Replacing the lock of a pair leaves that pair with the new row only. *)
Lemma insert_or_replace_alone (new : seat_lock) (db : database) :
  filter (lock_on (sl_event_id new) (sl_seat_id new))
    (seat_locks (insert_or_replace_lock new db)) = [new].
Proof.
  rewrite seat_locks_insert, filter_app.
  rewrite filter_filter_nil.
  - simpl. unfold lock_on. now rewrite !String.eqb_refl.
  - intros a Ha. unfold lock_on in Ha. unfold lock_clashes.
    rewrite Ha, orb_true_r. reflexivity.
Qed.

(** ** Who the lock route turns away *)

Lemma join_confirmed_clean (t : Z) (eventId : string) (db : database)
    (s : seat) :
  join_confirmed eventId (cleanExpiredLocks t db) s
  = join_confirmed eventId db s.
Proof. reflexivity. Qed.

(** A session's own lock, and no confirmed booking: nothing is reported. *)
Lemma own_lock_not_reported (t : Z) (eventId seatId sessionId : string)
    (l : seat_lock) (db : database) :
  locks_unique db ->
  In l (seat_locks db) -> lock_of eventId seatId sessionId l = true ->
  seat_in_booking ["confirmed"] eventId seatId db = false ->
  select_unavailable t eventId sessionId [seatId] (cleanExpiredLocks t db)
  = [].
Proof.
  intros Hu Hl Hof Hfree.
  destruct (select_unavailable _ _ _ _ _) as [|u U] eqn:E; [reflexivity|].
  exfalso.
  assert (Hin : In u (select_unavailable t eventId sessionId [seatId]
                        (cleanExpiredLocks t db)))
    by (rewrite E; now left).
  apply select_unavailable_In in Hin.
  destruct Hin as [s [bs [sl [Hs [Hid [Hbs [Hsl [C _]]]]]]]].
  destruct Hid as [Hid|[]].
  apply orb_true_iff in C. destruct C as [C|C].
  - destruct bs as [b|]; [|discriminate].
    rewrite join_confirmed_clean in Hbs.
    apply join_confirmed_some in Hbs. destruct Hbs as [Hb [Eb Cb]].
    assert (seat_in_booking ["confirmed"] eventId seatId db = true).
    { apply seat_in_confirmed. exists b. repeat split; congruence. }
    congruence.
  - destruct sl as [l'|]; [|discriminate].
    apply join_live_locks_some in Hsl. destruct Hsl as [Hl' [Hon _]].
    apply clean_subset in Hl'. rewrite <- Hid in Hon.
    apply lock_on_key in Hon.
    apply lock_of_true in Hof. destruct Hof as [E1 [E2 E3]].
    assert (l' = l).
    { apply (unique_key_same _ _ _ _ Hu Hl' Hl). rewrite Hon.
      now rewrite E1, E2. }
    subst l'. simpl in C. rewrite E3, String.eqb_refl in C. discriminate.
Qed.

(** Re-acquiring one's own seat succeeds and overwrites the lock. *)
Lemma refresh_own_lock (en : env) (eventId seatId sessionId : string)
    (l : seat_lock) (db : database) :
  locks_unique db -> sessionId <> "" ->
  In l (seat_locks db) -> lock_of eventId seatId sessionId l = true ->
  seat_in_booking ["confirmed"] eventId seatId db = false ->
  exists db',
    post_seats_lock en eventId
      (mk_lock_request (Some [seatId]) (Some sessionId)) db
    = (mk_response 200 (Locked (Clock.toISOString (lock_expiry en)) 1), db')
    /\ filter (lock_on eventId seatId) (seat_locks db')
       = [lock_row en eventId sessionId (Clock.toISOString (lock_expiry en))
            0 seatId].
Proof.
  intros Hu Hsid Hl Hof Hfree.
  rewrite post_seats_lock_cases by congruence. cbv zeta.
  rewrite (own_lock_not_reported (now en) eventId seatId sessionId l db)
    by assumption.
  eexists. split; [reflexivity|].
  cbn [insert_locks].
  apply (insert_or_replace_alone
           (lock_row en eventId sessionId
              (Clock.toISOString (lock_expiry en)) 0 seatId)).
Qed.

(** A live lock of another session on an existing seat: the request is
    refused, the seat is listed, the lock stays where it is. *)
Lemma other_session_blocked (en : env) (eventId seatId holder sessionId : string)
    (l : seat_lock) (x : Z) (seatIds : list string) (db : database) :
  locks_unique db -> sessionId <> "" -> sessionId <> holder ->
  In l (seat_locks db) -> lock_of eventId seatId holder l = true ->
  expires_at_instant l x ->
  0 <= now en -> now en < x -> x < Clock.max_time ->
  is_seat seatId db = true -> In seatId seatIds ->
  exists U,
    post_seats_lock en eventId
      (mk_lock_request (Some seatIds) (Some sessionId)) db
    = (mk_response 409 (Unavailable conflict_message U),
       cleanExpiredLocks (now en) db)
    /\ (exists u, In u U /\ u_id u = seatId
                  /\ (u_reason u = Some "booked"
                      \/ u_reason u = Some "locked"))
    /\ In l (seat_locks (cleanExpiredLocks (now en) db))
    /\ (forall l', In l' (seat_locks (cleanExpiredLocks (now en) db)) ->
                   lock_on eventId seatId l' = true -> l' = l).
Proof.
  intros Hu Hsid Hne Hl Hof Hx H0 Hlt Hmax Hseat Hin.
  destruct (unexpired_lock_is_live (now en) x l) as [Hlive Hnexp];
    try assumption; try lia.
  pose proof (clean_keeps (now en) db l Hl Hnexp) as Hl1.
  apply lock_of_true in Hof. destruct Hof as [E1 [E2 E3]].
  assert (Hon : lock_on eventId seatId l = true)
    by (apply lock_on_key; now rewrite E1, E2).
  apply is_seat_In in Hseat. destruct Hseat as [s [Hs Eid]].
  destruct (left_join_inhabited
              (filter (fun bs => String.eqb (s_id s) (bs_seat_id bs)
                         && sql_in (bs_booking_id bs)
                              (confirmed_booking_ids eventId db))
                 (booking_seats db))) as [bs Hbs].
  set (U := select_unavailable (now en) eventId sessionId seatIds
              (cleanExpiredLocks (now en) db)).
  set (u := mk_unavailable (s_id s) (s_row_label s) (s_seat_number s)
              (unavailable_reason sessionId bs (Some l))).
  assert (C : is_not_null bs || locked_by_other sessionId (Some l) = true).
  { simpl. rewrite E3. apply orb_true_iff. right.
    apply negb_true_iff. apply String.eqb_neq. congruence. }
  assert (HuU : In u U).
  { apply select_unavailable_In. exists s, bs, (Some l).
    repeat split; auto.
    - now rewrite Eid.
    - apply join_live_locks_some. rewrite Eid. auto. }
  exists U. split; [|split; [|split]].
  - rewrite post_seats_lock_cases;
      [| intros ->; destruct Hin | assumption].
    cbv zeta. fold U. destruct U; [destruct HuU | reflexivity].
  - exists u. split; [exact HuU|]. split; [exact Eid|].
    now apply unavailable_reason_some.
  - exact Hl1.
  - intros l' Hl' Hon'.
    apply (unique_key_same _ _ _ _ (clean_unique (now en) db Hu) Hl' Hl1).
    apply lock_on_key in Hon, Hon'. now rewrite Hon, Hon'.
Qed.

(** ** Claims on the lock route *)

(** C1, evaluated on the code.  Session X locks seat B1 of event E1 and
    books it; the booking is pending and has its [booking_seats] row for
    B1.  Two seconds later session Z asks for a lock on B1: the claim
    demands a 409, the route answers 200 and writes the lock for Z. *)
Theorem C1_pending_booking_seat_is_locked_again :
  let db :=
    run [ (demo_env 0 "x", demo_lock "E1" ["B1"] "X");
          (demo_env 1000 "b", CreateBooking (demo_booking "E1" ["B1"] "X")) ]
      demo_db in
  seat_in_booking ["pending"] "E1" "B1" db = true
  /\ seat_locks db = []
  /\ fst (handle (demo_env 2000 "z") (demo_lock "E1" ["B1"] "Z") db)
     = Some (mk_response 200 (Locked "2026-11-02T05:10:02.000Z" 1))
  /\ seat_locks
       (snd (handle (demo_env 2000 "z") (demo_lock "E1" ["B1"] "Z") db))
     = [ mk_seat_lock "z00" "E1" "B1" "Z" "2026-11-02 05:00:02"
           "2026-11-02T05:10:02.000Z" ].
Proof. vm_compute. repeat split; reflexivity. Qed.

(** C2, evaluated on the code.  Session X locks seat A1 at 05:00:00; the
    lock expires at 05:10:00.  At 05:20:00 the reaper runs: the row is
    still in [seat_locks].  Session Y then asks for A1, the route purges
    again and answers 409 with reason [locked].  The claim demands that
    the purge deletes the lock and that Y succeeds. *)
Theorem C2_expired_lock_survives_purge :
  let db :=
    run [ (demo_env 0 "x", demo_lock "E1" ["A1"] "X");
          (demo_env 1200000 "r", ReaperTick) ]
      demo_db in
  seat_locks db
  = [ mk_seat_lock "x00" "E1" "A1" "X" "2026-11-02 05:00:00"
        (Clock.toISOString (demo_t0 + 600000)) ]
  /\ demo_t0 + 600000 < now (demo_env 1200000 "y")
  /\ handle (demo_env 1200000 "y") (demo_lock "E1" ["A1"] "Y") db
     = (Some (mk_response 409
                (Unavailable conflict_message
                   [mk_unavailable "A1" "A" 1 (Some "locked")])),
        db).
Proof. vm_compute. repeat split; reflexivity. Qed.

(** C3.  In every database reached from one that satisfies
    [UNIQUE(event_id, seat_id)]: (1) a pair (event, seat) has at most one
    lock that the routes take for live, at any instant; (2) every handler
    and the reaper keep the constraint; (3) a session that holds the lock
    of a seat with no confirmed booking re-acquires it with a 200, and the
    pair then carries the newly written row alone; (4) a lock whose expiry
    instant lies ahead, on a seat of the [seats] table, makes every
    request of another session that includes the seat fail with 409, the
    seat listed as booked or locked, the lock left in place as the only
    row of the pair. *)
Theorem C3_one_lock_per_event_seat (steps : list (env * request))
    (db0 : database) (H0 : locks_unique db0) :
  let db := run steps db0 in
  (forall eventId seatId t,
      (List.length
         (filter (fun sl => lock_on eventId seatId sl && lock_live t sl)
            (seat_locks db)) <= 1)%nat)
  /\ (forall en rq, locks_unique (snd (handle en rq db)))
  /\ (forall en eventId seatId sessionId l,
        sessionId <> "" ->
        In l (seat_locks db) -> lock_of eventId seatId sessionId l = true ->
        seat_in_booking ["confirmed"] eventId seatId db = false ->
        exists db',
          post_seats_lock en eventId
            (mk_lock_request (Some [seatId]) (Some sessionId)) db
          = (mk_response 200
               (Locked (Clock.toISOString (lock_expiry en)) 1), db')
          /\ filter (lock_on eventId seatId) (seat_locks db')
             = [lock_row en eventId sessionId
                  (Clock.toISOString (lock_expiry en)) 0 seatId])
  /\ (forall en eventId seatId holder sessionId l x seatIds,
        sessionId <> "" -> sessionId <> holder ->
        In l (seat_locks db) -> lock_of eventId seatId holder l = true ->
        expires_at_instant l x ->
        0 <= now en -> now en < x -> x < Clock.max_time ->
        is_seat seatId db = true -> In seatId seatIds ->
        exists U,
          post_seats_lock en eventId
            (mk_lock_request (Some seatIds) (Some sessionId)) db
          = (mk_response 409 (Unavailable conflict_message U),
             cleanExpiredLocks (now en) db)
          /\ (exists u, In u U /\ u_id u = seatId
                        /\ (u_reason u = Some "booked"
                            \/ u_reason u = Some "locked"))
          /\ In l (seat_locks (cleanExpiredLocks (now en) db))
          /\ (forall l',
                In l' (seat_locks (cleanExpiredLocks (now en) db)) ->
                lock_on eventId seatId l' = true -> l' = l)).
Proof.
  intros db. pose proof (run_unique steps db0 H0) as Hu. fold db in Hu.
  split; [|split; [|split]].
  - intros eventId seatId t.
    apply (unique_key_filter (fun sl => (sl_event_id sl, sl_seat_id sl)) _ _
             (eventId, seatId) Hu).
    intros a Ha. apply andb_true_iff in Ha. now apply lock_on_key.
  - intros en rq. now apply handle_unique.
  - intros. now apply (refresh_own_lock en eventId seatId sessionId l).
  - intros. now apply (other_session_blocked en eventId seatId holder
                         sessionId l x).
Qed.

Lemma C3_witness :
  locks_unique demo_db
  /\ forall en rq,
       locks_unique
         (snd (handle en rq
                 (run [(demo_env 0 "x", demo_lock "E1" ["A1"; "A2"] "X")]
                    demo_db))).
Proof.
  assert (H : locks_unique demo_db) by constructor.
  split; [exact H|].
  exact (proj1 (proj2
    (C3_one_lock_per_event_seat
       [(demo_env 0 "x", demo_lock "E1" ["A1"; "A2"] "X")] demo_db H))).
Defined.

(** C4.  When the lock route answers 409 the database is the one the
    purge at the start of the route left: no lock row is new or changed,
    every row the purge does not delete is still there, and so is every
    lock whose expiry instant lies ahead. *)
Theorem C4_refused_acquire_grants_nothing (en : env) (eventId : string)
    (req : lock_request) (db : database) (r : response) (db' : database)
    (Hrun : post_seats_lock en eventId req db = (r, db'))
    (H409 : status r = 409) :
  db' = cleanExpiredLocks (now en) db
  /\ (forall l, In l (seat_locks db') -> In l (seat_locks db))
  /\ (forall l, In l (seat_locks db) -> lock_expired (now en) l = false ->
                In l (seat_locks db'))
  /\ (forall l x, In l (seat_locks db) -> expires_at_instant l x ->
                  0 <= now en -> now en < x -> x < Clock.max_time ->
                  In l (seat_locks db')).
Proof.
  pose proof (post_seats_lock_409 en eventId req db r db' Hrun H409) as E.
  subst db'. split; [reflexivity|]. split; [|split].
  - intros l. apply clean_subset.
  - intros l. apply clean_keeps.
  - intros l x Hl Hx H0 Hlt Hmax. apply clean_keeps; [exact Hl|].
    apply (unexpired_lock_is_live (now en) x l); try assumption; lia.
Qed.

Lemma C4_witness :
  status (fst (post_seats_lock (demo_env 2000 "y") "E1"
                 (mk_lock_request (Some ["A1"; "C1"]) (Some "Y"))
                 demo_db_two_locks)) = 409
  /\ snd (post_seats_lock (demo_env 2000 "y") "E1"
            (mk_lock_request (Some ["A1"; "C1"]) (Some "Y"))
            demo_db_two_locks)
     = cleanExpiredLocks (now (demo_env 2000 "y")) demo_db_two_locks.
Proof.
  assert (H409 : status (fst (post_seats_lock (demo_env 2000 "y") "E1"
                           (mk_lock_request (Some ["A1"; "C1"]) (Some "Y"))
                           demo_db_two_locks)) = 409)
    by (vm_compute; reflexivity).
  split; [exact H409|].
  exact (proj1
    (C4_refused_acquire_grants_nothing _ _ _ _ _ _
       (surjective_pairing _) H409)).
Defined.

(** ** Seat ids that name no seat *)

(** The list of a 409 is the result of the [unavailable] query. *)
Lemma post_seats_lock_unavailable (en : env) (eventId : string)
    (req : lock_request) (db : database) (st : Z) (msg : string)
    (U : list unavailable_seat) (db' : database) :
  post_seats_lock en eventId req db
  = (mk_response st (Unavailable msg U), db') ->
  exists seatIds sessionId,
    lr_seatIds req = Some seatIds /\ lr_sessionId req = Some sessionId
    /\ U = select_unavailable (now en) eventId sessionId seatIds
             (cleanExpiredLocks (now en) db).
Proof.
  unfold post_seats_lock.
  destruct (lr_seatIds req) as [[|s ids]|]; try discriminate.
  destruct (lr_sessionId req) as [sid|]; try discriminate.
  destruct (String.eqb sid ""); try discriminate.
  destruct (select_unavailable _ _ _ _ _) eqn:E; try discriminate.
  intros H. inversion H; subst. exists (s :: ids), sid. now rewrite E.
Qed.

(** A 200 of the lock route comes with the loop's database. *)
Lemma post_seats_lock_granted (en : env) (eventId : string)
    (req : lock_request) (db : database) (X : string) (n : nat)
    (db' : database) :
  post_seats_lock en eventId req db = (mk_response 200 (Locked X n), db') ->
  exists seatIds sessionId,
    lr_seatIds req = Some seatIds /\ lr_sessionId req = Some sessionId
    /\ X = Clock.toISOString (lock_expiry en)
    /\ n = List.length seatIds
    /\ db' = insert_locks en eventId sessionId X 0 seatIds
               (delete_session_locks eventId (Some sessionId)
                  (cleanExpiredLocks (now en) db)).
Proof.
  unfold post_seats_lock.
  destruct (lr_seatIds req) as [[|s ids]|]; try discriminate.
  destruct (lr_sessionId req) as [sid|]; try discriminate.
  destruct (String.eqb sid ""); try discriminate.
  destruct (select_unavailable _ _ _ _ _) eqn:E; try discriminate.
  intros H. inversion H; subst. exists (s :: ids), sid. auto.
Qed.

Lemma flat_map_ext_in {A B : Type} (f g : A -> list B) (l : list A) :
  (forall a, In a l -> f a = g a) -> flat_map f l = flat_map g l.
Proof.
  induction l as [|a l IH]; simpl; intros H; [reflexivity|].
  rewrite (H a) by now left. rewrite IH; [reflexivity|].
  intros; apply H; now right.
Qed.

(** An id outside the [seats] table has no say in the [unavailable]
    query. *)
Lemma select_unavailable_skip (t : Z) (eventId sessionId g : string)
    (seatIds : list string) (db : database) :
  is_seat g db = false ->
  select_unavailable t eventId sessionId (g :: seatIds) db
  = select_unavailable t eventId sessionId seatIds db.
Proof.
  intros Hg. unfold select_unavailable.
  apply flat_map_ext_in. intros s Hs.
  assert (E : String.eqb (s_id s) g = false).
  { destruct (String.eqb (s_id s) g) eqn:E; [|reflexivity].
    rewrite <- Hg. symmetry. apply existsb_exists. eauto. }
  cbn [sql_in existsb]. fold (sql_in (s_id s) seatIds). now rewrite E.
Qed.

(** C10.  For an id [g] that names no row of [seats]: no 409 of the lock
    route ever lists [g]; the [unavailable] query gives the same rows with
    or without [g] among the requested ids; and when the route answers 200
    to a request that includes [g], the ids drawn for it being pairwise
    different, [seat_locks] holds a row for [g] with the session and the
    expiry of the request, as for any seat. *)
Theorem C10_unknown_seat_id_is_locked (en : env) (eventId g : string)
    (req : lock_request) (db : database) (Hg : is_seat g db = false) :
  (forall st msg U db',
      post_seats_lock en eventId req db
      = (mk_response st (Unavailable msg U), db') ->
      forall u, In u U -> u_id u <> g)
  /\ (forall t sessionId seatIds,
        select_unavailable t eventId sessionId (g :: seatIds) db
        = select_unavailable t eventId sessionId seatIds db)
  /\ (forall seatIds sessionId X n db',
        lr_seatIds req = Some seatIds -> lr_sessionId req = Some sessionId ->
        In g seatIds -> fresh_ids en (List.length seatIds) ->
        post_seats_lock en eventId req db
        = (mk_response 200 (Locked X n), db') ->
        exists k, (k < List.length seatIds)%nat
                  /\ In (lock_row en eventId sessionId
                           (Clock.toISOString (lock_expiry en)) k g)
                       (seat_locks db')).
Proof.
  split; [|split].
  - intros st msg U db' Hrun u Hu Eg.
    apply post_seats_lock_unavailable in Hrun.
    destruct Hrun as [ids [sid [_ [_ ->]]]].
    apply select_unavailable_In in Hu.
    destruct Hu as [s [bs [sl [Hs [_ [_ [_ [_ ->]]]]]]]]. simpl in Eg.
    assert (is_seat g db = true)
      by (apply is_seat_In; exists s; split; [exact Hs | exact Eg]).
    congruence.
  - intros. now apply select_unavailable_skip.
  - intros ids sid X n db' Eids Esid Hin Hfresh Hrun.
    apply post_seats_lock_granted in Hrun.
    destruct Hrun as [ids' [sid' [Eids' [Esid' [-> [_ ->]]]]]].
    assert (ids' = ids) by congruence. assert (sid' = sid) by congruence.
    subst ids' sid'.
    apply (insert_locks_all en eventId sid _ (List.length ids) Hfresh g ids 0);
      [lia | exact Hin].
Qed.

Lemma C10_witness :
  exists k, (k < 2)%nat
            /\ In (lock_row (demo_env 0 "x") "E1" "X"
                     (Clock.toISOString (lock_expiry (demo_env 0 "x"))) k
                     "no-such-seat")
                 (seat_locks
                    (snd (post_seats_lock (demo_env 0 "x") "E1"
                            (mk_lock_request (Some ["A1"; "no-such-seat"])
                               (Some "X")) demo_db))).
Proof.
  assert (Hg : is_seat "no-such-seat" demo_db = false) by reflexivity.
  assert (Hfresh : fresh_ids (demo_env 0 "x") 2).
  { unfold fresh_ids. vm_compute.
    repeat constructor; simpl; intuition discriminate. }
  assert (Hrun : post_seats_lock (demo_env 0 "x") "E1"
                   (mk_lock_request (Some ["A1"; "no-such-seat"]) (Some "X"))
                   demo_db
                 = (mk_response 200 (Locked "2026-11-02T05:10:00.000Z" 2),
                    snd (post_seats_lock (demo_env 0 "x") "E1"
                           (mk_lock_request (Some ["A1"; "no-such-seat"])
                              (Some "X")) demo_db)))
    by (vm_compute; reflexivity).
  exact (proj2 (proj2
    (C10_unknown_seat_id_is_locked (demo_env 0 "x") "E1" "no-such-seat"
       (mk_lock_request (Some ["A1"; "no-such-seat"]) (Some "X")) demo_db Hg))
    ["A1"; "no-such-seat"] "X" _ _ _ eq_refl eq_refl
    (or_intror (or_introl eq_refl)) Hfresh Hrun).
Defined.

(** C5, evaluated on the code.  Session X locks seat A1 at 05:00:00; the
    lock expires at 05:10:00.  The seat map asked for at 05:20:00 purges
    first and still shows A1 as [locked], with X as [locked_by]: the claim
    demands [available], as no lock on A1 is live any more. *)
Theorem C5_expired_lock_shown_as_locked :
  let db := run [(demo_env 0 "x", demo_lock "E1" ["A1"] "X")] demo_db in
  let r := fst (get_seats (demo_env 1200000 "g") "E1" db) in
  (forall l, In l (seat_locks db) ->
             expires_at_instant l (demo_t0 + 600000))
  /\ demo_t0 + 600000 < now (demo_env 1200000 "g")
  /\ status r = 200
  /\ filter (fun v => String.eqb (s_id (v_seat v)) "A1") (seat_map_rows r)
     = [ mk_seat_view (mk_seat "A1" "V1" "A" 1 "vip") "locked" (Some "X")
           (Some "2026-11-02T05:10:00.000Z") ].
Proof.
  vm_compute. repeat split; try reflexivity.
  intros l [<-|[]]. reflexivity.
Qed.

(** ** The booking route, case by case *)

Lemma truthy_string_some (s : string) :
  s <> "" -> truthy_string (Some s) = true.
Proof. intros H. simpl. apply negb_true_iff. now apply String.eqb_neq. Qed.

Lemma post_bookings_cases (en : env) (eventId : string)
    (seatIds : list string) (sessionId userEmail userName : string)
    (userPhone : option string) (db : database) :
  eventId <> "" -> sessionId <> "" -> userEmail <> "" -> userName <> "" ->
  post_bookings en
    (mk_booking_request (Some eventId) (SeatIds seatIds) (Some sessionId)
       (Some userEmail) (Some userName) userPhone) db
  = if negb (Nat.eqb
               (List.length
                  (select_session_locks (now en) eventId sessionId seatIds db))
               (List.length seatIds))
    then (mk_response 409 (Error lock_expired_message), db)
    else
      match select_event eventId db with
      | None => (mk_response 404 (Error "Event not found"), db)
      | Some ev =>
          let rows := select_seats seatIds db in
          (mk_response 200
             (BookingCreated (uuidv4 en 0) (total_amount ev rows)
                (List.length rows)),
           delete_session_locks eventId (Some sessionId)
             (insert_booking_seats en (uuidv4 en 0) ev 1 rows
                (insert_booking
                   (mk_booking (uuidv4 en 0) eventId userEmail userName
                      (phone_or_null userPhone) (total_amount ev rows)
                      "pending" None) db)))
      end.
Proof.
  intros H1 H2 H3 H4. unfold post_bookings.
  cbn [br_eventId br_seatIds br_sessionId br_userEmail br_userName
       br_userPhone].
  rewrite !truthy_string_some by assumption. reflexivity.
Qed.

(** What a 200 of the booking route tells about the run. *)
Lemma post_bookings_created (en : env) (req : booking_request)
    (db : database) (bookingId : string) (total : float) (n : nat)
    (db' : database) :
  post_bookings en req db
  = (mk_response 200 (BookingCreated bookingId total n), db') ->
  exists eventId seatIds sessionId userEmail userName ev,
    br_eventId req = Some eventId /\ br_seatIds req = SeatIds seatIds
    /\ br_sessionId req = Some sessionId
    /\ br_userEmail req = Some userEmail /\ br_userName req = Some userName
    /\ List.length (select_session_locks (now en) eventId sessionId seatIds db)
       = List.length seatIds
    /\ select_event eventId db = Some ev
    /\ bookingId = uuidv4 en 0
    /\ total = total_amount ev (select_seats seatIds db)
    /\ n = List.length (select_seats seatIds db)
    /\ db' = delete_session_locks eventId (Some sessionId)
               (insert_booking_seats en bookingId ev 1
                  (select_seats seatIds db)
                  (insert_booking
                     (mk_booking bookingId eventId userEmail userName
                        (phone_or_null (br_userPhone req)) total
                        "pending" None) db)).
Proof.
  unfold post_bookings.
  destruct (br_eventId req) as [e|]; try discriminate.
  destruct (br_seatIds req) as [| |ids]; try discriminate;
    destruct (br_sessionId req) as [sid|]; try discriminate;
    destruct (br_userEmail req) as [em|]; try discriminate;
    destruct (br_userName req) as [nm|]; try discriminate;
    destruct (_ || _); try discriminate.
  destruct (Nat.eqb _ _) eqn:El; try discriminate. cbn [negb].
  destruct (select_event e db) as [ev|] eqn:Ev; try discriminate.
  intros H. inversion H; subst.
  apply Nat.eqb_eq in El.
  exists e, ids, sid, em, nm, ev. repeat split; auto.
Qed.

(** An answer of the booking route other than 200 changes nothing. *)
Lemma post_bookings_not_200 (en : env) (req : booking_request)
    (db : database) :
  status (fst (post_bookings en req db)) <> 200 ->
  snd (post_bookings en req db) = db.
Proof.
  unfold post_bookings.
  destruct (br_eventId req) as [e|]; try reflexivity.
  destruct (br_seatIds req) as [| |ids]; try reflexivity;
    destruct (br_sessionId req) as [sid|]; try reflexivity;
    destruct (br_userEmail req) as [em|]; try reflexivity;
    destruct (br_userName req) as [nm|]; try reflexivity;
    destruct (_ || _); try reflexivity.
  destruct (negb _); try reflexivity.
  destruct (select_event e db) as [ev|]; try reflexivity.
  simpl. congruence.
Qed.

(** ** The seat rows of a booking *)

Lemma text_lt_asym (a b : string) : text_lt a b = true -> text_lt b a = false.
Proof.
  unfold text_lt, String.ltb. rewrite (String.compare_antisym b a).
  destruct (String.compare a b); simpl; congruence.
Qed.

Lemma insert_by_id_perm (x : seat) (l : list seat) :
  Permutation (insert_by_id x l) (x :: l).
Proof.
  induction l as [|y l IH]; cbn [insert_by_id]; [apply Permutation_refl|].
  destruct (text_lt (s_id y) (s_id x)); [|apply Permutation_refl].
  eapply perm_trans; [apply perm_skip, IH | apply perm_swap].
Qed.

Lemma order_by_id_perm (l : list seat) : Permutation (order_by_id l) l.
Proof.
  unfold order_by_id. induction l as [|x l IH]; cbn [fold_right].
  - apply Permutation_refl.
  - eapply perm_trans; [apply insert_by_id_perm | now apply perm_skip].
Qed.

Lemma insert_by_id_head (x y : seat) (l : list seat) :
  text_lt (s_id y) (s_id x) = true ->
  HdRel (fun a b => text_lt (s_id b) (s_id a) = false) y l ->
  HdRel (fun a b => text_lt (s_id b) (s_id a) = false) y (insert_by_id x l).
Proof.
  intros Hyx Hl. destruct l as [|z l]; cbn [insert_by_id].
  - constructor. now apply text_lt_asym.
  - destruct (text_lt (s_id z) (s_id x)); constructor.
    + now inversion Hl.
    + now apply text_lt_asym.
Qed.

Lemma insert_by_id_sorted (x : seat) (l : list seat) :
  Sorted (fun a b => text_lt (s_id b) (s_id a) = false) l ->
  Sorted (fun a b => text_lt (s_id b) (s_id a) = false) (insert_by_id x l).
Proof.
  induction l as [|y l IH]; cbn [insert_by_id]; intros H.
  - repeat constructor.
  - destruct (text_lt (s_id y) (s_id x)) eqn:E.
    + apply Sorted_inv in H. destruct H as [Hs Hh].
      constructor; [now apply IH | now apply insert_by_id_head].
    + constructor; [exact H | now constructor].
Qed.

(** The rows the booking route prices are in ascending order of id. *)
Lemma select_seats_sorted (seatIds : list string) (db : database) :
  Sorted (fun a b => text_lt (s_id b) (s_id a) = false)
    (select_seats seatIds db).
Proof.
  unfold select_seats, order_by_id.
  induction (filter _ (seats db)) as [|x l IH]; cbn [fold_right];
    [constructor | now apply insert_by_id_sorted].
Qed.

(** They are the rows of [seats] whose id is requested, each once per
    row of the table. *)
Lemma select_seats_perm (seatIds : list string) (db : database) :
  Permutation (select_seats seatIds db)
    (filter (fun s => sql_in (s_id s) seatIds) (seats db)).
Proof. apply order_by_id_perm. Qed.

Lemma select_seats_In (seatIds : list string) (db : database) (s : seat) :
  In s (select_seats seatIds db) <-> In s (seats db) /\ In (s_id s) seatIds.
Proof.
  rewrite <- sql_in_In.
  rewrite <- (filter_In (fun x => sql_in (s_id x) seatIds)).
  split; apply Permutation_in.
  - apply select_seats_perm.
  - apply Permutation_sym, select_seats_perm.
Qed.

Lemma select_seats_frame (seatIds : list string) (db db' : database) :
  seats db' = seats db -> select_seats seatIds db' = select_seats seatIds db.
Proof. unfold select_seats. now intros ->. Qed.

(** ** Prices *)

Lemma total_amount_fold (ev : event) (rows : list seat) :
  total_amount ev rows
  = fold_left PrimFloat.add (map (seat_price ev) rows) 0%float.
Proof.
  unfold total_amount. generalize 0%float.
  induction rows as [|s rows IH]; simpl; intros acc; [reflexivity|].
  apply IH.
Qed.

(** The price of one seat, tier by tier: the tier price of the event when
    JavaScript takes it for true, the multiple of the base price when the
    tier price is NULL, zero or NaN. *)
Lemma seat_price_by_tier (ev : event) (s : seat) :
  seat_price ev s
  = if String.eqb (s_tier s) "vip" then
      match e_vip_price ev with
      | Some v =>
          if PrimFloat.eqb v 0%float || is_nan v
          then (e_base_price ev * 2)%float else v
      | None => (e_base_price ev * 2)%float
      end
    else if String.eqb (s_tier s) "premium" then
      match e_premium_price ev with
      | Some v =>
          if PrimFloat.eqb v 0%float || is_nan v
          then (e_base_price ev * 1.5)%float else v
      | None => (e_base_price ev * 1.5)%float
      end
    else e_base_price ev.
Proof.
  unfold seat_price, js_or, truthy_number.
  destruct (String.eqb (s_tier s) "vip") eqn:Ev.
  - apply String.eqb_eq in Ev. rewrite Ev. simpl.
    destruct (e_vip_price ev) as [v|]; [|reflexivity].
    destruct (PrimFloat.eqb v 0); destruct (is_nan v); reflexivity.
  - destruct (String.eqb (s_tier s) "premium"); [|reflexivity].
    destruct (e_premium_price ev) as [v|]; [|reflexivity].
    destruct (PrimFloat.eqb v 0); destruct (is_nan v); reflexivity.
Qed.

(** ** Rows written by the booking loop *)

Lemma booking_seats_insert_one (new : booking_seat) (db : database) :
  booking_seats (insert_booking_seat new db) = booking_seats db
  \/ booking_seats (insert_booking_seat new db)
     = (booking_seats db ++ [new])%list.
Proof.
  unfold insert_booking_seat. destruct (_ || _); [now left | now right].
Qed.

Lemma insert_booking_seats_origin (en : env) (bookingId : string)
    (ev : event) (rows : list seat) :
  forall (i : nat) (db : database) (bs : booking_seat),
  In bs (booking_seats (insert_booking_seats en bookingId ev i rows db)) ->
  In bs (booking_seats db)
  \/ exists k s, In s rows /\ bs = booking_seat_row en bookingId ev k s.
Proof.
  induction rows as [|s rows IH]; simpl; intros i db bs H; [now left|].
  apply IH in H. destruct H as [H|[k [s' [Hs' E]]]].
  - destruct (booking_seats_insert_one
                (mk_booking_seat (uuidv4 en i) bookingId (s_id s)
                   (seat_price ev s)) db) as [E|E]; rewrite E in H.
    + now left.
    + apply in_app_or in H. destruct H as [H|[<-|[]]]; [now left|].
      right. exists i, s. split; [now left | reflexivity].
  - right. exists k, s'. split; [now right | exact E].
Qed.

Lemma insert_booking_seats_all (en : env) (bookingId : string) (ev : event)
    (n : nat) (rows : list seat) :
  fresh_ids en n ->
  (forall s, In s rows -> is_nan (seat_price ev s) = false) ->
  forall (i : nat) (db : database),
  (i + List.length rows <= n)%nat ->
  (forall k, (i <= k < i + List.length rows)%nat ->
             ~ In (uuidv4 en k) (map bs_id (booking_seats db))) ->
  booking_seats (insert_booking_seats en bookingId ev i rows db)
  = (booking_seats db ++ booking_seat_rows en bookingId ev i rows)%list.
Proof.
  intros Hfresh. induction rows as [|s rows IH]; intros Hnan i db Hn Hnew.
  - simpl. unfold booking_seat_rows. simpl. now rewrite app_nil_r.
  - cbn [insert_booking_seats List.length] in *.
    assert (E : insert_booking_seat
                  (mk_booking_seat (uuidv4 en i) bookingId (s_id s)
                     (seat_price ev s)) db
                = set_booking_seats db
                    (booking_seats db
                     ++ [booking_seat_row en bookingId ev i s])%list).
    { unfold insert_booking_seat. cbn [bs_id bs_price].
      rewrite (Hnan s) by now left. rewrite orb_false_r.
      destruct (existsb _ _) eqn:Ex; [|reflexivity].
      exfalso. apply existsb_exists in Ex. destruct Ex as [b [Hb Eb]].
      apply String.eqb_eq in Eb. apply (Hnew i); [lia|].
      rewrite <- Eb. now apply in_map. }
    rewrite E. rewrite IH.
    + cbn [booking_seats set_booking_seats]. rewrite <- app_assoc.
      reflexivity.
    + intros s' Hs'. apply Hnan. now right.
    + lia.
    + intros k Hk. cbn [booking_seats set_booking_seats].
      rewrite map_app, in_app_iff. intros [H|[H|[]]].
      * apply (Hnew k); [lia | exact H].
      * cbn in H. apply (fresh_ids_inj en n i k Hfresh) in H; lia.
Qed.

Lemma delete_session_locks_frame (eventId : string)
    (sessionId : option string) (db : database) :
  let db' := delete_session_locks eventId sessionId db in
  seats db' = seats db /\ events db' = events db
  /\ bookings db' = bookings db /\ booking_seats db' = booking_seats db
  /\ payments db' = payments db.
Proof. destruct sessionId; simpl; tauto. Qed.

Lemma insert_booking_booking_seats (new : booking) (db : database) :
  booking_seats (insert_booking new db) = booking_seats db.
Proof. unfold insert_booking. now destruct (_ || _). Qed.

(** ** The lock gate of the booking route *)

Section Gate.
Variables (t : Z) (eventId sessionId : string) (seatIds : list string)
          (db : database).
Hypothesis Hu : locks_unique db.

Lemma gate_true (sl : seat_lock) :
  session_lock_test t eventId sessionId seatIds sl = true <->
  sl_event_id sl = eventId /\ sl_session_id sl = sessionId
  /\ In (sl_seat_id sl) seatIds /\ lock_live t sl = true.
Proof.
  unfold session_lock_test. rewrite !andb_true_iff, !String.eqb_eq, sql_in_In. tauto.
Qed.

Lemma session_locks_In (s : string) :
  In s (select_session_locks t eventId sessionId seatIds db) <->
  In s seatIds
  /\ exists sl, In sl (seat_locks db)
                /\ lock_of eventId s sessionId sl = true
                /\ lock_live t sl = true.
Proof.
  unfold select_session_locks. rewrite in_map_iff. split.
  - intros [sl [E H]]. apply filter_In in H. destruct H as [H G].
    apply gate_true in G. destruct G as [G1 [G2 [G3 G4]]]. subst s.
    split; [exact G3|]. exists sl. repeat split; auto.
    apply lock_of_true. auto.
  - intros [Hin [sl [H [Hof Hl]]]]. apply lock_of_true in Hof.
    destruct Hof as [E1 [E2 E3]]. exists sl. split; [exact E2|].
    apply filter_In. split; [exact H|]. apply gate_true.
    rewrite E2. auto.
Qed.

Lemma session_locks_NoDup :
  NoDup (select_session_locks t eventId sessionId seatIds db).
Proof.
  unfold select_session_locks.
  apply (NoDup_map_inv (fun s => (eventId, s))).
  rewrite map_map.
  rewrite (map_ext_in _ (fun sl => (sl_event_id sl, sl_seat_id sl))).
  - apply unique_keys_filter. exact Hu.
  - intros sl H. apply filter_In in H. destruct H as [_ G].
    apply gate_true in G. destruct G as [-> _]. reflexivity.
Qed.

Lemma session_locks_incl :
  (forall s, In s seatIds ->
             exists sl, In sl (seat_locks db)
                        /\ lock_of eventId s sessionId sl = true
                        /\ lock_live t sl = true) <->
  incl seatIds (select_session_locks t eventId sessionId seatIds db).
Proof.
  unfold incl. split; intros H s Hs.
  - apply session_locks_In. split; [exact Hs | now apply H].
  - apply H in Hs. apply session_locks_In in Hs. tauto.
Qed.

(** The count comparison of the route: it holds exactly when no seat is
    requested twice and every requested seat has a lock row of the
    session that passes the route's expiry test. *)
Lemma gate_iff :
  List.length (select_session_locks t eventId sessionId seatIds db)
  = List.length seatIds
  <-> NoDup seatIds
      /\ forall s, In s seatIds ->
                   exists sl, In sl (seat_locks db)
                              /\ lock_of eventId s sessionId sl = true
                              /\ lock_live t sl = true.
Proof.
  rewrite session_locks_incl.
  set (L := select_session_locks t eventId sessionId seatIds db).
  assert (HL : NoDup L) by apply session_locks_NoDup.
  assert (Hin : incl L seatIds).
  { intros s Hs. apply session_locks_In in Hs. tauto. }
  split.
  - intros E. split.
    + apply NoDup_incl_NoDup with (l := L); [exact HL | lia | exact Hin].
    + apply NoDup_length_incl; [exact HL | lia | exact Hin].
  - intros [Hnd Hincl].
    pose proof (NoDup_incl_length HL Hin).
    pose proof (NoDup_incl_length Hnd Hincl). lia.
Qed.

(** A lock that is live in the words of the specification passes the
    route's test. *)
Lemma live_lock_passes (sl : seat_lock) :
  0 <= t -> live_lock t sl -> lock_live t sl = true.
Proof.
  intros H0 [x [Hx Hlt]].
  destruct (unexpired_lock_is_live t x sl) as [E _];
    try assumption; try lia; exact E.
Qed.

(** Seats that are held pass the route's test. *)
Lemma held_passes :
  0 <= t -> isHeld t eventId seatIds sessionId db ->
  forall s, In s seatIds ->
            exists sl, In sl (seat_locks db)
                       /\ lock_of eventId s sessionId sl = true
                       /\ lock_live t sl = true.
Proof.
  intros H0 Hheld s Hs. destruct (Hheld s Hs) as [sl [Hl [Hof Hlive]]].
  exists sl. split; [exact Hl|]. split; [exact Hof|].
  now apply live_lock_passes.
Qed.
End Gate.

Lemma insert_booking_seat_bookings (new : booking_seat) (db : database) :
  bookings (insert_booking_seat new db) = bookings db.
Proof. unfold insert_booking_seat. now destruct (_ || _). Qed.

Lemma insert_booking_seats_bookings (en : env) (bookingId : string)
    (ev : event) (rows : list seat) :
  forall (i : nat) (db : database),
  bookings (insert_booking_seats en bookingId ev i rows db) = bookings db.
Proof.
  induction rows as [|s rows IH]; simpl; intros i db; [reflexivity|].
  rewrite IH. apply insert_booking_seat_bookings.
Qed.

Lemma insert_booking_new (new : booking) (db : database) :
  ~ In (b_id new) (map b_id (bookings db)) ->
  is_nan (b_total_amount new) = false ->
  bookings (insert_booking new db) = (bookings db ++ [new])%list.
Proof.
  intros Hid Hnan. unfold insert_booking. rewrite Hnan, orb_false_r.
  destruct (existsb _ _) eqn:Ex; [|reflexivity].
  exfalso. apply existsb_exists in Ex. destruct Ex as [b [Hb Eb]].
  apply String.eqb_eq in Eb. apply Hid. rewrite <- Eb. now apply in_map.
Qed.

(** ** Claims on the booking route *)

(** C6, counter-example.  Event E2 has [vip_price] set to 0; for the VIP
    seat A1 the claim resolves the price 0, the code charges twice the
    base price, in [seat_price] as in the total of the booking. *)
Lemma C6_zero_tier_price_counterexample :
  let ev :=
    mk_event "E2" "V1" "Open Rehearsal" 75 (Some 0%float) (Some 125%float)
      "active" in
  let s := mk_seat "A1" "V1" "A" 1 "vip" in
  select_event "E2" demo_db = Some ev /\ In s (seats demo_db)
  /\ spec_seat_price ev s = 0%float
  /\ seat_price ev s = 150%float
  /\ seat_price ev s <> spec_seat_price ev s
  /\ fst (post_bookings (demo_env 1000 "b") (demo_booking "E2" ["A1"] "X")
            (run [(demo_env 0 "x", demo_lock "E2" ["A1"] "X")] demo_db))
     = mk_response 200 (BookingCreated "b00" 150 1).
Proof.
  vm_compute. repeat split; try reflexivity; try tauto.
  intros H. apply (f_equal (fun v => PrimFloat.eqb v 0%float)) in H.
  vm_compute in H. discriminate.
Qed.

(** C6, amended.  When the booking route answers 200: the price of a seat
    is the event's tier price when that price is set and neither zero nor
    NaN, otherwise twice the base price for a VIP seat and one and a half
    times for a premium seat, and the base price for any other tier; the
    rows priced are the [seats] rows whose id the request names, in
    ascending order of id, whatever the order of the request and of the
    table; the total returned is the sum of their prices, added in that
    order from 0; every [booking_seats] row that is new belongs to the
    booking and carries the id and the price of one of these seats; and
    when the ids drawn are new and no price is NaN, exactly one such row
    per seat is appended, in that order. *)
Theorem C6_prices_charged (en : env) (req : booking_request) (db : database)
    (bookingId : string) (total : float) (n : nat) (db' : database)
    (Hrun : post_bookings en req db
            = (mk_response 200 (BookingCreated bookingId total n), db')) :
  exists eventId seatIds ev,
    br_eventId req = Some eventId /\ br_seatIds req = SeatIds seatIds
    /\ select_event eventId db = Some ev
    /\ Permutation (select_seats seatIds db)
         (filter (fun s => sql_in (s_id s) seatIds) (seats db))
    /\ Sorted (fun a b => text_lt (s_id b) (s_id a) = false)
         (select_seats seatIds db)
    /\ (forall s,
          seat_price ev s
          = if String.eqb (s_tier s) "vip" then
              match e_vip_price ev with
              | Some v =>
                  if PrimFloat.eqb v 0%float || is_nan v
                  then (e_base_price ev * 2)%float else v
              | None => (e_base_price ev * 2)%float
              end
            else if String.eqb (s_tier s) "premium" then
              match e_premium_price ev with
              | Some v =>
                  if PrimFloat.eqb v 0%float || is_nan v
                  then (e_base_price ev * 1.5)%float else v
              | None => (e_base_price ev * 1.5)%float
              end
            else e_base_price ev)
    /\ total
       = fold_left PrimFloat.add
           (map (seat_price ev) (select_seats seatIds db)) 0%float
    /\ n = List.length (select_seats seatIds db)
    /\ (forall bs,
          In bs (booking_seats db') ->
          In bs (booking_seats db)
          \/ exists k s, In s (select_seats seatIds db)
                         /\ bs = booking_seat_row en bookingId ev k s)
    /\ (fresh_ids en (S (List.length (select_seats seatIds db))) ->
        (forall s, In s (select_seats seatIds db) ->
                   is_nan (seat_price ev s) = false) ->
        (forall k, (1 <= k <= List.length (select_seats seatIds db))%nat ->
                   ~ In (uuidv4 en k) (map bs_id (booking_seats db))) ->
        booking_seats db'
        = (booking_seats db
           ++ booking_seat_rows en bookingId ev 1
                (select_seats seatIds db))%list).
Proof.
  apply post_bookings_created in Hrun.
  destruct Hrun as [e [ids [sid [em [nm [ev
    [E1 [E2 [E3 [E4 [E5 [Hlen [Hev [Hid [Htot [Hn Hdb]]]]]]]]]]]]]]]].
  exists e, ids, ev.
  split; [exact E1|]. split; [exact E2|]. split; [exact Hev|].
  split; [apply select_seats_perm|]. split; [apply select_seats_sorted|].
  repeat split; auto.
  - intros s. apply seat_price_by_tier.
  - rewrite Htot. apply total_amount_fold.
  - intros bs Hbs. rewrite Hdb in Hbs.
    destruct (delete_session_locks_frame e (Some sid)
                (insert_booking_seats en bookingId ev 1 (select_seats ids db)
                   (insert_booking
                      (mk_booking bookingId e em nm
                         (phone_or_null (br_userPhone req)) total "pending"
                         None) db))) as [_ [_ [_ [F _]]]].
    rewrite F in Hbs. apply insert_booking_seats_origin in Hbs.
    rewrite insert_booking_booking_seats in Hbs. exact Hbs.
  - intros Hfresh Hnan Hnew. rewrite Hdb.
    destruct (delete_session_locks_frame e (Some sid)
                (insert_booking_seats en bookingId ev 1 (select_seats ids db)
                   (insert_booking
                      (mk_booking bookingId e em nm
                         (phone_or_null (br_userPhone req)) total "pending"
                         None) db))) as [_ [_ [_ [F _]]]].
    rewrite F.
    rewrite (insert_booking_seats_all en bookingId ev
               (S (List.length (select_seats ids db)))); auto.
    + now rewrite insert_booking_booking_seats.
    + intros k Hk. rewrite insert_booking_booking_seats.
      apply Hnew. lia.
Qed.

Lemma C6_witness :
  exists eventId seatIds ev,
    br_eventId (demo_booking "E3" ["c"; "b"; "a"] "X") = Some eventId
    /\ br_seatIds (demo_booking "E3" ["c"; "b"; "a"] "X") = SeatIds seatIds
    /\ select_event eventId
         (run [(demo_env 0 "x", demo_lock "E3" ["c"; "b"; "a"] "X")]
            demo_db_cents) = Some ev
    /\ 0x1.3333333333333p-1%float
       = fold_left PrimFloat.add
           (map (seat_price ev)
              (select_seats seatIds
                 (run [(demo_env 0 "x",
                        demo_lock "E3" ["c"; "b"; "a"] "X")] demo_db_cents)))
           0%float.
Proof.
  assert (Hrun :
    post_bookings (demo_env 1000 "b")
      (demo_booking "E3" ["c"; "b"; "a"] "X")
      (run [(demo_env 0 "x", demo_lock "E3" ["c"; "b"; "a"] "X")]
         demo_db_cents)
    = (mk_response 200 (BookingCreated "b00" 0x1.3333333333333p-1 3),
       snd (post_bookings (demo_env 1000 "b")
              (demo_booking "E3" ["c"; "b"; "a"] "X")
              (run [(demo_env 0 "x", demo_lock "E3" ["c"; "b"; "a"] "X")]
                 demo_db_cents))))
    by (vm_compute; reflexivity).
  destruct (C6_prices_charged _ _ _ _ _ _ _ Hrun)
    as [e [ids [ev [E1 [E2 [E3 [_ [_ [_ [E5 _]]]]]]]]]].
  exists e, ids, ev. auto.
Defined.

(** The order of the rows shows in the total.  The seats [c], [b], [a]
    were inserted in this order and are requested in this order; the
    query returns them as [a], [b], [c], and 0.3 + 0.2 + 0.1 is the double
    0.6, where the order of insertion would give 0.1 + 0.2 + 0.3, the
    double 0.6000000000000001. *)
Example total_in_id_order :
  let ev :=
    mk_event "E3" "V2" "Matinee" 0x1.999999999999ap-4
      (Some 0x1.3333333333333p-2%float) (Some 0x1.999999999999ap-3%float)
      "active" in
  select_seats ["c"; "b"; "a"] demo_db_cents
  = [ mk_seat "a" "V2" "A" 3 "vip"; mk_seat "b" "V2" "A" 2 "premium";
      mk_seat "c" "V2" "A" 1 "standard" ]
  /\ total_amount ev (select_seats ["c"; "b"; "a"] demo_db_cents)
     = 0x1.3333333333333p-1%float
  /\ total_amount ev (seats demo_db_cents) = 0x1.3333333333334p-1%float
  /\ booking_seats
       (run [ (demo_env 0 "x", demo_lock "E3" ["c"; "b"; "a"] "X");
              (demo_env 1000 "b",
               CreateBooking (demo_booking "E3" ["c"; "b"; "a"] "X")) ]
          demo_db_cents)
     = [ mk_booking_seat "b01" "b00" "a" 0x1.3333333333333p-2;
         mk_booking_seat "b02" "b00" "b" 0x1.999999999999ap-3;
         mk_booking_seat "b03" "b00" "c" 0x1.999999999999ap-4 ].
Proof. vm_compute. repeat split; reflexivity. Qed.

(** C7, counter-example.  Session X holds a lock on A1 that expires in
    ten minutes and asks to book [A1; A1]: every requested seat has a live
    lock of the session, and the route answers 409. *)
Lemma C7_repeated_seat_counterexample :
  let db := run [(demo_env 0 "x", demo_lock "E1" ["A1"] "X")] demo_db in
  isHeld (now (demo_env 1000 "b")) "E1" ["A1"; "A1"] "X" db
  /\ post_bookings (demo_env 1000 "b") (demo_booking "E1" ["A1"; "A1"] "X")
       db
     = (mk_response 409 (Error lock_expired_message), db).
Proof.
  cbv zeta. split; [|vm_compute; reflexivity].
  assert (E : seat_locks
                (run [(demo_env 0 "x", demo_lock "E1" ["A1"] "X")] demo_db)
              = [demo_lock_row]) by (vm_compute; reflexivity).
  intros s Hs. exists demo_lock_row. rewrite E.
  split; [now left|]. split.
  - destruct Hs as [<-|[<-|[]]]; reflexivity.
  - exists (demo_t0 + 600000). split; [vm_compute; reflexivity|].
    vm_compute. split; reflexivity.
Qed.

(** C7, amended.  For a request with all required fields and an array of
    seat ids, on a lock table with one row per (event, seat): when no seat
    id is requested twice and every requested seat has a live lock of the
    session for the event, the route gets past its lock check, and with
    the event in the table it answers 200 and, the booking id being new
    and the total a number, adds the pending booking; while no requested
    seat carries an expired lock of the session for the event, the route
    gets past the check exactly in that case; a 409 is the lock-expired
    answer and leaves the database untouched; a requested seat with no
    lock row of the session, and a seat id requested twice, each give
    409. *)
Theorem C7_booking_needs_held_seats (en : env) (eventId : string)
    (seatIds : list string) (sessionId userEmail userName : string)
    (userPhone : option string) (db : database)
    (HE : eventId <> "") (HS : sessionId <> "")
    (Hemail : userEmail <> "") (Hname : userName <> "")
    (Hu : locks_unique db) (Hnow : 0 <= now en) :
  let req :=
    mk_booking_request (Some eventId) (SeatIds seatIds) (Some sessionId)
      (Some userEmail) (Some userName) userPhone in
  let r := fst (post_bookings en req db) in
  let db' := snd (post_bookings en req db) in
  (NoDup seatIds -> isHeld (now en) eventId seatIds sessionId db ->
   status r <> 409
   /\ forall ev, select_event eventId db = Some ev ->
      let total := total_amount ev (select_seats seatIds db) in
      r = mk_response 200
            (BookingCreated (uuidv4 en 0) total
               (List.length (select_seats seatIds db)))
      /\ (~ In (uuidv4 en 0) (map b_id (bookings db)) ->
          is_nan total = false ->
          bookings db'
          = (bookings db
             ++ [mk_booking (uuidv4 en 0) eventId userEmail userName
                   (phone_or_null userPhone) total "pending" None])%list))
  /\ ((forall sl, In sl (seat_locks db) ->
                  sl_event_id sl = eventId -> sl_session_id sl = sessionId ->
                  In (sl_seat_id sl) seatIds -> live_lock (now en) sl) ->
      (status r <> 409 <->
       NoDup seatIds /\ isHeld (now en) eventId seatIds sessionId db))
  /\ (status r = 409 ->
      r = mk_response 409 (Error lock_expired_message) /\ db' = db)
  /\ ((exists s, In s seatIds
                 /\ forall sl, In sl (seat_locks db) ->
                               lock_of eventId s sessionId sl = false) ->
      status r = 409)
  /\ (~ NoDup seatIds -> status r = 409).
Proof.
  intros req r db'. subst r db' req.
  rewrite post_bookings_cases by assumption.
  pose proof (gate_iff (now en) eventId sessionId seatIds db Hu) as G.
  pose proof (held_passes (now en) eventId sessionId seatIds db Hnow) as P.
  destruct (Nat.eqb _ _) eqn:El; cbn [negb].
  - apply Nat.eqb_eq in El. apply G in El. destruct El as [Hnd Hpass].
    assert (N : status
                  (fst match select_event eventId db with
                       | Some ev =>
                           (mk_response 200
                              (BookingCreated (uuidv4 en 0)
                                 (total_amount ev (select_seats seatIds db))
                                 (List.length (select_seats seatIds db))),
                            delete_session_locks eventId (Some sessionId)
                              (insert_booking_seats en (uuidv4 en 0) ev 1
                                 (select_seats seatIds db)
                                 (insert_booking
                                    (mk_booking (uuidv4 en 0) eventId
                                       userEmail userName
                                       (phone_or_null userPhone)
                                       (total_amount ev
                                          (select_seats seatIds db))
                                       "pending" None) db)))
                       | None =>
                           (mk_response 404 (Error "Event not found"), db)
                       end) <> 409).
    { destruct (select_event eventId db); simpl; discriminate. }
    split; [|split; [|split; [|split]]].
    + intros _ _. split; [exact N|].
      intros ev Hev. rewrite Hev. cbn [fst snd]. split; [reflexivity|].
      intros Hid Hnan.
      destruct (delete_session_locks_frame eventId (Some sessionId)
                  (insert_booking_seats en (uuidv4 en 0) ev 1
                     (select_seats seatIds db)
                     (insert_booking
                        (mk_booking (uuidv4 en 0) eventId userEmail userName
                           (phone_or_null userPhone)
                           (total_amount ev (select_seats seatIds db))
                           "pending" None) db))) as [_ [_ [F _]]].
      rewrite F, insert_booking_seats_bookings.
      now apply insert_booking_new.
    + intros Hno. split; [|intros _; exact N].
      intros _. split; [exact Hnd|].
      intros s Hs. destruct (Hpass s Hs) as [sl [Hl [Hof _]]].
      exists sl. split; [exact Hl|]. split; [exact Hof|].
      apply lock_of_true in Hof. destruct Hof as [A [B C]].
      apply Hno; auto. now rewrite B.
    + intros H. now apply N in H.
    + intros [s [Hs Hno]]. exfalso.
      destruct (Hpass s Hs) as [sl [Hl [Hof _]]].
      rewrite (Hno sl Hl) in Hof. discriminate.
    + intros H. now apply H in Hnd.
  - apply Nat.eqb_neq in El. cbn [fst snd status].
    assert (Hnot : ~ (NoDup seatIds
                      /\ isHeld (now en) eventId seatIds sessionId db)).
    { intros [Hnd Hheld]. apply El. apply G. split; [exact Hnd|].
      now apply P. }
    split; [|split; [|split; [|split]]].
    + intros Hnd Hheld. exfalso. apply Hnot. now split.
    + intros _. split; intros H; [congruence | now apply Hnot in H].
    + auto.
    + reflexivity.
    + reflexivity.
Qed.

Lemma C7_witness :
  let db := run [(demo_env 0 "x", demo_lock "E1" ["A1"; "B1"] "X")] demo_db in
  isHeld (now (demo_env 1000 "b")) "E1" ["A1"; "B1"] "X" db
  /\ fst (post_bookings (demo_env 1000 "b")
            (demo_booking "E1" ["A1"; "B1"] "X") db)
     = mk_response 200 (BookingCreated "b00" 262.5 2).
Proof.
  intros db.
  assert (HE : "E1" <> "") by discriminate.
  assert (HS : "X" <> "") by discriminate.
  assert (Hemail : "ada@example.org" <> "") by discriminate.
  assert (Hname : "Ada" <> "") by discriminate.
  assert (Hu : locks_unique db).
  { apply run_unique. constructor. }
  assert (Hnow : 0 <= now (demo_env 1000 "b")) by (vm_compute; discriminate).
  assert (Hnd : NoDup ["A1"; "B1"]).
  { repeat constructor; simpl; intuition discriminate. }
  assert (E : seat_locks db
              = [ lock_row (demo_env 0 "x") "E1" "X"
                    "2026-11-02T05:10:00.000Z" 0 "A1";
                  lock_row (demo_env 0 "x") "E1" "X"
                    "2026-11-02T05:10:00.000Z" 1 "B1" ])
    by (vm_compute; reflexivity).
  assert (Hlive : forall sl, In sl (seat_locks db) ->
                             live_lock (now (demo_env 1000 "b")) sl).
  { rewrite E. intros sl [<-|[<-|[]]];
      (exists (demo_t0 + 600000);
       split; [vm_compute; reflexivity | vm_compute; split; reflexivity]). }
  assert (Hheld : isHeld (now (demo_env 1000 "b")) "E1" ["A1"; "B1"] "X" db).
  { intros s Hs. rewrite E.
    destruct Hs as [<-|[<-|[]]];
      [ exists (lock_row (demo_env 0 "x") "E1" "X"
                  "2026-11-02T05:10:00.000Z" 0 "A1")
      | exists (lock_row (demo_env 0 "x") "E1" "X"
                  "2026-11-02T05:10:00.000Z" 1 "B1") ];
      (split; [simpl; tauto|]; split; [reflexivity|];
       apply Hlive; rewrite E; simpl; tauto). }
  split; [exact Hheld|].
  assert (Hev : select_event "E1" db
                = Some (mk_event "E1" "V1" "Rock Symphony Night" 75 None None
                          "active")) by (vm_compute; reflexivity).
  destruct (C7_booking_needs_held_seats (demo_env 1000 "b") "E1"
              ["A1"; "B1"] "X" "ada@example.org" "Ada" None db
              HE HS Hemail Hname Hu Hnow) as [H1 _].
  destruct (H1 Hnd Hheld) as [_ H2].
  destruct (H2 _ Hev) as [H3 _].
  etransitivity; [exact H3 | vm_compute; reflexivity].
Defined.

(** What the amended claim leaves out.  The lock of X on A1 was written
    for the expiry instant 05:10; a booking request of X made at 05:20 the
    same day is still answered 200: the route's expiry test compares the
    ISO text of the expiry with [datetime('now')], as the purge does. *)
Example expired_lock_is_still_booked :
  let db := run [(demo_env 0 "x", demo_lock "E1" ["A1"] "X")] demo_db in
  seat_locks db = [demo_lock_row]
  /\ expires_at_instant demo_lock_row (demo_t0 + 600000)
  /\ now (demo_env 1200000 "b") = demo_t0 + 1200000
  /\ fst (post_bookings (demo_env 1200000 "b")
            (demo_booking "E1" ["A1"] "X") db)
     = mk_response 200 (BookingCreated "b00" 150 1).
Proof. vm_compute. repeat split; reflexivity. Qed.

(** ** The payment route *)

Lemma pay_begin_confirmed (req : payment_request) (db : database)
    (bookingId method : string) (b : booking) :
  pr_bookingId req = Some bookingId -> pr_method req = Some method ->
  bookingId <> "" -> method <> "" ->
  select_booking bookingId db = Some b -> b_status b = "confirmed" ->
  pay_begin req db = inl (mk_response 400 (Error already_paid_message)).
Proof.
  intros E1 E2 H1 H2 Hb Hs. unfold pay_begin. rewrite E1, E2.
  rewrite !truthy_string_some by assumption. cbn [negb orb].
  now rewrite Hb, Hs.
Qed.

Lemma pay_begin_open (req : payment_request) (db : database)
    (bookingId method : string) (b : booking) :
  pr_bookingId req = Some bookingId -> pr_method req = Some method ->
  bookingId <> "" -> method <> "" ->
  select_booking bookingId db = Some b -> b_status b <> "confirmed" ->
  pay_begin req db = inr (bookingId, method, b).
Proof.
  intros E1 E2 H1 H2 Hb Hs. unfold pay_begin. rewrite E1, E2.
  rewrite !truthy_string_some by assumption. cbn [negb orb].
  rewrite Hb. apply String.eqb_neq in Hs. now rewrite Hs.
Qed.

(** What [pay_begin] lets through. *)
Lemma pay_begin_inr (req : payment_request) (db : database)
    (bookingId method : string) (b : booking) :
  pay_begin req db = inr (bookingId, method, b) ->
  pr_bookingId req = Some bookingId /\ pr_method req = Some method
  /\ bookingId <> "" /\ method <> ""
  /\ select_booking bookingId db = Some b /\ b_status b <> "confirmed".
Proof.
  unfold pay_begin.
  destruct (pr_bookingId req) as [bid|]; try discriminate.
  destruct (pr_method req) as [m|]; try discriminate.
  destruct (truthy_string (Some bid)) eqn:T1; try discriminate.
  destruct (truthy_string (Some m)) eqn:T2; try discriminate.
  cbn [negb orb].
  destruct (select_booking bid db) as [b0|] eqn:Hb; try discriminate.
  destruct (String.eqb (b_status b0) "confirmed") eqn:Hs; try discriminate.
  intros H. inversion H; subst.
  simpl in T1, T2. apply negb_true_iff in T1, T2.
  apply String.eqb_neq in T1, T2, Hs. auto 10.
Qed.

(** After the [UPDATE], the booking looked up by the id is confirmed. *)
Lemma select_after_confirm (bookingId qrCode : string) (db : database)
    (b : booking) :
  select_booking bookingId db = Some b ->
  select_booking bookingId (confirm_booking bookingId qrCode db)
  = Some (mk_booking (b_id b) (b_event_id b) (b_user_email b)
            (b_user_name b) (b_user_phone b) (b_total_amount b)
            "confirmed" (Some qrCode)).
Proof.
  unfold select_booking, confirm_booking. cbn [bookings set_bookings].
  induction (bookings db) as [|a l IH]; simpl; [discriminate|].
  destruct (String.eqb (b_id a) bookingId) eqn:E.
  - intros H. inversion H; subst. simpl. now rewrite E.
  - intros H. rewrite E. now apply IH.
Qed.

Lemma insert_payment_bookings (new : payment) (db : database) :
  bookings (insert_payment new db) = bookings db.
Proof. unfold insert_payment. now destruct (_ || _). Qed.

Lemma select_booking_insert_payment (bookingId : string) (new : payment)
    (db : database) :
  select_booking bookingId (insert_payment new db)
  = select_booking bookingId db.
Proof. unfold select_booking. now rewrite insert_payment_bookings. Qed.

Lemma insert_payment_new (new : payment) (db : database) :
  ~ In (p_id new) (map p_id (payments db)) -> is_nan (p_amount new) = false ->
  payments (insert_payment new db) = (payments db ++ [new])%list.
Proof.
  intros Hid Hnan. unfold insert_payment. rewrite Hnan, orb_false_r.
  destruct (existsb _ _) eqn:Ex; [|reflexivity].
  exfalso. apply existsb_exists in Ex. destruct Ex as [b [Hb Eb]].
  apply String.eqb_eq in Eb. apply Hid. rewrite <- Eb. now apply in_map.
Qed.

(** A declined payment: 402, nothing written. *)
Lemma pay_finish_declined (en : env) (bookingId method : string)
    (b : booking) (db : database) :
  declined en = true ->
  pay_finish en bookingId method b db
  = (mk_response 402 (Error declined_message), db).
Proof. unfold pay_finish. now intros ->. Qed.

(** An accepted payment: 200, the payment row written when its id is new
    and the amount a number, the booking of that id confirmed. *)
Lemma pay_finish_accepted (en : env) (bookingId method : string)
    (b b0 : booking) (db : database) :
  declined en = false ->
  select_booking bookingId db = Some b0 ->
  let qr := qr_data_url en bookingId (transaction_id en) (now en) in
  fst (pay_finish en bookingId method b db)
  = mk_response 200 (PaymentDone (uuidv4 en 0) (transaction_id en) qr)
  /\ select_booking bookingId (snd (pay_finish en bookingId method b db))
     = Some (confirmed b0 qr)
  /\ (~ In (uuidv4 en 0) (map p_id (payments db)) ->
      is_nan (b_total_amount b) = false ->
      payments (snd (pay_finish en bookingId method b db))
      = (payments db ++ [payment_row en bookingId method b])%list).
Proof.
  intros Hr Hb. unfold pay_finish. rewrite Hr.
  cbn [fst snd]. split; [reflexivity|]. split.
  - apply select_after_confirm. now rewrite select_booking_insert_payment.
  - intros Hid Hnan. unfold confirm_booking. cbn [payments set_bookings].
    now apply insert_payment_new.
Qed.

(** What a 200 of the payment route tells about the run. *)
Lemma post_payments_done (en : env) (req : payment_request) (db : database)
    (paymentId txn qr : string) (db' : database) :
  post_payments en req db = (mk_response 200 (PaymentDone paymentId txn qr), db')
  -> exists bookingId method b,
       pay_begin req db = inr (bookingId, method, b)
       /\ declined en = false
       /\ db' = snd (pay_finish en bookingId method b db).
Proof.
  unfold post_payments.
  destruct (pay_begin req db) as [r|[[bid m] b]] eqn:E.
  - intros H. inversion H; subst. unfold pay_begin in E.
    destruct (pr_bookingId req); destruct (pr_method req);
      try discriminate.
    destruct (_ || _); try discriminate.
    destruct (select_booking _ _); try discriminate.
    destruct (String.eqb _ _); discriminate.
  - intros H. exists bid, m, b. split; [reflexivity|].
    destruct (declined en) eqn:D.
    + rewrite pay_finish_declined in H by exact D. discriminate.
    + split; [reflexivity|]. now rewrite H.
Qed.

(** ** Claims on the payment route *)

(** C8.  A payment request for a booking whose status is [confirmed] is
    answered 400 and leaves the database as it was; so after a payment
    run that was answered 200, any further payment request for the same
    booking is answered 400 and writes no payment row and no change to
    the booking. *)
Theorem C8_no_double_payment (en : env) (req : payment_request)
    (db : database) (bookingId method : string)
    (Hid : pr_bookingId req = Some bookingId)
    (Hm : pr_method req = Some method)
    (Hid' : bookingId <> "") (Hm' : method <> "") :
  (forall b, select_booking bookingId db = Some b ->
             b_status b = "confirmed" ->
             post_payments en req db
             = (mk_response 400 (Error already_paid_message), db))
  /\ (forall en1 paymentId txn qr db1,
        post_payments en1 req db
        = (mk_response 200 (PaymentDone paymentId txn qr), db1) ->
        forall method2, method2 <> "" ->
        post_payments en
          (mk_payment_request (Some bookingId) (Some method2)) db1
        = (mk_response 400 (Error already_paid_message), db1)).
Proof.
  split.
  - intros b Hb Hs. unfold post_payments.
    now rewrite (pay_begin_confirmed req db bookingId method b).
  - intros en1 paymentId txn qr db1 Hrun method2 Hm2.
    apply post_payments_done in Hrun.
    destruct Hrun as [bid [m [b [Hbeg [Hacc ->]]]]].
    apply pay_begin_inr in Hbeg.
    destruct Hbeg as [E1 [E2 [_ [_ [Hb _]]]]].
    assert (bid = bookingId) by congruence. subst bid.
    destruct (pay_finish_accepted en1 bookingId m b b db Hacc Hb)
      as [_ [Hsel _]].
    unfold post_payments.
    now rewrite (pay_begin_confirmed
                   (mk_payment_request (Some bookingId) (Some method2)) _
                   bookingId method2 _ eq_refl eq_refl Hid' Hm2 Hsel
                   eq_refl).
Qed.

Lemma C8_witness :
  select_booking "b00" demo_db_paid
  = Some (mk_booking "b00" "E1" "ada@example.org" "Ada" None 150
            "confirmed" (Some "qr:b00TXNMVYSIFRK"))
  /\ post_payments (demo_env 5000 "q") (demo_payment "b00") demo_db_paid
     = (mk_response 400 (Error already_paid_message), demo_db_paid).
Proof.
  assert (H1 : "b00" <> "") by discriminate.
  assert (H2 : "card" <> "") by discriminate.
  assert (Hb : select_booking "b00" demo_db_paid
               = Some (mk_booking "b00" "E1" "ada@example.org" "Ada" None
                         150 "confirmed" (Some "qr:b00TXNMVYSIFRK")))
    by (vm_compute; reflexivity).
  split; [exact Hb|].
  exact (proj1 (C8_no_double_payment (demo_env 5000 "q")
                  (demo_payment "b00") demo_db_paid "b00" "card"
                  eq_refl eq_refl H1 H2) _ Hb eq_refl).
Defined.

(** C9.  When the payment of a pending booking is declined the route
    answers 402 and returns the database it was given: the booking is
    still pending, no payment row is written, no lock or booking seat is
    touched.  A later run for the same request whose payment is accepted
    answers 200, confirms the booking and, the payment id being new and
    the amount a number, records the completed payment. *)
Theorem C9_declined_payment_can_be_retried (en : env) (req : payment_request)
    (db : database) (bookingId method : string) (b : booking)
    (Hid : pr_bookingId req = Some bookingId)
    (Hm : pr_method req = Some method)
    (Hid' : bookingId <> "") (Hm' : method <> "")
    (Hb : select_booking bookingId db = Some b)
    (Hpending : b_status b = "pending")
    (Hdeclined : declined en = true) :
  post_payments en req db = (mk_response 402 (Error declined_message), db)
  /\ forall en', declined en' = false ->
       let qr := qr_data_url en' bookingId (transaction_id en') (now en') in
       let db' := snd (post_payments en' req (snd (post_payments en req db))) in
       fst (post_payments en' req (snd (post_payments en req db)))
       = mk_response 200 (PaymentDone (uuidv4 en' 0) (transaction_id en') qr)
       /\ select_booking bookingId db' = Some (confirmed b qr)
       /\ (~ In (uuidv4 en' 0) (map p_id (payments db)) ->
           is_nan (b_total_amount b) = false ->
           payments db'
           = (payments db ++ [payment_row en' bookingId method b])%list).
Proof.
  assert (Hbeg : pay_begin req db = inr (bookingId, method, b)).
  { apply pay_begin_open; auto. rewrite Hpending. discriminate. }
  assert (Hrun : post_payments en req db
                 = (mk_response 402 (Error declined_message), db)).
  { unfold post_payments. rewrite Hbeg. now apply pay_finish_declined. }
  split; [exact Hrun|].
  intros en' Hacc. rewrite Hrun. cbn [snd].
  unfold post_payments. rewrite Hbeg.
  exact (pay_finish_accepted en' bookingId method b b db Hacc Hb).
Qed.

Lemma C9_witness :
  post_payments (demo_env_declined 2000 "p") (demo_payment "b00")
    demo_db_pending
  = (mk_response 402 (Error declined_message), demo_db_pending).
Proof.
  assert (H1 : "b00" <> "") by discriminate.
  assert (H2 : "card" <> "") by discriminate.
  assert (Hb : select_booking "b00" demo_db_pending
               = Some (mk_booking "b00" "E1" "ada@example.org" "Ada" None
                         150 "pending" None))
    by (vm_compute; reflexivity).
  assert (Hd : declined (demo_env_declined 2000 "p") = true)
    by (vm_compute; reflexivity).
  exact (proj1 (C9_declined_payment_can_be_retried
                  (demo_env_declined 2000 "p") (demo_payment "b00")
                  demo_db_pending "b00" "card" _ eq_refl eq_refl H1 H2 Hb
                  eq_refl Hd)).
Defined.

(** * Further properties of the lock table *)

(** [cleanExpiredLocks] keeps a lock through the whole UTC day of its
    expiry instant and deletes it on every later day: the lock is in the
    purged table exactly when it was in the table and the day of the
    purge is not after the day of the expiry. *)
Theorem purge_goes_by_utc_day (t x : Z) (l : seat_lock) (db : database)
    (Ht : 0 <= t < Clock.max_time) (Hx : 0 <= x < Clock.max_time)
    (Hl : expires_at_instant l x) :
  In l (seat_locks (cleanExpiredLocks t db))
  <-> In l (seat_locks db) /\ Clock.utc_day t <= Clock.utc_day x.
Proof.
  rewrite seat_locks_clean, filter_In.
  rewrite (lock_expired_by_day t x l Ht Hx Hl).
  rewrite negb_true_iff, Z.ltb_ge. tauto.
Qed.

Lemma purge_goes_by_utc_day_witness :
  In demo_lock_row
    (seat_locks (cleanExpiredLocks (demo_t0 + 1200000) demo_db_locked))
  <-> In demo_lock_row (seat_locks demo_db_locked)
      /\ Clock.utc_day (demo_t0 + 1200000)
         <= Clock.utc_day (demo_t0 + 600000).
Proof.
  assert (Ht : 0 <= demo_t0 + 1200000 < Clock.max_time)
    by (vm_compute; split; congruence).
  assert (Hx : 0 <= demo_t0 + 600000 < Clock.max_time)
    by (vm_compute; split; congruence).
  assert (Hl : expires_at_instant demo_lock_row (demo_t0 + 600000))
    by (vm_compute; reflexivity).
  exact (purge_goes_by_utc_day _ _ _ demo_db_locked Ht Hx Hl).
Defined.

(** The expiry test of the lock route and of the booking route,
    [expires_at > datetime('now')], accepts a lock exactly while the UTC
    day has not passed the day of the expiry instant; the purge's test
    [expires_at < datetime('now')] fires exactly from the next day on.
    The time of day plays no part in either. *)
Theorem expiry_tests_go_by_utc_day (t x : Z) (l : seat_lock)
    (Ht : 0 <= t < Clock.max_time) (Hx : 0 <= x < Clock.max_time)
    (Hl : expires_at_instant l x) :
  (lock_live t l = true <-> Clock.utc_day t <= Clock.utc_day x)
  /\ (lock_expired t l = true <-> Clock.utc_day x < Clock.utc_day t).
Proof.
  rewrite (lock_live_by_day t x l Ht Hx Hl).
  rewrite (lock_expired_by_day t x l Ht Hx Hl).
  now rewrite Z.leb_le, Z.ltb_lt.
Qed.

Lemma expiry_tests_go_by_utc_day_witness :
  (lock_live (demo_t0 + 1200000) demo_lock_row = true
   <-> Clock.utc_day (demo_t0 + 1200000) <= Clock.utc_day (demo_t0 + 600000))
  /\ (lock_expired (demo_t0 + 1200000) demo_lock_row = true
      <-> Clock.utc_day (demo_t0 + 600000) < Clock.utc_day (demo_t0 + 1200000)).
Proof.
  assert (Ht : 0 <= demo_t0 + 1200000 < Clock.max_time)
    by (vm_compute; split; congruence).
  assert (Hx : 0 <= demo_t0 + 600000 < Clock.max_time)
    by (vm_compute; split; congruence).
  assert (Hl : expires_at_instant demo_lock_row (demo_t0 + 600000))
    by (vm_compute; reflexivity).
  exact (expiry_tests_go_by_utc_day _ _ _ Ht Hx Hl).
Defined.

(** The release route always answers 200.  It deletes the locks of the
    given session for the given event and no other row; with the session
    id absent it deletes nothing; a second release changes nothing more;
    no other table is touched. *)
Theorem release_is_scoped_and_idempotent (eventId : string)
    (sessionId : option string) (db : database) :
  let db' := snd (post_seats_release eventId sessionId db) in
  fst (post_seats_release eventId sessionId db) = mk_response 200 Released
  /\ (forall l, In l (seat_locks db') <->
                In l (seat_locks db)
                /\ ~ (sl_event_id l = eventId
                      /\ sessionId = Some (sl_session_id l)))
  /\ (sessionId = None -> db' = db)
  /\ snd (post_seats_release eventId sessionId db') = db'
  /\ seats db' = seats db /\ events db' = events db
  /\ bookings db' = bookings db /\ booking_seats db' = booking_seats db
  /\ payments db' = payments db.
Proof.
  cbn [post_seats_release fst snd]. split; [reflexivity|].
  split; [|split; [|split]].
  - intros l. destruct sessionId as [sid|].
    + rewrite seat_locks_delete, filter_In, negb_true_iff,
        andb_false_iff, !String.eqb_neq.
      split.
      * intros [H C]. split; [exact H|]. intros [E1 E2].
        inversion E2. destruct C; congruence.
      * intros [H C]. split; [exact H|].
        destruct (String.eqb_spec (sl_event_id l) eventId);
          destruct (String.eqb_spec (sl_session_id l) sid); auto.
        exfalso. apply C. split; congruence.
    + simpl. split; [intros H; split; [exact H|]|tauto].
      intros [_ E]. discriminate.
  - now intros ->.
  - destruct sessionId as [sid|]; [|reflexivity].
    unfold delete_session_locks, set_seat_locks. cbn. f_equal.
    induction (seat_locks db) as [|a ls IH]; simpl; [reflexivity|].
    destruct (negb _) eqn:E; simpl; rewrite ?E, IH; reflexivity.
  - apply delete_session_locks_frame.
Qed.

(** The lock route answers 400 exactly when the seat list is absent or
    empty or the session id is absent or empty, and then returns the
    database untouched: not even the purge has run. *)
Theorem lock_request_is_validated_first (en : env) (eventId : string)
    (req : lock_request) (db : database) :
  (status (fst (post_seats_lock en eventId req db)) = 400
   <-> lr_seatIds req = None \/ lr_seatIds req = Some []
       \/ truthy_string (lr_sessionId req) = false)
  /\ (status (fst (post_seats_lock en eventId req db)) = 400 ->
      snd (post_seats_lock en eventId req db) = db).
Proof.
  unfold post_seats_lock.
  destruct (lr_seatIds req) as [[|s ids]|]; cbn [fst snd status];
    try (split; [split; auto | reflexivity]).
  destruct (lr_sessionId req) as [sid|]; cbn [fst snd status truthy_string];
    try (split; [split; auto | reflexivity]).
  destruct (String.eqb sid ""); cbn [fst snd status negb];
    try (split; [split; auto | reflexivity]).
  destruct (select_unavailable _ _ _ _ _); cbn [fst snd status];
    (split; [split; [discriminate | intros [H|[H|H]]; discriminate]
            | discriminate]).
Qed.

(** Where the rows come from after the lock loop. *)
Lemma insert_locks_origin (en : env) (eventId sessionId expiresAt : string)
    (seatIds : list string) :
  forall (i : nat) (db : database) (l : seat_lock),
  In l (seat_locks (insert_locks en eventId sessionId expiresAt i seatIds db))
  -> In l (seat_locks db)
     \/ exists k s, (i <= k < i + List.length seatIds)%nat /\ In s seatIds
                    /\ l = lock_row en eventId sessionId expiresAt k s.
Proof.
  induction seatIds as [|s rest IH]; simpl; intros i db l H; [now left|].
  apply IH in H. destruct H as [H|[k [s' [Hk [Hs' E]]]]].
  - rewrite seat_locks_insert in H. apply in_app_or in H.
    destruct H as [H|[<-|[]]].
    + apply filter_In in H. now left.
    + right. exists i, s. split; [lia|]. split; [now left|reflexivity].
  - right. exists k, s'. split; [lia|]. split; [now right|exact E].
Qed.

(** When the lock route answers 200, the answer carries the expiry
    [now + 10 minutes] and the length of the requested list; every lock
    the session then has for the event is a row written by this request,
    on a requested seat with that expiry; every other row of the table was
    there before; and no other table has changed. *)
Theorem granted_lock_replaces_session_locks (en : env) (eventId : string)
    (req : lock_request) (db : database) (X : string) (n : nat)
    (db' : database)
    (Hrun : post_seats_lock en eventId req db
            = (mk_response 200 (Locked X n), db')) :
  exists seatIds sessionId,
    lr_seatIds req = Some seatIds /\ lr_sessionId req = Some sessionId
    /\ X = Clock.toISOString (now en + 600000)
    /\ n = List.length seatIds
    /\ (forall l, In l (seat_locks db') ->
                  sl_event_id l = eventId -> sl_session_id l = sessionId ->
                  exists k s, (k < List.length seatIds)%nat /\ In s seatIds
                              /\ l = lock_row en eventId sessionId X k s)
    /\ (forall l, In l (seat_locks db') ->
                  In l (seat_locks db)
                  \/ exists k s, (k < List.length seatIds)%nat
                                 /\ In s seatIds
                                 /\ l = lock_row en eventId sessionId X k s)
    /\ seats db' = seats db /\ events db' = events db
    /\ bookings db' = bookings db /\ booking_seats db' = booking_seats db
    /\ payments db' = payments db.
Proof.
  apply post_seats_lock_granted in Hrun.
  destruct Hrun as [ids [sid [E1 [E2 [EX [En Edb]]]]]].
  exists ids, sid. split; [exact E1|]. split; [exact E2|].
  split; [exact EX|]. split; [exact En|].
  assert (Horigin : forall l, In l (seat_locks db') ->
            In l (seat_locks (delete_session_locks eventId (Some sid)
                                (cleanExpiredLocks (now en) db)))
            \/ exists k s, (k < List.length ids)%nat /\ In s ids
                           /\ l = lock_row en eventId sid X k s).
  { intros l Hl. rewrite Edb in Hl. apply insert_locks_origin in Hl.
    destruct Hl as [Hl|[k [s [Hk H]]]]; [now left|].
    right. exists k, s. split; [lia|exact H]. }
  split; [|split].
  - intros l Hl Ee Es. destruct (Horigin l Hl) as [H|H]; [|exact H].
    exfalso. rewrite seat_locks_delete in H. apply filter_In in H.
    destruct H as [_ C]. rewrite Ee, Es, !String.eqb_refl in C.
    discriminate.
  - intros l Hl. destruct (Horigin l Hl) as [H|H]; [|now right].
    left. rewrite seat_locks_delete in H. apply filter_In in H.
    destruct H as [H _]. now apply clean_subset in H.
  - rewrite Edb.
    pose proof (insert_locks_frame en eventId sid X ids 0
                  (delete_session_locks eventId (Some sid)
                     (cleanExpiredLocks (now en) db))) as F.
    cbv zeta in F. destruct F as [F1 [F2 [F3 [F4 F5]]]].
    rewrite F1, F2, F3, F4, F5. repeat split; reflexivity.
Qed.

Lemma granted_lock_replaces_session_locks_witness :
  exists seatIds sessionId,
    lr_seatIds (mk_lock_request (Some ["A2"; "B1"]) (Some "X"))
    = Some seatIds
    /\ lr_sessionId (mk_lock_request (Some ["A2"; "B1"]) (Some "X"))
       = Some sessionId
    /\ "2026-11-02T05:10:05.000Z"
       = Clock.toISOString (now (demo_env 5000 "w") + 600000)
    /\ 2%nat = List.length seatIds.
Proof.
  assert (Hrun :
    post_seats_lock (demo_env 5000 "w") "E1"
      (mk_lock_request (Some ["A2"; "B1"]) (Some "X")) demo_db_locked
    = (mk_response 200 (Locked "2026-11-02T05:10:05.000Z" 2),
       snd (post_seats_lock (demo_env 5000 "w") "E1"
              (mk_lock_request (Some ["A2"; "B1"]) (Some "X"))
              demo_db_locked)))
    by (vm_compute; reflexivity).
  destruct (granted_lock_replaces_session_locks _ _ _ _ _ _ _ Hrun)
    as [ids [sid [E1 [E2 [E3 [E4 _]]]]]].
  exists ids, sid. auto.
Defined.

(** A seat of the [seats] table with a confirmed booking for the event is
    refused to every session, the one that booked it included: any lock
    request that names it gets 409 with the seat listed as [booked], and
    no lock is written. *)
Theorem confirmed_seat_is_refused (en : env) (eventId seatId sessionId : string)
    (seatIds : list string) (db : database)
    (Hsid : sessionId <> "") (Hin : In seatId seatIds)
    (Hseat : is_seat seatId db = true)
    (Hbooked : seat_in_booking ["confirmed"] eventId seatId db = true) :
  exists U,
    post_seats_lock en eventId
      (mk_lock_request (Some seatIds) (Some sessionId)) db
    = (mk_response 409 (Unavailable conflict_message U),
       cleanExpiredLocks (now en) db)
    /\ exists u, In u U /\ u_id u = seatId /\ u_reason u = Some "booked".
Proof.
  apply is_seat_In in Hseat. destruct Hseat as [s [Hs Eid]].
  apply seat_in_confirmed in Hbooked. destruct Hbooked as [bs [Hbs [Eb Cb]]].
  destruct (left_join_inhabited
              (filter (fun sl => String.eqb (s_id s) (sl_seat_id sl)
                                 && String.eqb (sl_event_id sl) eventId
                                 && lock_live (now en) sl)
                 (seat_locks (cleanExpiredLocks (now en) db)))) as [sl Hsl].
  set (U := select_unavailable (now en) eventId sessionId seatIds
              (cleanExpiredLocks (now en) db)).
  set (u := mk_unavailable (s_id s) (s_row_label s) (s_seat_number s)
              (unavailable_reason sessionId (Some bs) sl)).
  assert (HuU : In u U).
  { apply select_unavailable_In. exists s, (Some bs), sl.
    repeat split; auto.
    - now rewrite Eid.
    - rewrite join_confirmed_clean. apply join_confirmed_some.
      repeat split; auto. congruence. }
  exists U. split.
  - rewrite post_seats_lock_cases;
      [| intros ->; destruct Hin | assumption].
    cbv zeta. fold U. destruct U; [destruct HuU | reflexivity].
  - exists u. split; [exact HuU|]. split; [exact Eid | reflexivity].
Qed.

Lemma confirmed_seat_is_refused_witness :
  exists U,
    post_seats_lock (demo_env 9000 "w") "E1"
      (mk_lock_request (Some ["A1"; "A2"]) (Some "X")) demo_db_paid
    = (mk_response 409 (Unavailable conflict_message U),
       cleanExpiredLocks (now (demo_env 9000 "w")) demo_db_paid)
    /\ exists u, In u U /\ u_id u = "A1" /\ u_reason u = Some "booked".
Proof.
  assert (H1 : "X" <> "") by discriminate.
  assert (H2 : is_seat "A1" demo_db_paid = true) by (vm_compute; reflexivity).
  assert (H3 : seat_in_booking ["confirmed"] "E1" "A1" demo_db_paid = true)
    by (vm_compute; reflexivity).
  exact (confirmed_seat_is_refused (demo_env 9000 "w") "E1" "A1" "X"
           ["A1"; "A2"] demo_db_paid H1 (or_introl eq_refl) H2 H3).
Defined.

(** Every seat a 409 of the lock route lists was requested and is a row of
    [seats]; its reason is [booked] exactly when the seat has a confirmed
    booking for the event, and otherwise [locked], in which case a lock of
    another session on the seat passes the route's expiry test.  The
    reason is never NULL. *)
Theorem unavailable_rows_are_justified (en : env) (eventId : string)
    (req : lock_request) (db : database) (st : Z) (msg : string)
    (U : list unavailable_seat) (db' : database)
    (Hrun : post_seats_lock en eventId req db
            = (mk_response st (Unavailable msg U), db')) :
  exists seatIds sessionId,
    lr_seatIds req = Some seatIds /\ lr_sessionId req = Some sessionId
    /\ st = 409 /\ U <> []
    /\ forall u, In u U ->
         In (u_id u) seatIds /\ is_seat (u_id u) db = true
         /\ ((u_reason u = Some "booked"
              /\ seat_in_booking ["confirmed"] eventId (u_id u) db = true)
             \/ (u_reason u = Some "locked"
                 /\ seat_in_booking ["confirmed"] eventId (u_id u) db = false
                 /\ exists l, In l (seat_locks db)
                              /\ lock_on eventId (u_id u) l = true
                              /\ sl_session_id l <> sessionId
                              /\ lock_live (now en) l = true)).
Proof.
  assert (Hst : st = 409 /\ U <> []).
  { revert Hrun. unfold post_seats_lock.
    destruct (lr_seatIds req) as [[|s ids]|]; try discriminate.
    destruct (lr_sessionId req) as [sid|]; try discriminate.
    destruct (String.eqb sid ""); try discriminate.
    destruct (select_unavailable _ _ _ _ _); try discriminate.
    intros H. inversion H; subst. split; [reflexivity | discriminate]. }
  apply post_seats_lock_unavailable in Hrun.
  destruct Hrun as [ids [sid [E1 [E2 EU]]]].
  exists ids, sid. split; [exact E1|]. split; [exact E2|].
  split; [apply Hst|]. split; [apply Hst|].
  intros u Hu. rewrite EU in Hu. apply select_unavailable_In in Hu.
  destruct Hu as [s [bs [sl [Hs [Hin [Hbs [Hsl [C ->]]]]]]]].
  cbn [u_id u_reason]. split; [exact Hin|].
  split; [apply is_seat_In; exists s; auto|].
  rewrite join_confirmed_clean in Hbs.
  destruct bs as [b|].
  - left. split; [reflexivity|].
    apply join_confirmed_some in Hbs. destruct Hbs as [Hb [Eb Cb]].
    apply seat_in_confirmed. exists b. auto.
  - right. simpl in C. unfold unavailable_reason. cbn [is_not_null].
    rewrite C. split; [reflexivity|]. split.
    + destruct (seat_in_booking ["confirmed"] eventId (s_id s) db) eqn:Eb;
        [|reflexivity].
      exfalso. apply seat_in_confirmed in Eb.
      destruct Eb as [b [Hb [Eb Cb]]].
      assert (Hsome : In (Some b) (join_confirmed eventId db s))
        by (apply join_confirmed_some; auto).
      unfold join_confirmed, left_join in Hbs, Hsome.
      destruct (filter _ (booking_seats db)) as [|b0 r].
      * destruct Hsome as [H|[]]. discriminate.
      * apply in_map_iff in Hbs. destruct Hbs as [y [Ey _]]. discriminate.
    + destruct sl as [l|]; [|discriminate].
      apply join_live_locks_some in Hsl. destruct Hsl as [Hl [Hon Hlive]].
      exists l. split; [now apply clean_subset in Hl|].
      split; [exact Hon|]. split; [|exact Hlive].
      simpl in C. apply negb_true_iff in C. now apply String.eqb_neq in C.
Qed.

Lemma unavailable_rows_are_justified_witness :
  exists seatIds sessionId,
    lr_seatIds (mk_lock_request (Some ["A1"; "C1"]) (Some "Y")) = Some seatIds
    /\ lr_sessionId (mk_lock_request (Some ["A1"; "C1"]) (Some "Y"))
       = Some sessionId
    /\ 409 = 409
    /\ [mk_unavailable "A1" "A" 1 (Some "locked")] <> [].
Proof.
  assert (Hrun :
    post_seats_lock (demo_env 2000 "y") "E1"
      (mk_lock_request (Some ["A1"; "C1"]) (Some "Y")) demo_db_two_locks
    = (mk_response 409
         (Unavailable conflict_message
            [mk_unavailable "A1" "A" 1 (Some "locked")]),
       snd (post_seats_lock (demo_env 2000 "y") "E1"
              (mk_lock_request (Some ["A1"; "C1"]) (Some "Y"))
              demo_db_two_locks)))
    by (vm_compute; reflexivity).
  destruct (unavailable_rows_are_justified _ _ _ _ _ _ _ _ Hrun)
    as [ids [sid [E1 [E2 [E3 [E4 _]]]]]].
  exists ids, sid. auto.
Defined.

(** * Further properties of the booking route *)

Lemma lock_row_of (en : env) (eventId sessionId expiresAt : string) (k : nat)
    (seatId : string) :
  lock_of eventId seatId sessionId
    (lock_row en eventId sessionId expiresAt k seatId) = true.
Proof. unfold lock_of, lock_on, lock_row. cbn. now rewrite !String.eqb_refl. Qed.

(** Lock, then book.  After the lock route has answered 200 to a request
    for distinct seat ids (the ids it drew being pairwise different), a
    booking request of the same session for the same seats, made before
    the expiry instant, passes the lock check: with the event in the
    table it is answered 200, with the number of the requested ids that
    name a seat and the sum of the prices of these seats, added in
    ascending order of seat id. *)
Theorem locked_seats_can_be_booked (en en2 : env) (eventId : string)
    (seatIds : list string) (sessionId userEmail userName : string)
    (userPhone : option string) (db db1 : database) (X : string) (n : nat)
    (ev : event)
    (HE : eventId <> "") (Hemail : userEmail <> "") (Hname : userName <> "")
    (Hu : locks_unique db) (Hnd : NoDup seatIds)
    (Hfresh : fresh_ids en (List.length seatIds))
    (Hlock : post_seats_lock en eventId
               (mk_lock_request (Some seatIds) (Some sessionId)) db
             = (mk_response 200 (Locked X n), db1))
    (Hev : select_event eventId db = Some ev)
    (Htime : 0 <= now en2 < now en + 600000)
    (Hmax : now en + 600000 < Clock.max_time) :
  fst (post_bookings en2
         (mk_booking_request (Some eventId) (SeatIds seatIds)
            (Some sessionId)
            (Some userEmail) (Some userName) userPhone) db1)
  = mk_response 200
      (BookingCreated (uuidv4 en2 0)
         (total_amount ev (select_seats seatIds db))
         (List.length (select_seats seatIds db))).
Proof.
  assert (HS : sessionId <> "").
  { intros ->. revert Hlock. unfold post_seats_lock. cbn.
    destruct seatIds; discriminate. }
  pose proof (post_seats_lock_unique en eventId
                (mk_lock_request (Some seatIds) (Some sessionId)) db Hu)
    as Hu1.
  rewrite Hlock in Hu1. cbn [snd] in Hu1.
  apply post_seats_lock_granted in Hlock.
  destruct Hlock as [ids [sid [E1 [E2 [EX [_ Edb]]]]]].
  cbn in E1, E2. inversion E1. inversion E2. subst ids sid. clear E1 E2.
  assert (Hheld : isHeld (now en2) eventId seatIds sessionId db1).
  { intros s Hs.
    destruct (insert_locks_all en eventId sessionId X (List.length seatIds)
                Hfresh s seatIds 0
                (delete_session_locks eventId (Some sessionId)
                   (cleanExpiredLocks (now en) db)) ltac:(lia) Hs)
      as [k [_ Hk]].
    rewrite <- Edb in Hk.
    exists (lock_row en eventId sessionId X k s).
    split; [exact Hk|]. split; [apply lock_row_of|].
    exists (now en + 600000).
    split; [|lia]. unfold expires_at_instant, lock_row. cbn [sl_expires_at].
    rewrite EX. unfold lock_expiry, LOCK_DURATION_MINUTES. f_equal; try lia. }
  rewrite post_bookings_cases by assumption.
  assert (G : List.length
                (select_session_locks (now en2) eventId sessionId seatIds db1)
              = List.length seatIds).
  { apply gate_iff; [exact Hu1|]. split; [exact Hnd|].
    apply held_passes; [lia | exact Hheld]. }
  rewrite G, Nat.eqb_refl. cbn [negb].
  pose proof (insert_locks_frame en eventId sessionId X seatIds 0
                (delete_session_locks eventId (Some sessionId)
                   (cleanExpiredLocks (now en) db))) as F.
  cbv zeta in F. rewrite <- Edb in F. destruct F as [F1 [F2 _]].
  cbn in F1, F2.
  unfold select_event, select_seats. rewrite F1, F2.
  fold (select_event eventId db). rewrite Hev. reflexivity.
Qed.

Lemma locked_seats_can_be_booked_witness :
  fst (post_bookings (demo_env 1000 "b")
         (mk_booking_request (Some "E1") (SeatIds ["A1"; "B1"]) (Some "X")
            (Some "ada@example.org") (Some "Ada") None)
         (snd (post_seats_lock (demo_env 0 "x") "E1"
                 (mk_lock_request (Some ["A1"; "B1"]) (Some "X")) demo_db)))
  = mk_response 200
      (BookingCreated (uuidv4 (demo_env 1000 "b") 0)
         (total_amount
            (mk_event "E1" "V1" "Rock Symphony Night" 75 None None "active")
            (select_seats ["A1"; "B1"] demo_db))
         (List.length (select_seats ["A1"; "B1"] demo_db))).
Proof.
  assert (HE : "E1" <> "") by discriminate.
  assert (Hemail : "ada@example.org" <> "") by discriminate.
  assert (Hname : "Ada" <> "") by discriminate.
  assert (Hu : locks_unique demo_db) by constructor.
  assert (Hnd : NoDup ["A1"; "B1"]).
  { repeat constructor; simpl; intuition discriminate. }
  assert (Hfresh : fresh_ids (demo_env 0 "x") 2).
  { unfold fresh_ids. vm_compute.
    repeat constructor; simpl; intuition discriminate. }
  assert (Hlock :
    post_seats_lock (demo_env 0 "x") "E1"
      (mk_lock_request (Some ["A1"; "B1"]) (Some "X")) demo_db
    = (mk_response 200 (Locked "2026-11-02T05:10:00.000Z" 2),
       snd (post_seats_lock (demo_env 0 "x") "E1"
              (mk_lock_request (Some ["A1"; "B1"]) (Some "X")) demo_db)))
    by (vm_compute; reflexivity).
  assert (Hev : select_event "E1" demo_db
                = Some (mk_event "E1" "V1" "Rock Symphony Night" 75 None None
                          "active")) by reflexivity.
  assert (Htime : 0 <= now (demo_env 1000 "b")
                  < now (demo_env 0 "x") + 600000)
    by (vm_compute; split; congruence).
  assert (Hmax : now (demo_env 0 "x") + 600000 < Clock.max_time)
    by (vm_compute; reflexivity).
  exact (locked_seats_can_be_booked (demo_env 0 "x") (demo_env 1000 "b")
           "E1" ["A1"; "B1"] "X" "ada@example.org" "Ada" None demo_db _ _ _ _
           HE Hemail Hname Hu Hnd Hfresh Hlock Hev Htime Hmax).
Defined.

Lemma insert_booking_frame (new : booking) (db : database) :
  let db' := insert_booking new db in
  seats db' = seats db /\ events db' = events db
  /\ payments db' = payments db.
Proof. unfold insert_booking. destruct (_ || _); simpl; tauto. Qed.

Lemma insert_booking_seat_frame (new : booking_seat) (db : database) :
  let db' := insert_booking_seat new db in
  seats db' = seats db /\ events db' = events db
  /\ payments db' = payments db.
Proof. unfold insert_booking_seat. destruct (_ || _); simpl; tauto. Qed.

Lemma insert_booking_seats_frame (en : env) (bookingId : string) (ev : event)
    (rows : list seat) :
  forall (i : nat) (db : database),
  let db' := insert_booking_seats en bookingId ev i rows db in
  seats db' = seats db /\ events db' = events db
  /\ payments db' = payments db.
Proof.
  induction rows as [|s rows IH]; simpl; intros i db; [tauto|].
  destruct (IH (S i) (insert_booking_seat
                        (mk_booking_seat (uuidv4 en i) bookingId (s_id s)
                           (seat_price ev s)) db)) as [A [B C]].
  destruct (insert_booking_seat_frame
              (mk_booking_seat (uuidv4 en i) bookingId (s_id s)
                 (seat_price ev s)) db) as [A' [B' C']].
  rewrite A, B, C. auto.
Qed.

(** A booking answered 200 takes away every lock the session had for the
    event and no other lock; the route runs no purge; [seats], [events]
    and [payments] are as before. *)
Theorem booking_consumes_session_locks (en : env) (req : booking_request)
    (db : database) (bookingId : string) (total : float) (n : nat)
    (db' : database)
    (Hrun : post_bookings en req db
            = (mk_response 200 (BookingCreated bookingId total n), db')) :
  exists eventId sessionId,
    br_eventId req = Some eventId /\ br_sessionId req = Some sessionId
    /\ (forall l, In l (seat_locks db') <->
                  In l (seat_locks db)
                  /\ ~ (sl_event_id l = eventId
                        /\ sl_session_id l = sessionId))
    /\ seats db' = seats db /\ events db' = events db
    /\ payments db' = payments db.
Proof.
  apply post_bookings_created in Hrun.
  destruct Hrun as [e [ids [sid [em [nm [ev
    [E1 [E2 [E3 [E4 [E5 [Hlen [Hev [Hid [Htot [Hn Hdb]]]]]]]]]]]]]]]].
  exists e, sid. split; [exact E1|]. split; [exact E3|].
  rewrite Hdb. split.
  - intros l. rewrite seat_locks_delete, filter_In.
    rewrite insert_booking_seats_locks, insert_booking_locks.
    rewrite negb_true_iff, andb_false_iff, !String.eqb_neq.
    split.
    + intros [H C]. split; [exact H|]. intros [A B]. destruct C; congruence.
    + intros [H C]. split; [exact H|].
      destruct (String.eqb_spec (sl_event_id l) e);
        destruct (String.eqb_spec (sl_session_id l) sid); auto.
  - set (b := mk_booking bookingId e em nm
                (phone_or_null (br_userPhone req)) total "pending" None).
    destruct (delete_session_locks_frame e (Some sid)
                (insert_booking_seats en bookingId ev 1 (select_seats ids db)
                   (insert_booking b db))) as [A1 [A2 [_ [_ A5]]]].
    destruct (insert_booking_seats_frame en bookingId ev
                (select_seats ids db) 1 (insert_booking b db))
      as [B1 [B2 B3]].
    destruct (insert_booking_frame b db) as [C1 [C2 C3]].
    rewrite A1, A2, A5, B1, B2, B3, C1, C2, C3. auto.
Qed.

Lemma booking_consumes_session_locks_witness :
  exists eventId sessionId,
    br_eventId (demo_booking "E1" ["A2"] "Y") = Some eventId
    /\ br_sessionId (demo_booking "E1" ["A2"] "Y") = Some sessionId
    /\ (forall l,
          In l (seat_locks
                  (snd (post_bookings (demo_env 3000 "c")
                          (demo_booking "E1" ["A2"] "Y") demo_db_two_locks)))
          <-> In l (seat_locks demo_db_two_locks)
              /\ ~ (sl_event_id l = eventId /\ sl_session_id l = sessionId)).
Proof.
  assert (Hrun :
    post_bookings (demo_env 3000 "c") (demo_booking "E1" ["A2"] "Y")
      demo_db_two_locks
    = (mk_response 200 (BookingCreated "c00" 150 1),
       snd (post_bookings (demo_env 3000 "c")
              (demo_booking "E1" ["A2"] "Y") demo_db_two_locks)))
    by (vm_compute; reflexivity).
  destruct (booking_consumes_session_locks _ _ _ _ _ _ _ Hrun)
    as [e [sid [E1 [E2 [E3 _]]]]].
  exists e, sid. auto.
Defined.

(** Whatever the booking route answers, it is 200, 400, 404, 409 or 500,
    and every answer other than 200 leaves the database exactly as it
    was: no booking row, no booking seat, no lock removed.  It answers
    500 exactly when every required field is truthy and [seatIds] is not
    an array, and 404 only when the event is not in the table. *)
Theorem failed_booking_changes_nothing (en : env) (req : booking_request)
    (db : database) :
  let r := fst (post_bookings en req db) in
  (status r = 200 \/ status r = 400 \/ status r = 404 \/ status r = 409
   \/ status r = 500)
  /\ (status r <> 200 -> snd (post_bookings en req db) = db)
  /\ (status r = 500 <->
      br_seatIds req = NotAnArray
      /\ truthy_string (br_eventId req) = true
      /\ truthy_string (br_sessionId req) = true
      /\ truthy_string (br_userEmail req) = true
      /\ truthy_string (br_userName req) = true)
  /\ (status r = 404 ->
      exists eventId, br_eventId req = Some eventId
                      /\ select_event eventId db = None).
Proof.
  cbv zeta. split; [|split; [|split]].
  - unfold post_bookings.
    destruct (br_eventId req); destruct (br_seatIds req);
      destruct (br_sessionId req); destruct (br_userEmail req);
      destruct (br_userName req); cbn [fst status]; auto;
      destruct (_ || _); cbn [fst status]; auto 6.
    destruct (negb _); cbn [fst status]; auto.
    destruct (select_event _ _); cbn [fst status]; auto.
  - apply post_bookings_not_200.
  - unfold post_bookings.
    destruct (br_eventId req) as [e|]; destruct (br_seatIds req);
      destruct (br_sessionId req) as [sid|];
      destruct (br_userEmail req) as [em|];
      destruct (br_userName req) as [nm|]; cbn [fst status];
      try (split; [discriminate | cbn [truthy_string]; intuition discriminate]).
    + destruct (truthy_string (Some e)); destruct (truthy_string (Some sid));
        destruct (truthy_string (Some em)); destruct (truthy_string (Some nm));
        cbn [negb orb fst status];
        (split; [try discriminate; auto | intuition discriminate]).
    + destruct (_ || _); cbn [fst status];
        [split; [discriminate | intuition discriminate]|].
      destruct (negb _); cbn [fst status];
        [split; [discriminate | intuition discriminate]|].
      destruct (select_event e db); cbn [fst status];
        (split; [discriminate | intuition discriminate]).
  - unfold post_bookings.
    destruct (br_eventId req) as [e|]; destruct (br_seatIds req);
      destruct (br_sessionId req); destruct (br_userEmail req);
      destruct (br_userName req); cbn [fst status]; try discriminate;
      destruct (_ || _); cbn [fst status]; try discriminate.
    destruct (negb _); cbn [fst status]; try discriminate.
    destruct (select_event e db) eqn:Ev; cbn [fst status]; try discriminate.
    intros _. exists e. auto.
Qed.

(** A booking request with an empty seat list passes the lock check: for
    an existing event it is answered 200 with total 0 and 0 seats, a
    pending booking of amount 0 is added when the id drawn is new, and no
    booking seat is written. *)
Theorem empty_seat_list_is_booked (en : env) (eventId sessionId : string)
    (userEmail userName : string) (userPhone : option string) (db : database)
    (ev : event)
    (HE : eventId <> "") (HS : sessionId <> "")
    (Hemail : userEmail <> "") (Hname : userName <> "")
    (Hev : select_event eventId db = Some ev) :
  let req :=
    mk_booking_request (Some eventId) (SeatIds []) (Some sessionId)
      (Some userEmail) (Some userName) userPhone in
  let db' := snd (post_bookings en req db) in
  fst (post_bookings en req db)
  = mk_response 200 (BookingCreated (uuidv4 en 0) 0 0)
  /\ booking_seats db' = booking_seats db
  /\ (~ In (uuidv4 en 0) (map b_id (bookings db)) ->
      bookings db'
      = (bookings db
         ++ [mk_booking (uuidv4 en 0) eventId userEmail userName
               (phone_or_null userPhone) 0 "pending" None])%list).
Proof.
  cbv zeta. rewrite post_bookings_cases by assumption.
  unfold select_session_locks. cbn [List.length].
  assert (L : forall ls, List.length
                (map sl_seat_id
                   (filter (session_lock_test (now en) eventId sessionId [])
                      ls)) = 0%nat).
  { induction ls as [|a ls IH]; [reflexivity|]. simpl.
    unfold session_lock_test at 1. cbn [sql_in existsb].
    rewrite andb_false_r. cbn [andb]. exact IH. }
  rewrite L. cbn [Nat.eqb negb]. rewrite Hev.
  unfold select_seats. cbn [sql_in existsb].
  assert (F : filter (fun _ : seat => false) (seats db) = []).
  { induction (seats db) as [|a ls IH]; [reflexivity | exact IH]. }
  rewrite F. unfold order_by_id.
  cbn [fold_right total_amount fold_left List.length insert_booking_seats
       fst snd].
  split; [reflexivity|]. split.
  - destruct (delete_session_locks_frame eventId (Some sessionId)
                (insert_booking
                   (mk_booking (uuidv4 en 0) eventId userEmail userName
                      (phone_or_null userPhone) 0 "pending" None) db))
      as [_ [_ [_ [A _]]]].
    rewrite A. apply insert_booking_booking_seats.
  - intros Hid.
    destruct (delete_session_locks_frame eventId (Some sessionId)
                (insert_booking
                   (mk_booking (uuidv4 en 0) eventId userEmail userName
                      (phone_or_null userPhone) 0 "pending" None) db))
      as [_ [_ [A _]]].
    rewrite A. apply insert_booking_new; [exact Hid | reflexivity].
Qed.

Lemma empty_seat_list_is_booked_witness :
  fst (post_bookings (demo_env 0 "b")
         (mk_booking_request (Some "E1") (SeatIds []) (Some "X")
            (Some "ada@example.org") (Some "Ada") None) demo_db)
  = mk_response 200 (BookingCreated (uuidv4 (demo_env 0 "b") 0) 0 0).
Proof.
  assert (HE : "E1" <> "") by discriminate.
  assert (HS : "X" <> "") by discriminate.
  assert (Hemail : "ada@example.org" <> "") by discriminate.
  assert (Hname : "Ada" <> "") by discriminate.
  assert (Hev : select_event "E1" demo_db
                = Some (mk_event "E1" "V1" "Rock Symphony Night" 75 None None
                          "active")) by reflexivity.
  exact (proj1 (empty_seat_list_is_booked (demo_env 0 "b") "E1" "X"
                  "ada@example.org" "Ada" None demo_db _
                  HE HS Hemail Hname Hev)).
Defined.

Lemma select_seats_unknown (seatIds : list string) (db : database) :
  (forall s, In s seatIds -> is_seat s db = false) ->
  select_seats seatIds db = [].
Proof.
  intros H.
  destruct (select_seats seatIds db) as [|x l] eqn:E; [reflexivity|].
  assert (Hx : In x (select_seats seatIds db)) by (rewrite E; now left).
  apply select_seats_In in Hx. destruct Hx as [Hx Hid].
  apply H in Hid. exfalso.
  assert (T : is_seat (s_id x) db = true).
  { apply is_seat_In. exists x. auto. }
  congruence.
Qed.

(** The booking route looks the requested ids up in [seats] only after the
    lock check, and prices the rows it finds.  When none of the requested
    ids names a seat and the request is answered 200, the answer is a
    booking of 0 seats for a total of 0, and no booking seat is written. *)
Theorem unknown_seats_are_booked_for_nothing (en : env) (eventId : string)
    (seatIds : list string) (sessionId userEmail userName : string)
    (userPhone : option string) (db : database)
    (HE : eventId <> "") (HS : sessionId <> "")
    (Hemail : userEmail <> "") (Hname : userName <> "")
    (Hunknown : forall s, In s seatIds -> is_seat s db = false)
    (H200 : status
              (fst (post_bookings en
                      (mk_booking_request (Some eventId) (SeatIds seatIds)
                         (Some sessionId) (Some userEmail) (Some userName)
                         userPhone) db)) = 200) :
  let req :=
    mk_booking_request (Some eventId) (SeatIds seatIds)
            (Some sessionId)
      (Some userEmail) (Some userName) userPhone in
  fst (post_bookings en req db)
  = mk_response 200 (BookingCreated (uuidv4 en 0) 0 0)
  /\ booking_seats (snd (post_bookings en req db)) = booking_seats db.
Proof.
  cbv zeta. revert H200. rewrite post_bookings_cases by assumption.
  destruct (negb _); [discriminate|].
  destruct (select_event eventId db) as [ev|]; [|discriminate].
  intros _. rewrite (select_seats_unknown seatIds db Hunknown).
  cbn [total_amount fold_left List.length insert_booking_seats fst snd].
  split; [reflexivity|].
  destruct (delete_session_locks_frame eventId (Some sessionId)
              (insert_booking
                 (mk_booking (uuidv4 en 0) eventId userEmail userName
                    (phone_or_null userPhone) 0 "pending" None) db))
    as [_ [_ [_ [A _]]]].
  rewrite A. apply insert_booking_booking_seats.
Qed.

Lemma unknown_seats_are_booked_for_nothing_witness :
  fst (post_bookings (demo_env 1000 "b")
         (mk_booking_request (Some "E1") (SeatIds ["no-such-seat"])
            (Some "X")
            (Some "ada@example.org") (Some "Ada") None)
         (run [(demo_env 0 "x", demo_lock "E1" ["no-such-seat"] "X")]
            demo_db))
  = mk_response 200 (BookingCreated (uuidv4 (demo_env 1000 "b") 0) 0 0).
Proof.
  assert (HE : "E1" <> "") by discriminate.
  assert (HS : "X" <> "") by discriminate.
  assert (Hemail : "ada@example.org" <> "") by discriminate.
  assert (Hname : "Ada" <> "") by discriminate.
  assert (Hunknown : forall s, In s ["no-such-seat"] ->
            is_seat s
              (run [(demo_env 0 "x", demo_lock "E1" ["no-such-seat"] "X")]
                 demo_db) = false).
  { intros s [<-|[]]. vm_compute. reflexivity. }
  assert (H200 : status
            (fst (post_bookings (demo_env 1000 "b")
                    (mk_booking_request (Some "E1") (SeatIds ["no-such-seat"])
                       (Some "X") (Some "ada@example.org") (Some "Ada") None)
                    (run [(demo_env 0 "x",
                           demo_lock "E1" ["no-such-seat"] "X")] demo_db)))
            = 200) by (vm_compute; reflexivity).
  exact (proj1 (unknown_seats_are_booked_for_nothing (demo_env 1000 "b") "E1"
                  ["no-such-seat"] "X" "ada@example.org" "Ada" None _
                  HE HS Hemail Hname Hunknown H200)).
Defined.

(** * The seat map *)






(** ** ORDER BY *)











(** * Further properties of the payment route *)

(** Two payment runs for one booking that both got past the already-paid
    guard before either finished (the handler awaits its simulated delay
    in between), both accepted: each answers 200 and each records a
    completed payment of the booking's total. *)
Theorem interleaved_payments_charge_twice (en1 en2 : env)
    (req : payment_request) (db : database) (bookingId method : string)
    (b : booking)
    (Hbegin : pay_begin req db = inr (bookingId, method, b))
    (Hacc1 : declined en1 = false) (Hacc2 : declined en2 = false)
    (Hid1 : ~ In (uuidv4 en1 0) (map p_id (payments db)))
    (Hid2 : ~ In (uuidv4 en2 0) (map p_id (payments db)))
    (Hne : uuidv4 en1 0 <> uuidv4 en2 0)
    (Hnan : is_nan (b_total_amount b) = false) :
  let db1 := snd (pay_finish en1 bookingId method b db) in
  let db2 := snd (pay_finish en2 bookingId method b db1) in
  status (fst (pay_finish en1 bookingId method b db)) = 200
  /\ status (fst (pay_finish en2 bookingId method b db1)) = 200
  /\ payments db2
     = (payments db
        ++ [payment_row en1 bookingId method b;
            payment_row en2 bookingId method b])%list.
Proof.
  cbv zeta. apply pay_begin_inr in Hbegin.
  destruct Hbegin as [_ [_ [_ [_ [Hb _]]]]].
  destruct (pay_finish_accepted en1 bookingId method b b db Hacc1 Hb)
    as [R1 [S1 P1]].
  specialize (P1 Hid1 Hnan).
  destruct (pay_finish_accepted en2 bookingId method b _
              (snd (pay_finish en1 bookingId method b db)) Hacc2 S1)
    as [R2 [_ P2]].
  rewrite R1, R2. split; [reflexivity|]. split; [reflexivity|].
  rewrite P2; [| |exact Hnan].
  - rewrite P1, <- app_assoc. reflexivity.
  - rewrite P1, map_app, in_app_iff. intros [H|[H|[]]]; [now apply Hid2|].
    cbn in H. congruence.
Qed.

Lemma interleaved_payments_charge_twice_witness :
  payments
    (snd (pay_finish (demo_env 4000 "q") "b00" "card"
            (mk_booking "b00" "E1" "ada@example.org" "Ada" None 150
               "pending" None)
            (snd (pay_finish (demo_env 3000 "p") "b00" "card"
                    (mk_booking "b00" "E1" "ada@example.org" "Ada" None 150
                       "pending" None) demo_db_pending))))
  = (payments demo_db_pending
     ++ [payment_row (demo_env 3000 "p") "b00" "card"
           (mk_booking "b00" "E1" "ada@example.org" "Ada" None 150
              "pending" None);
         payment_row (demo_env 4000 "q") "b00" "card"
           (mk_booking "b00" "E1" "ada@example.org" "Ada" None 150
              "pending" None)])%list.
Proof.
  assert (Hbegin : pay_begin (demo_payment "b00") demo_db_pending
                   = inr ("b00", "card",
                          mk_booking "b00" "E1" "ada@example.org" "Ada" None
                            150 "pending" None))
    by (vm_compute; reflexivity).
  assert (Hacc1 : declined (demo_env 3000 "p") = false)
    by (vm_compute; reflexivity).
  assert (Hacc2 : declined (demo_env 4000 "q") = false)
    by (vm_compute; reflexivity).
  assert (Hid1 : ~ In (uuidv4 (demo_env 3000 "p") 0)
                   (map p_id (payments demo_db_pending)))
    by (vm_compute; tauto).
  assert (Hid2 : ~ In (uuidv4 (demo_env 4000 "q") 0)
                   (map p_id (payments demo_db_pending)))
    by (vm_compute; tauto).
  assert (Hne : uuidv4 (demo_env 3000 "p") 0 <> uuidv4 (demo_env 4000 "q") 0)
    by (vm_compute; discriminate).
  assert (Hnan : is_nan 150 = false) by reflexivity.
  exact (proj2 (proj2
    (interleaved_payments_charge_twice (demo_env 3000 "p")
       (demo_env 4000 "q") (demo_payment "b00") demo_db_pending "b00" "card"
       _ Hbegin Hacc1 Hacc2 Hid1 Hid2 Hne Hnan))).
Defined.

Lemma pay_finish_frame (en : env) (bookingId method : string) (b : booking)
    (db : database) :
  let db' := snd (pay_finish en bookingId method b db) in
  seats db' = seats db /\ events db' = events db
  /\ seat_locks db' = seat_locks db /\ booking_seats db' = booking_seats db.
Proof.
  unfold pay_finish. destruct (declined en); cbn [snd]; [tauto|].
  unfold confirm_booking, insert_payment. destruct (_ || _); cbn; tauto.
Qed.

(** The payment route answers 200, 400, 402 or 404.  Every answer other
    than 200 leaves the database exactly as it was; 404 means that no
    booking has the given id; and whatever the answer, [seats], [events],
    [seat_locks] and [booking_seats] are not touched. *)
Theorem failed_payment_changes_nothing (en : env) (req : payment_request)
    (db : database) :
  let r := fst (post_payments en req db) in
  let db' := snd (post_payments en req db) in
  (status r = 200 \/ status r = 400 \/ status r = 402 \/ status r = 404)
  /\ (status r <> 200 -> db' = db)
  /\ (status r = 404 ->
      exists bookingId, pr_bookingId req = Some bookingId
                        /\ select_booking bookingId db = None)
  /\ seats db' = seats db /\ events db' = events db
  /\ seat_locks db' = seat_locks db /\ booking_seats db' = booking_seats db.
Proof.
  cbv zeta. unfold post_payments.
  destruct (pay_begin req db) as [r|[[bid m] b]] eqn:E.
  - cbn [fst snd]. unfold pay_begin in E.
    destruct (pr_bookingId req) as [bid|]; destruct (pr_method req) as [m|];
      try (inversion E; subst; cbn; repeat split; auto; discriminate).
    destruct (_ || _);
      try (inversion E; subst; cbn; repeat split; auto; discriminate).
    destruct (select_booking bid db) as [b|] eqn:Hb.
    + destruct (String.eqb (b_status b) "confirmed"); inversion E; subst.
      cbn. repeat split; auto; discriminate.
    + inversion E; subst. cbn. repeat split; auto.
      intros _. exists bid. auto.
  - destruct (pay_finish_frame en bid m b db) as [F1 [F2 [F3 F4]]].
    cbv zeta in F1, F2, F3, F4. rewrite F1, F2, F3, F4.
    unfold pay_finish. destruct (declined en); cbn [fst snd status].
    + repeat split; auto; discriminate.
    + repeat split; auto; try discriminate. congruence.
Qed.

(** * What the tables keep *)

Lemma extends_refl (db : database) : extends db db.
Proof.
  unfold extends. repeat split; try (exists []; now rewrite app_nil_r).
  intros id b H S. eauto.
Qed.

Lemma extends_trans (a b c : database) :
  extends a b -> extends b c -> extends a c.
Proof.
  unfold extends.
  intros [A1 [A2 [[n3 A3] [[n4 A4] [[n5 A5] A6]]]]]
         [B1 [B2 [[m3 B3] [[m4 B4] [[m5 B5] B6]]]]].
  split; [congruence|]. split; [congruence|].
  split; [exists (n3 ++ m3)%list; now rewrite B3, A3, app_assoc|].
  split; [exists (n4 ++ m4)%list; now rewrite B4, A4, app_assoc|].
  split; [exists (n5 ++ m5)%list; now rewrite B5, A5, app_assoc|].
  intros id x H S. destruct (A6 id x H S) as [y [Hy Sy]].
  exact (B6 id y Hy Sy).
Qed.

(** A step that leaves all tables but [seat_locks] alone. *)
Lemma extends_locks_only (db db' : database) :
  seats db' = seats db -> events db' = events db ->
  bookings db' = bookings db -> booking_seats db' = booking_seats db ->
  payments db' = payments db -> extends db db'.
Proof.
  intros H1 H2 H3 H4 H5. unfold extends, select_booking.
  rewrite H1, H2, H3, H4, H5.
  repeat split; try (exists []; now rewrite app_nil_r).
  intros id b H S. eauto.
Qed.

Lemma find_app_some {A : Type} (f : A -> bool) (l l' : list A) (x : A) :
  find f l = Some x -> find f (l ++ l') = Some x.
Proof.
  induction l as [|a l IH]; simpl; [discriminate|].
  destruct (f a); auto.
Qed.

Lemma insert_booking_extends (new : booking) (db : database) :
  extends db (insert_booking new db).
Proof.
  unfold insert_booking. destruct (_ || _); [apply extends_refl|].
  unfold extends, select_booking. cbn.
  repeat split; try (exists []; now rewrite app_nil_r).
  - exists [booking_core new]. now rewrite map_app.
  - intros id b H S. exists b. split; [|exact S].
    now apply find_app_some.
Qed.

Lemma insert_booking_seat_extends (new : booking_seat) (db : database) :
  extends db (insert_booking_seat new db).
Proof.
  unfold insert_booking_seat. destruct (_ || _); [apply extends_refl|].
  unfold extends, select_booking. cbn.
  repeat split; try (exists []; now rewrite app_nil_r).
  - now exists [new].
  - intros id b H S. eauto.
Qed.

Lemma insert_booking_seats_extends (en : env) (bookingId : string)
    (ev : event) (rows : list seat) :
  forall (i : nat) (db : database),
  extends db (insert_booking_seats en bookingId ev i rows db).
Proof.
  induction rows as [|s rows IH]; simpl; intros i db; [apply extends_refl|].
  eapply extends_trans; [apply insert_booking_seat_extends | apply IH].
Qed.

Lemma delete_session_locks_extends (eventId : string)
    (sessionId : option string) (db : database) :
  extends db (delete_session_locks eventId sessionId db).
Proof.
  destruct (delete_session_locks_frame eventId sessionId db)
    as [A [B [C [D E]]]].
  now apply extends_locks_only.
Qed.

Lemma select_after_confirm_other (bookingId qrCode id : string)
    (db : database) (b : booking) :
  select_booking id db = Some b ->
  exists b', select_booking id (confirm_booking bookingId qrCode db) = Some b'
             /\ (b' = b \/ b' = confirmed b qrCode).
Proof.
  unfold select_booking, confirm_booking. cbn [bookings set_bookings].
  induction (bookings db) as [|a l IH]; simpl; [discriminate|].
  destruct (String.eqb (b_id a) id) eqn:E.
  - intros H. inversion H; subst.
    destruct (String.eqb (b_id b) bookingId); simpl; rewrite E; eauto.
  - intros H.
    destruct (String.eqb (b_id a) bookingId); simpl; rewrite E; auto.
Qed.

Lemma pay_finish_extends (en : env) (bookingId method : string) (b : booking)
    (db : database) :
  extends db (snd (pay_finish en bookingId method b db)).
Proof.
  unfold pay_finish. destruct (declined en); cbn [snd];
    [apply extends_refl|].
  unfold extends. cbn [seats events booking_seats payments bookings
                       confirm_booking set_bookings].
  assert (F : seats (insert_payment (payment_row en bookingId method b) db)
              = seats db
              /\ events (insert_payment (payment_row en bookingId method b) db)
                 = events db
              /\ booking_seats
                   (insert_payment (payment_row en bookingId method b) db)
                 = booking_seats db).
  { unfold insert_payment. destruct (_ || _); cbn; tauto. }
  destruct F as [F1 [F2 F3]]. rewrite F1, F2, F3.
  split; [reflexivity|]. split; [reflexivity|].
  split; [exists []; now rewrite app_nil_r|].
  split.
  { unfold insert_payment. destruct (_ || _); cbn.
    - exists []. now rewrite app_nil_r.
    - now exists [payment_row en bookingId method b]. }
  split.
  { exists []. rewrite app_nil_r, insert_payment_bookings, map_map.
    apply map_ext. intros a. now destruct (String.eqb (b_id a) bookingId). }
  intros id x H S.
  rewrite <- (select_booking_insert_payment id
                (payment_row en bookingId method b)) in H.
  destruct (select_after_confirm_other bookingId
              (qr_data_url en bookingId (transaction_id en) (now en)) id _ x H)
    as [y [Hy [Ey|Ey]]]; exists y; (split; [exact Hy|]); subst y;
    [exact S | reflexivity].
Qed.

Lemma post_seats_lock_extends (en : env) (eventId : string)
    (req : lock_request) (db : database) :
  extends db (snd (post_seats_lock en eventId req db)).
Proof.
  unfold post_seats_lock.
  destruct (lr_seatIds req) as [[|s ids]|]; cbn [snd];
    try apply extends_refl.
  destruct (lr_sessionId req) as [sid|]; cbn [snd]; try apply extends_refl.
  destruct (String.eqb sid ""); cbn [snd]; try apply extends_refl.
  destruct (select_unavailable _ _ _ _ _); cbn [snd].
  - pose proof (insert_locks_frame en eventId sid
                  (Clock.toISOString (lock_expiry en)) (s :: ids) 0
                  (delete_session_locks eventId (Some sid)
                     (cleanExpiredLocks (now en) db))) as F.
    cbv zeta in F. destruct F as [F1 [F2 [F3 [F4 F5]]]].
    now apply extends_locks_only.
  - now apply extends_locks_only.
Qed.

Lemma post_bookings_extends (en : env) (req : booking_request)
    (db : database) :
  extends db (snd (post_bookings en req db)).
Proof.
  unfold post_bookings.
  destruct (br_eventId req) as [e|]; destruct (br_seatIds req) as [| |ids];
    destruct (br_sessionId req) as [sid|];
    destruct (br_userEmail req) as [em|];
    destruct (br_userName req) as [nm|]; cbn [snd]; try apply extends_refl;
    destruct (_ || _); cbn [snd]; try apply extends_refl.
  destruct (negb _); cbn [snd]; try apply extends_refl.
  destruct (select_event e db) as [ev|]; cbn [snd]; try apply extends_refl.
  eapply extends_trans; [apply insert_booking_extends|].
  eapply extends_trans; [apply insert_booking_seats_extends|].
  apply delete_session_locks_extends.
Qed.

Lemma post_payments_extends (en : env) (req : payment_request)
    (db : database) :
  extends db (snd (post_payments en req db)).
Proof.
  unfold post_payments.
  destruct (pay_begin req db) as [r0|[[bid m] b]]; cbn [snd];
    [apply extends_refl | apply pay_finish_extends].
Qed.

Lemma handle_extends (en : env) (rq : request) (db : database) :
  extends db (snd (handle en rq db)).
Proof.
  destruct rq as [e|e req|e sid|req|req|bid m b|]; simpl.
  - unfold get_seats. destruct (select_event e db); cbn [snd];
      [|apply extends_refl].
    now apply extends_locks_only.
  - pose proof (post_seats_lock_extends en e req db) as H.
    now destruct (post_seats_lock en e req db).
  - apply delete_session_locks_extends.
  - pose proof (post_bookings_extends en req db) as H.
    now destruct (post_bookings en req db).
  - pose proof (post_payments_extends en req db) as H.
    now destruct (post_payments en req db).
  - pose proof (pay_finish_extends en bid m b db) as H.
    now destruct (pay_finish en bid m b db).
  - now apply extends_locks_only.
Qed.

(** No sequence of requests and reaper ticks, payment runs interleaved or
    not, ever changes [seats] or [events], removes or alters a
    [booking_seats] or [payments] row, removes a booking or alters what it
    records of the purchase, or takes a booking back from [confirmed]:
    the price stored with a booked seat stays what it was at booking
    time. *)
Theorem recorded_sales_are_kept (steps : list (env * request))
    (db : database) :
  extends db (run steps db)
  /\ forall bs, In bs (booking_seats db) ->
                In bs (booking_seats (run steps db)).
Proof.
  assert (H : extends db (run steps db)).
  { revert db. induction steps as [|[en rq] rest IH]; simpl; intros db;
      [apply extends_refl|].
    eapply extends_trans; [apply handle_extends | apply IH]. }
  split; [exact H|].
  destruct H as [_ [_ [[new E] _]]]. intros bs Hbs.
  rewrite E. apply in_or_app. now left.
Qed.

(** * Seeding the seats of a venue *)

Lemma rowLabels_length : List.length rowLabels = 20%nat.
Proof. reflexivity. Qed.

Lemma rowLabels_NoDup : NoDup rowLabels.
Proof.
  unfold rowLabels.
  repeat (constructor; [simpl; intuition discriminate|]). constructor.
Qed.

Lemma seed_row_some (uuid : nat -> string) (venueId : string) (r : nat)
    (label : string) :
  nth_error rowLabels r = Some label ->
  forall (n k : nat) (s : Z),
  exists row,
    seed_row uuid venueId r k s n = Some row
    /\ List.length row = n
    /\ (forall x, In x row ->
          s_venue_id x = venueId /\ s_row_label x = label
          /\ s_tier x = seed_tier r /\ s <= s_seat_number x < s + Z.of_nat n
          /\ exists j, (k <= j < k + n)%nat /\ s_id x = uuid j)
    /\ NoDup (map s_seat_number row).
Proof.
  intros Hl. induction n as [|n IH]; intros k s.
  - exists []. simpl. split; [reflexivity|]. split; [reflexivity|].
    split; [intros y []|constructor].
  - simpl. rewrite Hl.
    destruct (IH (S k) (s + 1)) as [row [E [Hlen [Hin Hnd]]]].
    rewrite E. exists (mk_seat (uuid k) venueId label s (seed_tier r) :: row).
    split; [reflexivity|]. split; [simpl; now rewrite Hlen|]. split.
    + intros x [<-|Hx].
      * cbn. repeat split; try lia. exists k. split; [lia|reflexivity].
      * destruct (Hin x Hx) as [A [B [C [D [j [Hj Ej]]]]]].
        repeat split; auto; try lia. exists j. split; [lia|exact Ej].
    + simpl. constructor; [|exact Hnd].
      intros H. apply in_map_iff in H. destruct H as [x [Ex Hx]].
      destruct (Hin x Hx) as [_ [_ [_ [D _]]]]. lia.
Qed.

Lemma seed_rows_some (uuid : nat -> string) (venueId : string) (spr : nat) :
  forall (n r k : nat),
  (r + n <= 20)%nat ->
  exists l,
    seed_rows uuid venueId spr r k n = Some l
    /\ List.length l = (n * spr)%nat
    /\ (forall x, In x l ->
          s_venue_id x = venueId
          /\ 1 <= s_seat_number x <= Z.of_nat spr
          /\ (exists i, (r <= i < r + n)%nat
                        /\ nth_error rowLabels i = Some (s_row_label x)
                        /\ s_tier x = seed_tier i)
          /\ exists j, (k <= j < k + n * spr)%nat /\ s_id x = uuid j)
    /\ NoDup (map (fun x => (s_row_label x, s_seat_number x)) l).
Proof.
  induction n as [|n IH]; intros r k Hr.
  - exists []. simpl. split; [reflexivity|]. split; [reflexivity|].
    split; [intros y []|constructor].
  - simpl.
    destruct (nth_error rowLabels r) as [label|] eqn:Hl.
    2:{ apply nth_error_None in Hl. rewrite rowLabels_length in Hl. lia. }
    destruct (seed_row_some uuid venueId r label Hl spr k 1)
      as [row [E [Hlen [Hin Hnd]]]].
    rewrite E.
    destruct (IH (S r) (k + spr)%nat ltac:(lia)) as [l [El [Hl2 [Hin2 Hnd2]]]].
    rewrite El. exists (row ++ l)%list. split; [reflexivity|].
    split; [rewrite length_app, Hlen, Hl2; lia|]. split.
    + intros x Hx. apply in_app_or in Hx. destruct Hx as [Hx|Hx].
      * destruct (Hin x Hx) as [A [B [C [D [j [Hj Ej]]]]]].
        split; [exact A|]. split; [lia|]. split.
        -- exists r. split; [lia|]. now rewrite B.
        -- exists j. split; [lia|exact Ej].
      * destruct (Hin2 x Hx) as [A [B [[i [Hi [Li Ti]]] [j [Hj Ej]]]]].
        split; [exact A|]. split; [exact B|]. split.
        -- exists i. split; [lia|]. auto.
        -- exists j. split; [lia|exact Ej].
    + rewrite map_app. apply NoDup_app.
      * rewrite (map_ext_in _ (fun x => (label, s_seat_number x))).
        -- rewrite <- (map_map s_seat_number (pair label)).
           apply Injective_map_NoDup; [|exact Hnd].
           intros a b H. now inversion H.
        -- intros x Hx. destruct (Hin x Hx) as [_ [B _]]. now rewrite B.
      * exact Hnd2.
      * intros p Hp Hp2. apply in_map_iff in Hp, Hp2.
        destruct Hp as [x [Ex Hx]]. destruct Hp2 as [y [Ey Hy]].
        destruct (Hin x Hx) as [_ [B _]].
        destruct (Hin2 y Hy) as [_ [_ [[i [Hi [Li _]]] _]]].
        assert (Elab : s_row_label y = label).
        { rewrite <- B. rewrite <- Ex in Ey. now inversion Ey. }
        rewrite Elab in Li.
        assert (i = r).
        { apply (proj1 (NoDup_nth_error rowLabels) rowLabels_NoDup);
            [apply nth_error_Some; congruence | congruence]. }
        lia.
Qed.

(** For a venue with at most 20 rows, [seedDatabase] hands the seats table
    [rows * seats_per_row] seats, all of the venue, no two with the same
    row label and seat number; the seat numbers run from 1 to
    [seats_per_row]; the row label is the letter of the row index, and
    the tier follows the index: the first two rows are [vip], the next
    three [premium], every further row [standard]. *)
Theorem seeded_seats_of_a_venue (uuid : nat -> string) (k : nat) (v : venue)
    (Hrows : v_rows v <= 20) :
  exists l,
    seed_venue_seats uuid k v = Some l
    /\ Z.of_nat (List.length l) = Z.max 0 (v_rows v) * Z.max 0 (v_seats_per_row v)
    /\ NoDup (map (fun x => (s_row_label x, s_seat_number x)) l)
    /\ forall x, In x l ->
         s_venue_id x = v_id v
         /\ 1 <= s_seat_number x <= v_seats_per_row v
         /\ exists i, (Z.of_nat i < v_rows v)
                      /\ nth_error rowLabels i = Some (s_row_label x)
                      /\ ((i < 2)%nat -> s_tier x = "vip")
                      /\ ((2 <= i < 5)%nat -> s_tier x = "premium")
                      /\ ((5 <= i)%nat -> s_tier x = "standard").
Proof.
  unfold seed_venue_seats.
  destruct (seed_rows_some uuid (v_id v) (Z.to_nat (v_seats_per_row v))
              (Z.to_nat (v_rows v)) 0 k ltac:(lia))
    as [l [E [Hlen [Hin Hnd]]]].
  exists l. split; [exact E|]. split; [rewrite Hlen; lia|].
  split; [exact Hnd|].
  intros x Hx. destruct (Hin x Hx) as [A [B [[i [Hi [Li Ti]]] _]]].
  split; [exact A|]. split; [lia|].
  exists i. split; [lia|]. split; [exact Li|].
  rewrite Ti. unfold seed_tier.
  repeat split; intros H.
  - destruct (Nat.ltb_spec i 2); [reflexivity|lia].
  - destruct (Nat.ltb_spec i 2); [lia|].
    destruct (Nat.ltb_spec i 5); [reflexivity|lia].
  - destruct (Nat.ltb_spec i 2); [lia|].
    destruct (Nat.ltb_spec i 5); [lia|reflexivity].
Qed.

Lemma seeded_seats_of_a_venue_witness :
  exists l,
    seed_venue_seats (demo_uuid "s") 3
      (mk_venue "v0" "Grand Concert Hall" "123 Music Avenue" "New York"
         300 15 20) = Some l
    /\ Z.of_nat (List.length l) = Z.max 0 15 * Z.max 0 20.
Proof.
  assert (H : v_rows (mk_venue "v0" "Grand Concert Hall" "123 Music Avenue"
                        "New York" 300 15 20) <= 20)
    by (cbn; lia).
  destruct (seeded_seats_of_a_venue (demo_uuid "s") 3 _ H)
    as [l [E [L _]]].
  exists l. split; [exact E | exact L].
Defined.

(** ** The inserts of the seeding *)

Lemma seed_row_ids (uuid : nat -> string) (venueId : string) (r : nat) :
  forall (n k : nat) (s : Z) (row : list seat),
  seed_row uuid venueId r k s n = Some row ->
  map s_id row = map uuid (seq k n).
Proof.
  induction n as [|n IH]; intros k s row; cbn [seed_row].
  - intros H. inversion H. reflexivity.
  - destruct (nth_error rowLabels r) as [label|]; [|discriminate].
    destruct (seed_row uuid venueId r (S k) (s + 1) n) as [rest|] eqn:E;
      [|discriminate].
    intros H. inversion H. cbn [map seq s_id]. f_equal. now apply (IH _ (s + 1)).
Qed.

Lemma seed_rows_ids (uuid : nat -> string) (venueId : string) (spr : nat) :
  forall (n r k : nat) (l : list seat),
  seed_rows uuid venueId spr r k n = Some l ->
  map s_id l = map uuid (seq k (n * spr)).
Proof.
  induction n as [|n IH]; intros r k l; cbn [seed_rows].
  - intros H. inversion H. reflexivity.
  - destruct (seed_row uuid venueId r k 1 spr) as [row|] eqn:E1;
      [|discriminate].
    destruct (seed_rows uuid venueId spr (S r) (k + spr) n) as [rest|] eqn:E2;
      [|discriminate].
    intros H. inversion H. cbn [Nat.mul].
    rewrite map_app, seq_app, map_app.
    now rewrite (seed_row_ids _ _ _ _ _ _ _ E1), (IH _ _ _ E2).
Qed.

(** The rows handed to the inserts for one venue. *)
Lemma seed_venue_seats_rows (uuid : nat -> string) (k : nat) (v : venue) :
  v_rows v <= 20 ->
  exists l,
    seed_venue_seats uuid k v = Some l
    /\ List.length l
       = (Z.to_nat (v_rows v) * Z.to_nat (v_seats_per_row v))%nat
    /\ map s_id l = map uuid (seq k (List.length l))
    /\ (forall x, In x l -> s_venue_id x = v_id v)
    /\ NoDup (map seat_key l).
Proof.
  intros Hrows. unfold seed_venue_seats.
  destruct (seed_rows_some uuid (v_id v) (Z.to_nat (v_seats_per_row v))
              (Z.to_nat (v_rows v)) 0 k ltac:(lia))
    as [l [E [Hlen [Hin Hnd]]]].
  exists l. split; [exact E|]. split; [exact Hlen|]. split.
  - rewrite Hlen. exact (seed_rows_ids _ _ _ _ _ _ _ E).
  - split; [intros x Hx; now destruct (Hin x Hx)|].
    unfold seat_key.
    rewrite (map_ext_in _
               (fun x => (v_id v, s_row_label x, s_seat_number x))).
    + rewrite <- (map_map (fun x => (s_row_label x, s_seat_number x))
                    (fun p => (v_id v, fst p, snd p))).
      apply Injective_map_NoDup; [|exact Hnd].
      intros [a b] [c d] H. now inversion H.
    + intros x Hx. destruct (Hin x Hx) as [A _]. now rewrite A.
Qed.

Lemma insert_venue_iff (new : venue) (table t : list venue) :
  insert_venue new table = Some t
  <-> t = (table ++ [new])%list /\ ~ In (v_id new) (map v_id table).
Proof.
  unfold insert_venue. destruct (existsb _ table) eqn:E.
  - apply existsb_exists in E. destruct E as [old [Hold Eid]].
    apply String.eqb_eq in Eid. split; [discriminate|].
    intros [_ H]. exfalso. apply H. rewrite <- Eid. now apply in_map.
  - split.
    + intros H. inversion H. split; [reflexivity|].
      intros Hin. apply in_map_iff in Hin. destruct Hin as [old [Eid Hold]].
      assert (T : existsb (fun v => String.eqb (v_id v) (v_id new)) table
                  = true).
      { apply existsb_exists. exists old. split; [exact Hold|].
        now apply String.eqb_eq. }
      congruence.
    + now intros [-> _].
Qed.

(** A seats table that meets its two constraints. *)
Lemma seat_clashes_false (new old : seat) :
  seat_clashes new old = false
  <-> s_id old <> s_id new /\ seat_key old <> seat_key new.
Proof.
  unfold seat_clashes, seat_key.
  rewrite orb_false_iff, String.eqb_neq. split.
  - intros [H1 H2]. split; [exact H1|]. intros K. inversion K as [[A B C]].
    rewrite A, B, C, !String.eqb_refl, Z.eqb_refl in H2. discriminate.
  - intros [H1 H2]. split; [exact H1|].
    destruct (String.eqb_spec (s_venue_id old) (s_venue_id new)) as [A|];
      [|reflexivity].
    destruct (String.eqb_spec (s_row_label old) (s_row_label new)) as [B|];
      [|reflexivity].
    destruct (Z.eqb_spec (s_seat_number old) (s_seat_number new)) as [C|];
      [|reflexivity].
    exfalso. apply H2. now rewrite A, B, C.
Qed.

Lemma unique_snoc {A : Type} (l : list A) (x : A) :
  NoDup (l ++ [x]) <-> NoDup l /\ ~ In x l.
Proof.
  split.
  - intros H. apply NoDup_remove in H. now rewrite app_nil_r in H.
  - intros [H1 H2]. apply NoDup_app; [exact H1 | repeat constructor; auto|].
    intros a Ha [<-|[]]. contradiction.
Qed.

Lemma insert_seat_iff (x : seat) (table t : list seat) :
  NoDup (map s_id table) -> NoDup (map seat_key table) ->
  insert_seat x table = Some t
  <-> t = (table ++ [x])%list
      /\ NoDup (map s_id t) /\ NoDup (map seat_key t).
Proof.
  intros W1 W2. unfold insert_seat.
  assert (C : existsb (seat_clashes x) table = false
              <-> ~ In (s_id x) (map s_id table)
                  /\ ~ In (seat_key x) (map seat_key table)).
  { split.
    - intros E. split; intros Hin; apply in_map_iff in Hin;
        destruct Hin as [old [Eo Hold]];
        assert (F : seat_clashes x old = false)
          by (destruct (seat_clashes x old) eqn:G; [|reflexivity];
              rewrite <- E; symmetry; apply existsb_exists; eauto);
        apply seat_clashes_false in F; tauto.
    - intros [H1 H2]. destruct (existsb _ table) eqn:E; [|reflexivity].
      apply existsb_exists in E. destruct E as [old [Hold F]].
      exfalso. destruct (seat_clashes x old) eqn:G; [|discriminate].
      unfold seat_clashes in G. apply orb_true_iff in G.
      destruct G as [G|G].
      + apply String.eqb_eq in G. apply H1. rewrite <- G. now apply in_map.
      + apply andb_true_iff in G. destruct G as [G G3].
        apply andb_true_iff in G. destruct G as [G1 G2].
        apply String.eqb_eq in G1, G2. apply Z.eqb_eq in G3.
        apply H2. apply in_map_iff. exists old. split; [|exact Hold].
        unfold seat_key. now rewrite G1, G2, G3. }
  destruct (existsb _ table) eqn:E.
  - split; [discriminate|]. intros [-> [N1 N2]].
    rewrite map_app in N1, N2. cbn [map] in N1, N2.
    apply unique_snoc in N1, N2.
    assert (F : true = false) by (apply C; tauto). discriminate.
  - destruct (proj1 C eq_refl) as [H1 H2]. split.
    + intros H. inversion H. split; [reflexivity|].
      rewrite !map_app. cbn [map]. split; apply unique_snoc; auto.
    + now intros [-> _].
Qed.

Lemma insert_seats_iff (rows : list seat) :
  forall (table t : list seat),
  NoDup (map s_id table) -> NoDup (map seat_key table) ->
  insert_seats rows table = Some t
  <-> t = (table ++ rows)%list
      /\ NoDup (map s_id t) /\ NoDup (map seat_key t).
Proof.
  induction rows as [|x rows IH]; intros table t W1 W2; cbn [insert_seats].
  - rewrite app_nil_r. split.
    + intros H. inversion H. subst. auto.
    + now intros [-> _].
  - assert (A : ((table ++ [x]) ++ rows = table ++ x :: rows)%list)
      by now rewrite <- app_assoc.
    destruct (insert_seat x table) as [t1|] eqn:E.
    + apply insert_seat_iff in E; [|assumption|assumption].
      destruct E as [-> [N1 N2]]. rewrite (IH _ t N1 N2), A. tauto.
    + split; [discriminate|]. intros [-> [N1 N2]]. exfalso.
      assert (S : insert_seat x table = Some (table ++ [x])%list).
      { apply insert_seat_iff; [assumption|assumption|].
        split; [reflexivity|]. rewrite <- A, map_app in N1, N2.
        split; eapply NoDup_app_remove_r; eassumption. }
      congruence.
Qed.

Lemma filter_all {A : Type} (f : A -> bool) (l : list A) :
  (forall x, In x l -> f x = true) -> filter f l = l.
Proof.
  induction l as [|a l IH]; intros H; cbn [filter]; [reflexivity|].
  rewrite (H a) by now left. f_equal. apply IH. intros x Hx. apply H.
  now right.
Qed.

Lemma filter_none {A : Type} (f : A -> bool) (l : list A) :
  (forall x, In x l -> f x = false) -> filter f l = [].
Proof.
  induction l as [|a l IH]; intros H; cbn [filter]; [reflexivity|].
  rewrite (H a) by now left. apply IH. intros x Hx. apply H. now right.
Qed.

(** Rows of different venues have different keys. *)
Lemma venue_keys_apart (a b : string) (l1 l2 : list seat) :
  a <> b ->
  (forall x, In x l1 -> s_venue_id x = a) ->
  (forall x, In x l2 -> s_venue_id x = b) ->
  forall key, In key (map seat_key l1) -> ~ In key (map seat_key l2).
Proof.
  intros Hab H1 H2 key K1 K2. apply in_map_iff in K1, K2.
  destruct K1 as [x [Ex Hx]]. destruct K2 as [y [Ey Hy]].
  apply Hab. rewrite <- (H1 x Hx), <- (H2 y Hy).
  rewrite <- Ey in Ex. unfold seat_key in Ex. now inversion Ex.
Qed.

(** The venue loop of [seedDatabase], as a whole: the rows of the three
    venues, and when the loop runs through. *)
Lemma seed_tables_run (uuid : nat -> string) :
  exists r0 r1 r2,
    (List.length r0 = 300 /\ List.length r1 = 200 /\ List.length r2 = 500)%nat
    /\ (forall x, In x r0 -> s_venue_id x = uuid 0%nat)
    /\ (forall x, In x r1 -> s_venue_id x = uuid 1%nat)
    /\ (forall x, In x r2 -> s_venue_id x = uuid 2%nat)
    /\ map s_id (r0 ++ r1 ++ r2) = map uuid (seq 3 1000)
    /\ forall venues seats,
         seed_tables uuid = Some (venues, seats)
         <-> NoDup (map uuid (seq 0 3)) /\ NoDup (map uuid (seq 3 1000))
             /\ venues = seed_venues uuid /\ seats = (r0 ++ r1 ++ r2)%list.
Proof.
  set (v0 := mk_venue (uuid 0%nat) "Grand Concert Hall" "123 Music Avenue"
               "New York" 300 15 20).
  set (v1 := mk_venue (uuid 1%nat) "Downtown Theater" "456 Broadway St"
               "Los Angeles" 200 10 20).
  set (v2 := mk_venue (uuid 2%nat) "Metro Arena" "789 Sports Way" "Chicago"
               500 20 25).
  destruct (seed_venue_seats_rows uuid 3 v0 ltac:(cbn; lia))
    as [r0 [E0 [L0 [I0 [V0 K0]]]]].
  destruct (seed_venue_seats_rows uuid (3 + List.length r0) v1
              ltac:(cbn; lia)) as [r1 [E1 [L1 [I1 [V1 K1]]]]].
  destruct (seed_venue_seats_rows uuid
              (3 + List.length r0 + List.length r1) v2 ltac:(cbn; lia))
    as [r2 [E2 [L2 [I2 [V2 K2]]]]].
  change (Z.to_nat (v_rows v0) * Z.to_nat (v_seats_per_row v0))%nat
    with 300%nat in L0.
  change (Z.to_nat (v_rows v1) * Z.to_nat (v_seats_per_row v1))%nat
    with 200%nat in L1.
  change (Z.to_nat (v_rows v2) * Z.to_nat (v_seats_per_row v2))%nat
    with 500%nat in L2.
  assert (Hids : map s_id (r0 ++ r1 ++ r2) = map uuid (seq 3 1000)).
  { rewrite !map_app, I0, I1, I2, L0, L1, L2.
    change 1000%nat with (300 + (200 + 500))%nat.
    now rewrite !seq_app, !map_app. }
  exists r0, r1, r2.
  split; [auto|]. split; [exact V0|]. split; [exact V1|].
  split; [exact V2|]. split; [exact Hids|].
  intros venues seats.
  assert (Hrun :
    seed_tables uuid
    = match insert_venue v0 [] with
      | None => None
      | Some t0 =>
          match insert_seats r0 [] with
          | None => None
          | Some s0 =>
              match insert_venue v1 t0 with
              | None => None
              | Some t1 =>
                  match insert_seats r1 s0 with
                  | None => None
                  | Some s1 =>
                      match insert_venue v2 t1 with
                      | None => None
                      | Some t2 =>
                          match insert_seats r2 s1 with
                          | None => None
                          | Some s2 => Some (t2, s2)
                          end
                      end
                  end
              end
          end
      end).
  { unfold seed_tables, seed_venues. fold v0 v1 v2.
    cbn [seed_venue_loop fst snd].
    destruct (insert_venue v0 []); [|reflexivity]. rewrite E0.
    destruct (insert_seats r0 []); [|reflexivity].
    destruct (insert_venue v1 l); [|reflexivity]. rewrite E1.
    destruct (insert_seats r1 l0); [|reflexivity].
    destruct (insert_venue v2 l1); [|reflexivity]. rewrite E2.
    reflexivity. }
  rewrite Hrun. clear Hrun.
  assert (Hvenues : NoDup (map uuid (seq 0 3))
                    <-> uuid 0%nat <> uuid 1%nat /\ uuid 0%nat <> uuid 2%nat
                        /\ uuid 1%nat <> uuid 2%nat).
  { cbn [seq map]. split.
    - intros H. inversion H as [|a l N1 H1]. inversion H1 as [|b l' N2 _].
      subst. cbn [In] in N1, N2. intuition congruence.
    - intros [A [B C]].
      constructor; [cbn [In]; intuition congruence|].
      constructor; [cbn [In]; intuition congruence|].
      constructor; [intros [] | constructor]. }
  split.
  - destruct (insert_venue v0 []) as [t0|] eqn:A0; [|discriminate].
    apply insert_venue_iff in A0. destruct A0 as [-> _].
    destruct (insert_seats r0 []) as [s0|] eqn:B0; [|discriminate].
    apply insert_seats_iff in B0; [|constructor|constructor].
    destruct B0 as [-> [W1 W2]].
    destruct (insert_venue v1 _) as [t1|] eqn:A1; [|discriminate].
    apply insert_venue_iff in A1. destruct A1 as [-> N1].
    destruct (insert_seats r1 _) as [s1|] eqn:B1; [|discriminate].
    apply insert_seats_iff in B1; [|assumption|assumption].
    destruct B1 as [-> [W3 W4]].
    destruct (insert_venue v2 _) as [t2|] eqn:A2; [|discriminate].
    apply insert_venue_iff in A2. destruct A2 as [-> N2].
    destruct (insert_seats r2 _) as [s2|] eqn:B2; [|discriminate].
    apply insert_seats_iff in B2; [|assumption|assumption].
    destruct B2 as [-> [W5 W6]].
    intros H. inversion H. cbn [app]. cbn [app map v_id In] in N1, N2.
    rewrite <- app_assoc in W5. cbn [app] in W5. rewrite Hids in W5.
    split; [apply Hvenues; intuition congruence|].
    split; [exact W5|]. split; [reflexivity|]. now rewrite <- app_assoc.
  - intros [Hv [Hs [-> ->]]]. apply Hvenues in Hv. destruct Hv as [A [B C]].
    rewrite <- Hids in Hs.
    assert (Hk : NoDup (map seat_key (r0 ++ r1 ++ r2))).
    { rewrite !map_app. apply NoDup_app; [exact K0| |].
      - apply NoDup_app; [exact K1 | exact K2|].
        now apply (venue_keys_apart (uuid 1%nat) (uuid 2%nat)).
      - intros key H0 H12. apply in_app_or in H12. destruct H12 as [H|H].
        + now apply (venue_keys_apart (uuid 0%nat) (uuid 1%nat) r0 r1 A V0 V1
                       key).
        + now apply (venue_keys_apart (uuid 0%nat) (uuid 2%nat) r0 r2 B V0 V2
                       key). }
    assert (A0 : insert_venue v0 [] = Some [v0]).
    { apply insert_venue_iff. split; [reflexivity | intros []]. }
    assert (A1 : insert_venue v1 [v0] = Some [v0; v1]).
    { apply insert_venue_iff. split; [reflexivity|].
      cbn [map v_id In v0 v1]. intuition congruence. }
    assert (A2 : insert_venue v2 [v0; v1] = Some [v0; v1; v2]).
    { apply insert_venue_iff. split; [reflexivity|].
      cbn [map v_id In v0 v1 v2]. intuition congruence. }
    assert (B0 : insert_seats r0 [] = Some r0).
    { apply insert_seats_iff; [constructor|constructor|].
      split; [reflexivity|]. rewrite map_app in Hs, Hk.
      split; eapply NoDup_app_remove_r; eassumption. }
    assert (B1 : insert_seats r1 r0 = Some (r0 ++ r1)%list).
    { apply insert_seats_iff in B0; [|constructor|constructor].
      destruct B0 as [_ [W1 W2]].
      apply insert_seats_iff; [assumption|assumption|].
      split; [reflexivity|]. rewrite app_assoc, map_app in Hs, Hk.
      split; eapply NoDup_app_remove_r; eassumption. }
    assert (B2 : insert_seats r2 (r0 ++ r1) = Some (r0 ++ r1 ++ r2)%list).
    { apply insert_seats_iff in B1.
      - destruct B1 as [_ [W1 W2]].
        apply insert_seats_iff; [assumption|assumption|].
        split; [now rewrite app_assoc|]. now split.
      - apply insert_seats_iff in B0; [tauto|constructor|constructor].
      - apply insert_seats_iff in B0; [tauto|constructor|constructor]. }
    rewrite A0, B0, A1, B1, A2, B2. reflexivity.
Qed.

(** The venue loop of [seedDatabase] runs through exactly when the three
    venue ids drawn are pairwise different and the thousand seat ids
    drawn are pairwise different: a repeated id makes an insert throw and
    ends the seeding.  When it runs through, the venues are the three of
    the source, the seats carry the ids in the order they were drawn, and
    each venue has exactly as many seats as its [capacity] column says:
    300, 200 and 500. *)
Theorem seeded_venues_are_filled_to_capacity (uuid : nat -> string) :
  ((exists tables, seed_tables uuid = Some tables)
   <-> NoDup (map uuid (seq 0 3)) /\ NoDup (map uuid (seq 3 1000)))
  /\ forall venues seats,
       seed_tables uuid = Some (venues, seats) ->
       venues = seed_venues uuid
       /\ map s_id seats = map uuid (seq 3 1000)
       /\ forall v, In v venues ->
            Z.of_nat (List.length (seats_of_venue (v_id v) seats))
            = v_capacity v.
Proof.
  destruct (seed_tables_run uuid)
    as [r0 [r1 [r2 [[L0 [L1 L2]] [V0 [V1 [V2 [Hids Hrun]]]]]]]].
  split.
  - split.
    + intros [[venues seats] H]. apply Hrun in H.
      destruct H as [Hv [Hs _]]. now split.
    + intros [Hv Hs]. exists (seed_venues uuid, (r0 ++ r1 ++ r2)%list).
      apply Hrun. auto.
  - intros venues seats H. apply Hrun in H.
    destruct H as [Hv [Hs [-> ->]]].
    split; [reflexivity|]. split; [exact Hids|].
    assert (D : uuid 0%nat <> uuid 1%nat /\ uuid 0%nat <> uuid 2%nat
                /\ uuid 1%nat <> uuid 2%nat).
    { cbn [seq map] in Hv. inversion Hv as [|a l N1 H1].
      inversion H1 as [|b l' N2 _]. subst. cbn [In] in N1, N2.
      intuition congruence. }
    destruct D as [A [B C]].
    assert (Y : forall (a : string) (l : list seat),
              (forall x, In x l -> s_venue_id x = a) ->
              seats_of_venue a l = l).
    { intros a l Hl. apply filter_all. intros x Hx.
      rewrite (Hl x Hx). apply String.eqb_refl. }
    assert (N : forall (a b : string) (l : list seat),
              a <> b -> (forall x, In x l -> s_venue_id x = a) ->
              seats_of_venue b l = []).
    { intros a b l Hab Hl. apply filter_none. intros x Hx.
      rewrite (Hl x Hx). now apply String.eqb_neq. }
    intros v [<-|[<-|[<-|[]]]]; cbn [v_id v_capacity];
      unfold seats_of_venue; rewrite !filter_app;
      fold (seats_of_venue (uuid 0%nat) r0) (seats_of_venue (uuid 0%nat) r1)
           (seats_of_venue (uuid 0%nat) r2)
           (seats_of_venue (uuid 1%nat) r0) (seats_of_venue (uuid 1%nat) r1)
           (seats_of_venue (uuid 1%nat) r2)
           (seats_of_venue (uuid 2%nat) r0) (seats_of_venue (uuid 2%nat) r1)
           (seats_of_venue (uuid 2%nat) r2).
    + rewrite (Y _ r0 V0), (N _ _ r1 (not_eq_sym A) V1),
        (N _ _ r2 (not_eq_sym B) V2).
      cbn [app]. rewrite app_nil_r, L0. reflexivity.
    + rewrite (N _ _ r0 A V0), (Y _ r1 V1), (N _ _ r2 (not_eq_sym C) V2).
      cbn [app]. rewrite app_nil_r, L1. reflexivity.
    + rewrite (N _ _ r0 B V0), (N _ _ r1 C V1), (Y _ r2 V2).
      cbn [app]. rewrite L2. reflexivity.
Qed.

Lemma demo_seed_uuid_inj (i j : nat) :
  Z.of_nat i < 10000 -> Z.of_nat j < 10000 ->
  demo_seed_uuid i = demo_seed_uuid j -> i = j.
Proof.
  intros Hi Hj E.
  assert (C : String.compare (demo_seed_uuid i) (demo_seed_uuid j)
              = String.compare (demo_seed_uuid j) (demo_seed_uuid j))
    by now rewrite E.
  unfold demo_seed_uuid in C.
  rewrite !ClockFacts.pad4_compare, Z.compare_refl in C by lia.
  destruct (Z.compare_spec (Z.of_nat i) (Z.of_nat j));
    [lia | discriminate | discriminate].
Qed.

Lemma demo_seed_ids_unique (a n : nat) :
  Z.of_nat (a + n) <= 10000 -> NoDup (map demo_seed_uuid (seq a n)).
Proof.
  intros H. apply Injective_map_NoDup_in; [|apply seq_NoDup].
  intros i j Hi Hj. apply in_seq in Hi, Hj.
  apply demo_seed_uuid_inj; lia.
Qed.

Lemma seeded_venues_are_filled_to_capacity_witness :
  exists tables,
    seed_tables demo_seed_uuid = Some tables
    /\ fst tables = seed_venues demo_seed_uuid
    /\ Z.of_nat
         (List.length (seats_of_venue (demo_seed_uuid 1) (snd tables)))
       = 200.
Proof.
  assert (Hv : NoDup (map demo_seed_uuid (seq 0 3)))
    by (apply demo_seed_ids_unique; vm_compute; discriminate).
  assert (Hs : NoDup (map demo_seed_uuid (seq 3 1000)))
    by (apply demo_seed_ids_unique; vm_compute; discriminate).
  destruct (seeded_venues_are_filled_to_capacity demo_seed_uuid)
    as [Hrun Htables].
  destruct (proj2 Hrun (conj Hv Hs)) as [[venues seats] E].
  exists (venues, seats). split; [exact E|].
  destruct (Htables venues seats E) as [Ev [_ Hcount]].
  split; [exact Ev|]. cbn [snd].
  apply (Hcount (mk_venue (demo_seed_uuid 1) "Downtown Theater"
                   "456 Broadway St" "Los Angeles" 200 10 20)).
  rewrite Ev. right. left. reflexivity.
Defined.
